(** * Cold-Mailer: contact extraction and templated dispatch

    A shallow embedding of [cold_mailer.py] (the batch tool) and [api.py]
    (the service API), and the properties of the sheet loader, the contact
    extractor and the dispatcher.

    Python [str] values are held as [string]: the UTF-8 encoding of the
    text.  The operations the program applies to text ([in], [split] with
    ASCII separators, [strip], [format], comparison) act on the encoding
    exactly as they act on the code points. *)

From Stdlib Require Import String Ascii List ZArith NArith Bool Lia DecimalString.
From Equations Require Import Equations.
Import ListNotations.

Set Implicit Arguments.
Open Scope string_scope.

(* ===================================================================== *)
(** * Python values, exceptions and built-in string operations *)
(* ===================================================================== *)

Module Py.

(** Exceptions that the program raises, catches or lets through.  All of
    them derive from [Exception]. *)
Inductive exn : Type :=
| ValueError (msg : string)
| IndexError (msg : string)
| KeyError (key : string)
| HTTPException (status_code : Z) (detail : string)
| SMTPAuthenticationError (msg : string)
| Exception (msg : string)
| OutsideModel (what : string).
(** [OutsideModel] marks a use of a library feature that this embedding
    does not interpret (a conversion or format specification inside a
    replacement field).  Nothing below depends on how such a use ends. *)

Inductive result (A : Type) : Type :=
| Ok (a : A)
| Raise (e : exn).
Arguments Ok {A} a.
Arguments Raise {A} e.

Definition is_ok {A} (r : result A) : bool :=
  match r with Ok _ => true | Raise _ => false end.

Definition rbind {A B} (r : result A) (k : A -> result B) : result B :=
  match r with Ok a => k a | Raise e => Raise e end.

(** Truthiness of [Optional[str]]: [None] and the empty string are false. *)
Definition truthy (o : option string) : bool :=
  match o with
  | Some (String _ _) => true
  | _ => false
  end.

(** [a or b] on optional strings. *)
Definition or_else (a b : option string) : option string :=
  if truthy a then a else b.

(** [a or "literal"]: the right operand is a string, so is the result
    whenever the left operand is false. *)
Definition or_str (a : option string) (b : string) : string :=
  match a with
  | Some (String c s) => String c s
  | _ => b
  end.

(** [a and b] on optional strings. *)
Definition and_also (a b : option string) : option string :=
  if truthy a then b else a.

(** [str(x)] of an optional string, as an f-string or [format] renders it. *)
Definition str_opt (o : option string) : string :=
  match o with Some s => s | None => "None" end.

(** [str(n)] of an integer. *)
Definition str_int (n : Z) : string :=
  NilZero.string_of_int (Z.to_int n).

(** [s * n]. *)
Fixpoint repeat_str (s : string) (n : nat) : string :=
  match n with
  | O => ""
  | S k => s ++ repeat_str s k
  end.

(** The rest of [s] after the prefix [p], when [s] starts with [p]. *)
Fixpoint strip_prefix (p s : string) : option string :=
  match p, s with
  | EmptyString, _ => Some s
  | String a p', String b s' =>
      if Ascii.eqb a b then strip_prefix p' s' else None
  | String _ _, EmptyString => None
  end.

(** [s.partition(sep)] when [sep] occurs: the text before and the text
    after the leftmost occurrence; [None] when it does not occur. *)
Fixpoint partition (sep s : string) : option (string * string) :=
  match strip_prefix sep s with
  | Some rest => Some ("", rest)
  | None =>
      match s with
      | EmptyString => None
      | String c s' =>
          match partition sep s' with
          | Some (b, a) => Some (String c b, a)
          | None => None
          end
      end
  end.

(** [s.partition(sep)[0]]: the text before the leftmost occurrence of
    [sep], all of [s] when there is none. *)
Definition head_piece (sep s : string) : string :=
  match partition sep s with Some (b, _) => b | None => s end.

(** [sub in s]. *)
Definition str_in (sub s : string) : bool :=
  match partition sub s with Some _ => true | None => false end.

Definition inspect {A} (a : A) : {b : A | a = b} := exist _ a eq_refl.

(** [s.split(sep)] for a separator [String c sep'] (not empty): cut at
    the leftmost occurrence and go on after it. *)
Equations? split_at (c : ascii) (sep' : string) (s : string) : list string
  by wf (String.length s) lt :=
  split_at c sep' s with inspect (partition (String c sep') s) := {
    | exist _ (Some (b, a)) _ := b :: split_at c sep' a;
    | exist _ None _ := [s] }.
Proof.
  assert (forall p u r, strip_prefix p u = Some r ->
                        String.length u = String.length p + String.length r)
    as prefix_length.
  { induction p as [|x p IH]; intros [|y u] r; simpl; try congruence.
    - intros [= <-]; reflexivity.
    - intros [= <-]; reflexivity.
    - destruct (Ascii.eqb x y); [|discriminate].
      intros H; apply IH in H; lia. }
  assert (forall sep u v w, partition sep u = Some (v, w) ->
                            String.length u
                            = String.length v + String.length sep + String.length w)
    as cut_length.
  { intros sep u. induction u as [|x u IH]; intros v w; simpl.
    - destruct (strip_prefix sep "") eqn:E; [|discriminate].
      intros [= <- <-]. apply prefix_length in E; simpl in *; lia.
    - destruct (strip_prefix sep (String x u)) eqn:E.
      + intros [= <- <-]. apply prefix_length in E; simpl in *; lia.
      + destruct (partition sep u) as [[v' w']|]; [|discriminate].
        intros [= <- <-]. specialize (IH _ _ eq_refl). simpl; lia. }
  match goal with H : _ = Some _ |- _ => apply cut_length in H end.
  simpl in *; lia.
Qed.

(** [s.split(sep)]; the empty separator is refused. *)
Definition split (sep s : string) : result (list string) :=
  match sep with
  | EmptyString => Raise (ValueError "empty separator")
  | String c sep' => Ok (split_at c sep' s)
  end.

(** [l[i]] for [i >= 0]. *)
Definition index {A} (l : list A) (i : nat) : result A :=
  match nth_error l i with
  | Some a => Ok a
  | None => Raise (IndexError "list index out of range")
  end.

Notation "x <-? r ;; k" := (rbind r (fun x => k))
  (at level 61, r at next level, right associativity).

(** ** [str.strip()] *)

(** UTF-8 encoding of a code point below 65536. *)
Definition utf8 (cp : N) : string :=
  if (cp <? 128)%N then String (ascii_of_N cp) ""
  else if (cp <? 2048)%N then
    String (ascii_of_N (192 + cp / 64))
      (String (ascii_of_N (128 + cp mod 64)) "")
  else
    String (ascii_of_N (224 + cp / 4096))
      (String (ascii_of_N (128 + (cp / 64) mod 64))
         (String (ascii_of_N (128 + cp mod 64)) "")).

(** The code points that [str.strip()] removes (those for which
    [str.isspace] holds). *)
Definition whitespace_points : list N :=
  [9; 10; 11; 12; 13; 28; 29; 30; 31; 32; 133; 160; 5760;
   8192; 8193; 8194; 8195; 8196; 8197; 8198; 8199; 8200; 8201; 8202;
   8232; 8233; 8239; 8287; 12288]%N.

Definition whitespace : list string := map utf8 whitespace_points.

Definition rev_str (s : string) : string :=
  string_of_list_ascii (rev (list_ascii_of_string s)).

(** The rest of [s] after the first pattern of [pats] that starts it;
    an empty pattern never matches. *)
Fixpoint drop_any (pats : list string) (s : string) : option string :=
  match pats with
  | [] => None
  | p :: ps =>
      match p, strip_prefix p s with
      | String _ _, Some r => Some r
      | _, _ => drop_any ps s
      end
  end.

(** Remove leading occurrences of the patterns, as long as one matches. *)
Equations? lstrip_with (pats : list string) (s : string) : string
  by wf (String.length s) lt :=
  lstrip_with pats s with inspect (drop_any pats s) := {
    | exist _ (Some r) _ := lstrip_with pats r;
    | exist _ None _ := s }.
Proof.
  assert (forall p u r, strip_prefix p u = Some r ->
                        String.length u = String.length p + String.length r)
    as prefix_length.
  { induction p as [|x p IH]; intros [|y u] r'; simpl; try congruence.
    - intros [= <-]; reflexivity.
    - intros [= <-]; reflexivity.
    - destruct (Ascii.eqb x y); [|discriminate].
      intros H; apply IH in H; lia. }
  match goal with H : drop_any _ _ = Some _ |- _ => revert H end.
  induction pats as [|p ps IH]; cbn [drop_any]; [discriminate|].
  destruct p as [|x p]; [exact IH|].
  destruct (strip_prefix (String x p) s) eqn:E; [|exact IH].
  intros [= <-]. apply prefix_length in E. simpl in E. lia.
Qed.

Definition lstrip (s : string) : string := lstrip_with whitespace s.

(** A text ends with a white-space character exactly when its encoding
    ends with that character's encoding, so the right end is stripped on
    the reversed bytes. *)
Definition rstrip (s : string) : string :=
  rev_str (lstrip_with (map rev_str whitespace) (rev_str s)).

Definition strip (s : string) : string := rstrip (lstrip s).

(** ** [str.format] with keyword arguments *)

Definition kwargs := list (string * string).

Fixpoint lookup (k : string) (kw : kwargs) : option string :=
  match kw with
  | [] => None
  | (k', v) :: kw' => if String.eqb k k' then Some v else lookup k kw'
  end.

Fixpoint all_digits (s : string) : bool :=
  match s with
  | EmptyString => true
  | String c s' =>
      (48 <=? nat_of_ascii c)%nat && (nat_of_ascii c <=? 57)%nat && all_digits s'
  end.

(** The number that a string of ASCII digits writes; [0] for the empty
    name, which numbers the field automatically. *)
Fixpoint digits_value (acc : Z) (s : string) : Z :=
  match s with
  | EmptyString => acc
  | String c s' =>
      digits_value (10 * acc + (Z.of_nat (nat_of_ascii c) - 48)) s'
  end.

(** The largest index, [sys.maxsize] of a 64-bit CPython. *)
Definition PY_SSIZE_T_MAX : Z := 9223372036854775807.

(** The value of the replacement field [{name}].  No positional argument
    is ever passed, so an empty or numeric name is out of range, and a
    number above [sys.maxsize] is refused as it is read.  (A name written
    in decimal digits outside ASCII is an index for CPython and a key
    here; it is refused either way.) *)
Definition field_value (kw : kwargs) (name : string) : result string :=
  if all_digits name then
    if (PY_SSIZE_T_MAX <? digits_value 0 name)%Z then
      Raise (ValueError "Too many decimal digits in format string")
    else
      Raise (IndexError ("Replacement index " ++ str_int (digits_value 0 name)
                           ++ " out of range for positional args tuple"))
  else
    match lookup name kw with
    | Some v => Ok v
    | None => Raise (KeyError name)
    end.

(** Characters that start a conversion, a format specification, an
    attribute or an index inside a replacement field. *)
Definition field_operator (c : ascii) : bool :=
  Ascii.eqb c "!" || Ascii.eqb c ":" || Ascii.eqb c "." || Ascii.eqb c "[".

(** The template scanner: [field] is [None] in literal text and
    [Some name] inside a replacement field whose name read so far is
    [name]. *)
Fixpoint format_go (kw : kwargs) (field : option string) (t : string)
  {struct t} : result string :=
  match t with
  | EmptyString =>
      match field with
      | None => Ok ""
      | Some EmptyString =>
          Raise (ValueError "Single '{' encountered in format string")
      | Some _ => Raise (ValueError "expected '}' before end of string")
      end
  | String c t' =>
      match field with
      | Some name =>
          if Ascii.eqb c "}" then
            v <-? field_value kw name ;;
            r <-? format_go kw None t' ;;
            Ok (v ++ r)
          else if Ascii.eqb c "{" then
            Raise (ValueError "unexpected '{' in field name")
          else if field_operator c then
            Raise (OutsideModel "replacement field with conversion, specification, attribute or index")
          else format_go kw (Some (name ++ String c "")) t'
      | None =>
          if Ascii.eqb c "{" then
            match t' with
            | String d t'' =>
                if Ascii.eqb d "{" then
                  r <-? format_go kw None t'' ;; Ok (String "{" r)
                else format_go kw (Some "") t'
            | EmptyString => format_go kw (Some "") t'
            end
          else if Ascii.eqb c "}" then
            match t' with
            | String d t'' =>
                if Ascii.eqb d "}" then
                  r <-? format_go kw None t'' ;; Ok (String "}" r)
                else Raise (ValueError "Single '}' encountered in format string")
            | EmptyString =>
                Raise (ValueError "Single '}' encountered in format string")
            end
          else r <-? format_go kw None t' ;; Ok (String c r)
      end
  end.

Definition format (template : string) (kw : kwargs) : result string :=
  format_go kw None template.

(** [str(e)].  For [HTTPException] this is Starlette's
    [status_code: detail]; for [KeyError] the quoted key; the other
    exceptions carry their text. *)
Definition str_exn (e : exn) : string :=
  match e with
  | ValueError m | IndexError m | SMTPAuthenticationError m
  | Exception m | OutsideModel m => m
  | KeyError k => "'" ++ k ++ "'"
  | HTTPException c d => str_int c ++ ": " ++ d
  end.

(** [s.lower()] on the ASCII letters.  No character outside ASCII has a
    lower-case form made of the letters y, e, s, so the comparison of
    [s.lower()] with ['yes'] that the batch tool makes is decided by
    this function. *)
Definition lower_ascii (c : ascii) : ascii :=
  let n := nat_of_ascii c in
  if (65 <=? n)%nat && (n <=? 90)%nat then ascii_of_nat (n + 32) else c.

Fixpoint lower (s : string) : string :=
  match s with
  | EmptyString => EmptyString
  | String c s' => String (lower_ascii c) (lower s')
  end.

(** Line feed, written [\n] in the source. *)
Definition nl : string := String (ascii_of_nat 10) "".

End Py.

Import Py.

(* ===================================================================== *)
(** * The outside world: HTTP, SMTP, the terminal, pandas *)
(* ===================================================================== *)

Module World.

(** [requests.Response]: the two attributes the program reads. *)
Record Response : Type := { status_code : Z; text : string }.

(** One SMTP session of the program: [SMTP_SSL('smtp.gmail.com', 465)],
    [login(user, password)], [send_message(msg)] with a plain-text
    body.  The batch tool passes its module-level credentials, which are
    [None] when the environment does not set them. *)
Record Message : Type := {
  login_user : option string;
  login_password : option string;
  msg_From : option string;
  msg_To : string;
  msg_Subject : string;
  msg_body : string
}.

(** What the program does to the world, in the order it does it. *)
Inductive event : Type :=
| HttpGet (url : string)
| SmtpSession (m : Message)
| Print (line : string)
| Input (prompt : string)
| Sleep (seconds : Z).

Definition trace := list event.

(** A cell of a [DataFrame] row: [NaN] (for which [pd.notna] is false)
    or a value [val], held by its text [str(val)]. *)
Inductive cell : Type :=
| NaN
| Val (str_val : string).

Definition DataFrame := list (list cell).

(** The environment variables read at import time and the answers of the
    world.  An answer may depend on everything done before it. *)
Record Env : Type := {
  GMAIL_ADDRESS : option string;
  GMAIL_APP_PASSWORD : option string;
  requests_get : trace -> string -> result Response;
  smtp_session : trace -> Message -> option exn;
  stdin : trace -> string -> string;
  read_csv : string -> result DataFrame;
  time_sleep : trace -> Z -> option exn
}.

(** Computations: they extend the trace and return or raise. *)
Definition M (A : Type) : Type := trace -> result A * trace.

Definition ret {A} (a : A) : M A := fun t => (Ok a, t).
Definition raise {A} (e : exn) : M A := fun t => (Raise e, t).
Definition lift {A} (r : result A) : M A := fun t => (r, t).

Definition bind {A B} (m : M A) (k : A -> M B) : M B :=
  fun t =>
    match m t with
    | (Ok a, t') => k a t'
    | (Raise e, t') => (Raise e, t')
    end.

(** [try: m except Exception as e: h e]. *)
Definition try_except {A} (m : M A) (h : exn -> M A) : M A :=
  fun t =>
    match m t with
    | (Ok a, t') => (Ok a, t')
    | (Raise e, t') => h e t'
    end.

Notation "x <- m ;; k" := (bind m (fun x => k))
  (at level 61, m at next level, right associativity).
Notation "m ;; k" := (bind m (fun _ => k))
  (at level 61, right associativity).

(** [print(line)] to a standard output that takes every line: the batch
    tool is taken to run on a terminal that can show its text, the marks
    of [send_email] included. *)
Definition print (line : string) : M unit :=
  fun t => (Ok tt, (t ++ [Print line])%list).

(** [time.sleep(seconds)] on an [int].  A negative length is refused with
    [ValueError]; any other length may still be refused by the platform
    ([OverflowError] or [OSError] for one too large), which is the answer
    [time_sleep] of the world.  A pause that is refused has not taken
    place and leaves no event. *)
Definition sleep (env : Env) (seconds : Z) : M unit :=
  fun t =>
    if (seconds <? 0)%Z then
      (Raise (ValueError "sleep length must be non-negative"), t)
    else
      match time_sleep env t seconds with
      | None => (Ok tt, (t ++ [Sleep seconds])%list)
      | Some e => (Raise e, t)
      end.

(** [input(prompt)] on a standard input that has a line to give. *)
Definition input (env : Env) (prompt : string) : M string :=
  fun t => (Ok (stdin env t prompt), (t ++ [Input prompt])%list).

Definition get (env : Env) (url : string) : M Response :=
  fun t => (requests_get env t url, (t ++ [HttpGet url])%list).

(** The [with smtplib.SMTP_SSL(...)] block. *)
Definition smtp (env : Env) (m : Message) : M unit :=
  fun t =>
    (match smtp_session env t m with
     | None => Ok tt
     | Some e => Raise e
     end, (t ++ [SmtpSession m])%list).

(** The SMTP sessions of a trace, in order. *)
Fixpoint sessions (t : trace) : list Message :=
  match t with
  | [] => []
  | SmtpSession m :: t' => m :: sessions t'
  | _ :: t' => sessions t'
  end.

(** The pauses of a trace, in order. *)
Fixpoint sleeps (t : trace) : list Z :=
  match t with
  | [] => []
  | Sleep n :: t' => n :: sleeps t'
  | _ :: t' => sleeps t'
  end.

(** The questions put to the user in a trace, in order. *)
Fixpoint prompts (t : trace) : list string :=
  match t with
  | [] => []
  | Input p :: t' => p :: prompts t'
  | _ :: t' => prompts t'
  end.

(** The URLs fetched in a trace, in order. *)
Fixpoint fetched (t : trace) : list string :=
  match t with
  | [] => []
  | HttpGet u :: t' => u :: fetched t'
  | _ :: t' => fetched t'
  end.

End World.

Import World.

(* ===================================================================== *)
(** * Text shared by [cold_mailer.py] and [api.py] *)
(* ===================================================================== *)

(** The two files hold the same lines for the export URL of a sheet
    reference and for [parse_contacts]. *)
Module Common.

Record Contact : Type := {
  email : string;
  hr_name : string;
  company_name : string
}.

(** [sheet_id] of [fetch_google_sheet]. *)
Definition sheet_id (sheet_url : string) : result string :=
  if str_in "/d/" sheet_url then
    a <-? split "/d/" sheet_url ;;
    b <-? index a 1 ;;
    c <-? split "/" b ;;
    index c 0
  else Ok sheet_url.

(** [gid] of [fetch_google_sheet]. *)
Definition gid (sheet_url : string) : result string :=
  if str_in "gid=" sheet_url then
    a <-? split "gid=" sheet_url ;;
    b <-? index a 1 ;;
    c <-? split "#" b ;;
    d <-? index c 0 ;;
    e <-? split "&" d ;;
    index e 0
  else Ok "0".

Definition export_url (sheet_url : string) : result string :=
  sheet_id <-? sheet_id sheet_url ;;
  gid <-? gid sheet_url ;;
  Ok ("https://docs.google.com/spreadsheets/d/" ++ sheet_id
        ++ "/export?format=csv&gid=" ++ gid).

(** [[str(val).strip() for val in row if pd.notna(val) and str(val).strip()]] *)
Fixpoint values (row : list cell) : list string :=
  match row with
  | [] => []
  | NaN :: row' => values row'
  | Val s :: row' =>
      match strip s with
      | EmptyString => values row'
      | v => v :: values row'
      end
  end.

(** The [for val in values: if '@' in val: email = val; break] loop,
    started with [email = None]. *)
Fixpoint find_email (values : list string) : option string :=
  match values with
  | [] => None
  | val :: values' => if str_in "@" val then Some val else find_email values'
  end.

(** [values[-1]]. *)
Definition last_value (values : list string) : result string :=
  match rev values with
  | v :: _ => Ok v
  | [] => Raise (IndexError "list index out of range")
  end.

(** The body of the [for _, row in df.iterrows()] loop: [contacts]
    after the row. *)
Definition row_step (contacts : list Contact) (row : list cell)
  : result (list Contact) :=
  let values := values row in
  if (2 <=? List.length values)%nat then
    company <-? (if (0 <? List.length values)%nat then index values 0
                 else Ok "Your Company") ;;
    let email := find_email values in
    last <-? last_value values ;;
    let name :=
      match email with
      | Some e => if String.eqb last e then "Hiring Manager" else last
      | None => last
      end in
    match email with
    | Some (String _ _ as e) =>
        Ok (contacts ++ [{| email := e;
                            hr_name := name;
                            company_name := company |}])%list
    | _ => Ok contacts
    end
  else Ok contacts.

Fixpoint iterrows (contacts : list Contact) (df : DataFrame)
  : result (list Contact) :=
  match df with
  | [] => Ok contacts
  | row :: df' =>
      contacts' <-? row_step contacts row ;;
      iterrows contacts' df'
  end.

Definition parse_contacts (env : Env) (csv_data : string)
  : result (list Contact) :=
  df <-? read_csv env csv_data ;;
  iterrows [] df.

End Common.

Import Common.

(* ===================================================================== *)
(** * [cold_mailer.py]: the batch tool *)
(* ===================================================================== *)

Module ColdMailer.

Definition EMAIL_SUBJECT : string :=
  "Application for SDE-1 Position at {company_name}".

Definition EMAIL_BODY_TEMPLATE : string :=
"Dear {hr_name},

I hope this email finds you well. I am writing to express my interest in the Software Developer Engineer (SDE-1) position at {company_name}.

I am a passionate software developer with strong problem-solving skills and experience in:
• Data Structures & Algorithms
• Python, Java, JavaScript
• Web Development (React, Node.js)
• Database Management (SQL, MongoDB)
• Git and Version Control

I am eager to contribute to {company_name}'s innovative projects and would be grateful for the opportunity to discuss how my skills align with your team's needs.

I have attached my resume for your reference. I would appreciate the opportunity to discuss my candidacy further.

Thank you for your time and consideration.

Best regards,
[Your Name]
Email: {sender_email}
Phone: [Your Phone Number]
LinkedIn: [Your LinkedIn Profile]
GitHub: [Your GitHub Profile]
".

Definition fetch_google_sheet (env : Env) (sheet_url : string) : M string :=
  export_url <- lift (export_url sheet_url) ;;
  print "Fetching data from Google Sheet..." ;;
  response <- get env export_url ;;
  if negb (status_code response =? 200)%Z then
    raise (Exception ("Failed to fetch Google Sheet. Status code: "
                        ++ str_int (status_code response)))
  else ret (text response).

Definition parse_contacts := Common.parse_contacts.

Definition send_email (env : Env) (to_email hr_name company_name : string)
  (preview_only : bool) : M bool :=
  subject <- lift (format EMAIL_SUBJECT [("company_name", company_name)]) ;;
  body <- lift (format EMAIL_BODY_TEMPLATE
                  [("hr_name", hr_name);
                   ("company_name", company_name);
                   ("sender_email", str_opt (GMAIL_ADDRESS env))]) ;;
  if preview_only then
    print (nl ++ repeat_str "=" 60) ;;
    print ("TO: " ++ to_email) ;;
    print ("SUBJECT: " ++ subject) ;;
    print (repeat_str "-" 60) ;;
    print body ;;
    print (repeat_str "=" 60) ;;
    ret true
  else
    try_except
      (smtp env {| login_user := GMAIL_ADDRESS env;
                   login_password := GMAIL_APP_PASSWORD env;
                   msg_From := GMAIL_ADDRESS env;
                   msg_To := to_email;
                   msg_Subject := subject;
                   msg_body := body |} ;;
       print ("✓ Email sent to " ++ hr_name ++ " at " ++ company_name
                ++ " (" ++ to_email ++ ")") ;;
       ret true)
      (fun e =>
         print ("✗ Failed to send to " ++ to_email ++ ": " ++ str_exn e) ;;
         ret false).

(** The parsed command line. *)
Record Args : Type := {
  sheet_url : string;
  preview : bool;
  delay : Z;
  confirm : bool
}.

(** [for i, contact in enumerate(contacts, 1): print(...)] *)
Fixpoint print_contacts (i : Z) (contacts : list Contact) : M unit :=
  match contacts with
  | [] => ret tt
  | contact :: rest =>
      print ("  " ++ str_int i ++ ". " ++ hr_name contact ++ " ("
               ++ company_name contact ++ ") - " ++ email contact) ;;
      print_contacts (i + 1) rest
  end.

(** The [for i, contact in enumerate(contacts)] loop of [main], with its
    two counters; it ends with their final values. *)
Fixpoint send_loop (env : Env) (args : Args) (i : Z) (contacts : list Contact)
  (success_count fail_count : Z) : M (Z * Z) :=
  match contacts with
  | [] => ret (success_count, fail_count)
  | contact :: rest =>
      (if (0 <? i)%Z && negb (preview args) then
         print ("Waiting " ++ str_int (delay args) ++ " seconds...") ;;
         sleep env (delay args)
       else ret tt) ;;
      result <- send_email env (email contact) (hr_name contact)
                  (company_name contact) (preview args) ;;
      if result then send_loop env args (i + 1) rest (success_count + 1) fail_count
      else send_loop env args (i + 1) rest success_count (fail_count + 1)
  end.

Definition summary_line (success_count fail_count : Z) : string :=
  "Summary: " ++ str_int success_count ++ " successful, "
    ++ str_int fail_count ++ " failed".

(** [main], from the validation of the credentials on. *)
Definition main (env : Env) (args : Args) : M unit :=
  if negb (truthy (GMAIL_ADDRESS env)) || negb (truthy (GMAIL_APP_PASSWORD env)) then
    print "Error: Please set GMAIL_ADDRESS and GMAIL_APP_PASSWORD in .env file"
  else
    print ("Gmail Account: " ++ str_opt (GMAIL_ADDRESS env)) ;;
    print ("Mode: " ++ (if preview args then "PREVIEW" else "SEND")) ;;
    print ("Delay: " ++ str_int (delay args) ++ " seconds between emails" ++ nl) ;;
    loaded <- try_except
                (csv_data <- fetch_google_sheet env (sheet_url args) ;;
                 contacts <- lift (parse_contacts env csv_data) ;;
                 ret (Some contacts))
                (fun e =>
                   print ("Error fetching/parsing sheet: " ++ str_exn e) ;;
                   ret None) ;;
    match loaded with
    | None => ret tt
    | Some [] => print "No contacts found in the sheet!"
    | Some contacts =>
        print ("Found " ++ str_int (Z.of_nat (List.length contacts))
                 ++ " contact(s):" ++ nl) ;;
        print_contacts 1 contacts ;;
        go_on <- (if negb (preview args) then
                    print (nl ++ repeat_str "-" 40) ;;
                    if negb (confirm args) then
                      answer <- input env "Do you want to send emails to these contacts? (yes/no): " ;;
                      if negb (String.eqb (lower answer) "yes") then
                        print "Cancelled." ;; ret false
                      else ret true
                    else ret true
                  else ret true) ;;
        if go_on then
          print (nl ++ repeat_str "=" 40) ;;
          counts <- send_loop env args 0 contacts 0 0 ;;
          print (nl ++ repeat_str "=" 40) ;;
          print (summary_line (fst counts) (snd counts))
        else ret tt
    end.

End ColdMailer.

(* ===================================================================== *)
(** * [api.py]: the service API *)
(* ===================================================================== *)

Module Api.

Definition DEFAULT_SUBJECT : string :=
  "Application for SDE-1 Position at {company_name}".

Definition DEFAULT_BODY : string :=
"Dear {hr_name},

I hope this email finds you well. I am writing to express my interest in the Software Developer Engineer (SDE-1) position at {company_name}.

I am a passionate software developer with strong problem-solving skills and experience in:
• Data Structures & Algorithms
• Python, Java, JavaScript
• Web Development (React, Node.js)
• Database Management (SQL, MongoDB)
• Git and Version Control

I am eager to contribute to {company_name}'s innovative projects and would be grateful for the opportunity to discuss how my skills align with your team's needs.

Thank you for your time and consideration.

Best regards,
[Your Name]
Email: {sender_email}
".

Record SingleEmailRequest : Type := {
  to_email : string;
  req_hr_name : string;
  req_company_name : string;
  subject : option string;
  body : option string;
  sender_email : option string;
  sender_password : option string
}.

Record GoogleSheetRequest : Type := {
  sheet_url : string;
  sheet_subject : option string;
  sheet_body : option string
}.

Record EmailPreview : Type := {
  preview_to_email : string;
  preview_subject : string;
  preview_body : string
}.

Record SendResult : Type := {
  success : bool;
  message : string;
  result_email : string
}.

(** An entry of [results] in [send_from_google_sheet]: the dictionary
    with [success: True] or the one with [success: False]. *)
Inductive Outcome : Type :=
| Sent (email name company : string)
| NotSent (email error : string).

Definition outcome_success (r : Outcome) : bool :=
  match r with Sent _ _ _ => true | NotSent _ _ => false end.

Definition outcome_email (r : Outcome) : string :=
  match r with Sent e _ _ => e | NotSent e _ => e end.

(** The dictionary that [send_from_google_sheet] returns. *)
Record Summary : Type := {
  total : Z;
  succeeded : Z;
  failed : Z;
  results : list Outcome
}.

Definition fetch_google_sheet (env : Env) (sheet_url : string) : M string :=
  export_url <- lift (export_url sheet_url) ;;
  response <- get env export_url ;;
  if negb (status_code response =? 200)%Z then
    raise (HTTPException 400 "Failed to fetch Google Sheet")
  else ret (text response).

Definition parse_contacts := Common.parse_contacts.

(** The two [except] clauses of [send_email]: what is raised for the
    exception caught. *)
Definition send_failure (e : exn) : exn :=
  match e with
  | SMTPAuthenticationError _ =>
      HTTPException 401
        "Gmail authentication failed. Check your email and app password."
  | _ => HTTPException 500 ("Failed to send email: " ++ str_exn e)
  end.

Definition send_email (env : Env) (to_email subject body : string)
  (sender_email sender_password : option string) : M bool :=
  let gmail_addr := or_else sender_email (GMAIL_ADDRESS env) in
  let gmail_pass := or_else sender_password (GMAIL_APP_PASSWORD env) in
  if negb (truthy gmail_addr) || negb (truthy gmail_pass) then
    raise (HTTPException 400
             "Gmail credentials required. Please provide your email and app password.")
  else
    try_except
      (smtp env {| login_user := gmail_addr;
                   login_password := gmail_pass;
                   msg_From := gmail_addr;
                   msg_To := to_email;
                   msg_Subject := subject;
                   msg_body := body |} ;;
       ret true)
      (fun e => raise (send_failure e)).

Definition preview_email (env : Env) (request : SingleEmailRequest)
  : M EmailPreview :=
  let sender :=
    or_str (or_else (sender_email request) (GMAIL_ADDRESS env))
      "your.email@gmail.com" in
  subject <- lift (format (or_str (subject request) DEFAULT_SUBJECT)
                     [("company_name", req_company_name request);
                      ("hr_name", req_hr_name request)]) ;;
  body <- lift (format (or_str (body request) DEFAULT_BODY)
                  [("company_name", req_company_name request);
                   ("hr_name", req_hr_name request);
                   ("sender_email", sender)]) ;;
  ret {| preview_to_email := to_email request;
         preview_subject := subject;
         preview_body := body |}.

Definition send_single_email (env : Env) (request : SingleEmailRequest)
  : M SendResult :=
  let sender := or_else (sender_email request) (GMAIL_ADDRESS env) in
  let password := or_else (sender_password request) (GMAIL_APP_PASSWORD env) in
  if negb (truthy sender) || negb (truthy password) then
    raise (HTTPException 400 "Please provide your Gmail address and App Password")
  else
    subject <- lift (format (or_str (subject request) DEFAULT_SUBJECT)
                       [("company_name", req_company_name request);
                        ("hr_name", req_hr_name request)]) ;;
    body <- lift (format (or_str (body request) DEFAULT_BODY)
                    [("company_name", req_company_name request);
                     ("hr_name", req_hr_name request);
                     ("sender_email", str_opt sender)]) ;;
    send_email env (to_email request) subject body sender password ;;
    ret {| success := true;
           message := "Email sent to " ++ req_hr_name request ++ " at "
                        ++ req_company_name request;
           result_email := to_email request |}.

Definition fetch_contacts (env : Env) (request : GoogleSheetRequest)
  : M (list Contact) :=
  csv_data <- fetch_google_sheet env (sheet_url request) ;;
  contacts <- lift (parse_contacts env csv_data) ;;
  match contacts with
  | [] => raise (HTTPException 404 "No contacts found in the sheet")
  | _ => ret contacts
  end.

(** The [for contact in contacts] loop of [send_from_google_sheet]:
    [results] after the contacts. *)
Fixpoint send_loop (env : Env) (request : GoogleSheetRequest)
  (contacts : list Contact) (results : list Outcome) : M (list Outcome) :=
  match contacts with
  | [] => ret results
  | contact :: rest =>
      subject <- lift (format (or_str (sheet_subject request) DEFAULT_SUBJECT)
                         [("company_name", company_name contact);
                          ("hr_name", hr_name contact)]) ;;
      body <- lift (format (or_str (sheet_body request) DEFAULT_BODY)
                      [("company_name", company_name contact);
                       ("hr_name", hr_name contact);
                       ("sender_email", str_opt (GMAIL_ADDRESS env))]) ;;
      results' <- try_except
                    (send_email env (email contact) subject body None None ;;
                     ret (results ++ [Sent (email contact) (hr_name contact)
                                        (company_name contact)])%list)
                    (fun e =>
                       ret (results ++ [NotSent (email contact) (str_exn e)])%list) ;;
      send_loop env request rest results'
  end.

(** [sum(1 for r in results if r['success'])] *)
Fixpoint count_success (results : list Outcome) : Z :=
  match results with
  | [] => 0
  | r :: rest =>
      ((if outcome_success r then 1 else 0) + count_success rest)%Z
  end.

Definition send_from_google_sheet (env : Env) (request : GoogleSheetRequest)
  : M Summary :=
  if negb (truthy (GMAIL_ADDRESS env)) || negb (truthy (GMAIL_APP_PASSWORD env)) then
    raise (HTTPException 500 "Gmail credentials not configured")
  else
    csv_data <- fetch_google_sheet env (sheet_url request) ;;
    contacts <- lift (parse_contacts env csv_data) ;;
    match contacts with
    | [] => raise (HTTPException 404 "No contacts found in the sheet")
    | _ =>
        results <- send_loop env request contacts [] ;;
        let success_count := count_success results in
        ret {| total := Z.of_nat (List.length contacts);
               succeeded := success_count;
               failed := Z.of_nat (List.length contacts) - success_count;
               results := results |}
    end.

(** The dictionary that [health_check] returns. *)
Record Health : Type := {
  health_status : string;
  gmail_configured : bool;
  gmail_address : option string
}.

Definition health_check (env : Env) : Health :=
  {| health_status := "ok";
     gmail_configured := truthy (and_also (GMAIL_ADDRESS env) (GMAIL_APP_PASSWORD env));
     gmail_address := GMAIL_ADDRESS env |}.

(** The status of the HTTP response that FastAPI builds: 200 for a
    returned value, the status of a raised [HTTPException], 500 for any
    other exception that leaves the handler. *)
Definition http_status {A} (r : result A) : Z :=
  match r with
  | Ok _ => 200
  | Raise (HTTPException status_code _) => status_code
  | Raise _ => 500
  end.

End Api.

(* ===================================================================== *)
(** * The specification's notions *)
(* ===================================================================== *)

(** Definitions that follow the words of the specification, to compare
    with the program's, and the notions in which the properties below are
    stated. *)
Module Spec.

(** The text after the first occurrence of [sep] in [s]. *)
Definition after (sep s : string) : option string :=
  match String.index 0 sep s with
  | Some n =>
      let k := n + String.length sep in
      Some (substring k (String.length s - k) s)
  | None => None
  end.

(** The text before the first occurrence of [sep] in [s]; all of [s]
    when [sep] does not occur. *)
Definition before (sep s : string) : string :=
  match String.index 0 sep s with
  | Some n => substring 0 n s
  | None => s
  end.

(** The text up to the next character for which [stop] holds; all of
    [s] when there is none. *)
Fixpoint upto (stop : ascii -> bool) (s : string) : string :=
  match s with
  | EmptyString => EmptyString
  | String c s' => if stop c then EmptyString else String c (upto stop s')
  end.

Definition amp_or_hash (c : ascii) : bool :=
  Ascii.eqb c "&" || Ascii.eqb c "#".

(** The substring between [/d/] and the next [/] if present; otherwise
    the whole input. *)
Definition document_id (ref : string) : string :=
  match after "/d/" ref with
  | Some rest => upto (Ascii.eqb "/") rest
  | None => ref
  end.

(** The substring after [gid=] up to the next [&] or [#], defaulting to
    [0] when absent. *)
Definition tab_id (ref : string) : string :=
  match after "gid=" ref with
  | Some rest => upto amp_or_hash rest
  | None => "0"
  end.

(** The substring after [gid=] up to the next [&], [#] or [gid=],
    defaulting to [0] when absent. *)
Definition tab_id_to_next_gid (ref : string) : string :=
  match after "gid=" ref with
  | Some rest => upto amp_or_hash (before "gid=" rest)
  | None => "0"
  end.

(** The non-empty, whitespace-trimmed cell values of a row, in column
    order. *)
Definition present (row : list cell) : list string :=
  filter (fun v => negb (String.eqb v ""))
    (map strip
       (flat_map (fun c => match c with NaN => [] | Val s => [s] end) row)).

(** [s] contains the character [c]. *)
Definition has_char (c : ascii) (s : string) : Prop :=
  In c (list_ascii_of_string s).

(** [e] is the first element of [vs] with the property [P]. *)
Definition first_with (P : string -> Prop) (vs : list string) (e : string)
  : Prop :=
  exists i,
    nth_error vs i = Some e /\ P e /\
    forall j v, j < i -> nth_error vs j = Some v -> ~ P v.

(** [e] is the last element of [vs]. *)
Definition is_last (vs : list string) (e : string) : Prop :=
  exists front, vs = (front ++ [e])%list.

(** The outcome entry of a contact: the one or the other dictionary,
    with the contact's address. *)
Definition recorded (c : Contact) (r : Api.Outcome) : Prop :=
  r = Api.Sent (email c) (hr_name c) (company_name c) \/
  exists err, r = Api.NotSent (email c) err.

(** Whether [format] accepts [t] is the same under both sets of keyword
    arguments, in literal text and inside a field. *)
Definition same_fate (kw kw' : kwargs) (t : string) : Prop :=
  forall field, is_ok (format_go kw field t) = is_ok (format_go kw' field t).

(** Both credentials of the server are set. *)
Definition configured (env : Env) : Prop :=
  truthy (GMAIL_ADDRESS env) = true /\ truthy (GMAIL_APP_PASSWORD env) = true.


(** [time.sleep] accepts the pause of the batch tool, whenever it is
    asked for it. *)
Definition pauses_accepted (env : Env) (args : ColdMailer.Args) : Prop :=
  (0 <= ColdMailer.delay args)%Z /\
  forall t : trace, time_sleep env t (ColdMailer.delay args) = None.

(** A template all of whose placeholders are among [keys] and that
    [format] accepts. *)
Definition well_formed (template : string) (keys : list string) : bool :=
  is_ok (format template (map (fun k => (k, "")) keys)).

(** A template that [format] refuses for these keys with an error of its
    own making: a brace that is not matched, or a field that is not among
    [keys].  A template with a conversion, a format specification, an
    attribute or an index in a field is not judged. *)
Definition refused (template : string) (keys : list string) : bool :=
  match format template (map (fun k => (k, "")) keys) with
  | Ok _ => false
  | Raise (OutsideModel _) => false
  | Raise _ => true
  end.

(** The export endpoint for the document and tab of a reference. *)
Definition export_endpoint (ref : string) : string :=
  "https://docs.google.com/spreadsheets/d/" ++ document_id ref
    ++ "/export?format=csv&gid=" ++ tab_id_to_next_gid ref.

(** The templates of a batch request, or the defaults, are well formed
    for the keyword arguments that the batch operation passes. *)
Definition batch_templates_well_formed (request : Api.GoogleSheetRequest)
  : Prop :=
  well_formed (or_str (Api.sheet_subject request) Api.DEFAULT_SUBJECT)
    ["company_name"; "hr_name"] = true /\
  well_formed (or_str (Api.sheet_body request) Api.DEFAULT_BODY)
    ["company_name"; "hr_name"; "sender_email"] = true.


(** What the batch tool prints first. *)
Definition banner (env : Env) (args : ColdMailer.Args) : list event :=
  [Print ("Gmail Account: " ++ str_opt (GMAIL_ADDRESS env));
   Print ("Mode: " ++ (if ColdMailer.preview args then "PREVIEW" else "SEND"));
   Print ("Delay: " ++ str_int (ColdMailer.delay args)
            ++ " seconds between emails" ++ nl)].

(** The numbered contact list that the batch tool prints. *)
Fixpoint contact_lines (i : Z) (contacts : list Contact) : list event :=
  match contacts with
  | [] => []
  | contact :: rest =>
      Print ("  " ++ str_int i ++ ". " ++ hr_name contact ++ " ("
               ++ company_name contact ++ ") - " ++ email contact)
        :: contact_lines (i + 1) rest
  end.

(** What the batch tool prints between the extraction and the first
    send, when it is not asked to wait for a confirmation. *)
Definition announcement (args : ColdMailer.Args) (contacts : list Contact)
  : list event :=
  (Print ("Found " ++ str_int (Z.of_nat (List.length contacts))
            ++ " contact(s):" ++ nl)
     :: contact_lines 1 contacts
     ++ (if ColdMailer.preview args then []
         else [Print (nl ++ repeat_str "-" 40)])
     ++ [Print (nl ++ repeat_str "=" 40)])%list.

(** [s] contains [@], as a test. *)
Definition has_at (s : string) : bool :=
  existsb (Ascii.eqb "@") (list_ascii_of_string s).

(** The extraction algorithm for one row: with at least two present
    values and one that contains [@], the contact made of the first
    present value, the first one with [@] and the last one (or the
    placeholder when the last one is the email); nothing otherwise. *)
Definition extracted (row : list cell) : list Contact :=
  let vs := present row in
  match vs, find has_at vs with
  | organization :: _ :: _, Some e =>
      [{| email := e;
          hr_name := if String.eqb (List.last vs "") e then "Hiring Manager"
                     else List.last vs "";
          company_name := organization |}]
  | _, _ => []
  end.

(** A text that [strip] leaves as it is and that is not empty. *)
Definition trimmed (s : string) : Prop := strip s = s /\ s <> "".

(** What the batch tool prints between the extraction and its question. *)
Definition listing (contacts : list Contact) : list event :=
  (Print ("Found " ++ str_int (Z.of_nat (List.length contacts))
            ++ " contact(s):" ++ nl)
     :: contact_lines 1 contacts
     ++ [Print (nl ++ repeat_str "-" 40)])%list.

(** The question that the batch tool asks before it sends. *)
Definition question : string :=
  "Do you want to send emails to these contacts? (yes/no): ".

(** A computation that opens no SMTP session, from whatever trace. *)
Definition quiet {A} (m : M A) : Prop :=
  forall t, sessions (snd (m t)) = sessions t.

(** The message of a session carries the server's credentials. *)
Definition by_the_server (env : Env) (m : Message) : Prop :=
  login_user m = GMAIL_ADDRESS env /\
  login_password m = GMAIL_APP_PASSWORD env /\
  msg_From m = GMAIL_ADDRESS env.

(** A [SourceFetchError] carrying the status code: the exception holds
    the code as its status or shows it in its text. *)
Definition carries_status_code (e : exn) (code : Z) : bool :=
  match e with
  | HTTPException c d => (c =? code)%Z || str_in (str_int code) d
  | _ => str_in (str_int code) (str_exn e)
  end.

(** A success status of HTTP. *)
Definition success_status (code : Z) : bool :=
  (200 <=? code)%Z && (code <? 300)%Z.

End Spec.

(* ===================================================================== *)
(** * Sample worlds and requests *)
(* ===================================================================== *)

Module Examples.

(** A world with the given credentials, in which every fetch answers
    with [status] and the text [csv], pandas reads [df] from any text,
    every SMTP session ends as [outcome] says, the user types [yes] and
    every pause that is not negative is accepted. *)
Definition world (address password : option string) (status : Z)
  (df : DataFrame) (outcome : option exn) : Env :=
  {| GMAIL_ADDRESS := address;
     GMAIL_APP_PASSWORD := password;
     requests_get := fun _ _ => Ok {| status_code := status; text := "csv" |};
     smtp_session := fun _ _ => outcome;
     stdin := fun _ _ => "yes";
     read_csv := fun _ => Ok df;
     time_sleep := fun _ _ => None |}.

Definition sheet : DataFrame :=
  [[Val "Acme"; NaN; Val "jane@acme.com"; Val "Jane Doe"];
   [Val "Initech"; Val "hr@initech.com"]].

(** The contacts that the extractor takes from [sheet]. *)
Definition contacts : list Contact :=
  [{| email := "jane@acme.com"; hr_name := "Jane Doe"; company_name := "Acme" |};
   {| email := "hr@initech.com"; hr_name := "Hiring Manager";
      company_name := "Initech" |}].

Definition refused : option exn := Some (Exception "Connection refused").

Definition bad_login : option exn :=
  Some (SMTPAuthenticationError "(535, b'5.7.8 Username and Password not accepted')").

Definition sheet_request : Api.GoogleSheetRequest :=
  {| Api.sheet_url := "https://docs.google.com/spreadsheets/d/ABC123/edit?gid=456#gid=456";
     Api.sheet_subject := None;
     Api.sheet_body := None |}.

(** A single-message request that brings no sender address and no
    password. *)
Definition bare_request : Api.SingleEmailRequest :=
  {| Api.to_email := "jane@acme.com";
     Api.req_hr_name := "Jane Doe";
     Api.req_company_name := "Acme";
     Api.subject := None;
     Api.body := Some "Dear {hr_name}, from {sender_email}";
     Api.sender_email := None;
     Api.sender_password := None |}.

(** A request that brings its own address and leaves the password to the
    server. *)
Definition own_address_request : Api.SingleEmailRequest :=
  {| Api.to_email := "jane@acme.com";
     Api.req_hr_name := "Jane Doe";
     Api.req_company_name := "Acme";
     Api.subject := Some "Hello";
     Api.body := Some "Plain text";
     Api.sender_email := Some "caller@gmail.com";
     Api.sender_password := Some "" |}.


(** A batch request whose subject names a placeholder that the subject is
    not given. *)
Definition bad_subject_request : Api.GoogleSheetRequest :=
  {| Api.sheet_url := "ABC123";
     Api.sheet_subject := Some "From {sender_email}";
     Api.sheet_body := None |}.

Definition send_args : ColdMailer.Args :=
  {| ColdMailer.sheet_url := "ABC123";
     ColdMailer.preview := false;
     ColdMailer.delay := 30;
     ColdMailer.confirm := true |}.


End Examples.

(* ===================================================================== *)
(** * Text: occurrences, cutting and splitting *)
(* ===================================================================== *)

Section StringFacts.

Lemma append_nil_r (s : string) : s ++ "" = s.
Proof. induction s; simpl; congruence. Qed.

Lemma append_assoc (a b c : string) : (a ++ b) ++ c = a ++ (b ++ c).
Proof. induction a; simpl; congruence. Qed.

Lemma length_append (a b : string) :
  String.length (a ++ b) = String.length a + String.length b.
Proof. induction a; simpl; congruence. Qed.

Lemma substring_all (s : string) : substring 0 (String.length s) s = s.
Proof. induction s; simpl; congruence. Qed.

Lemma substring_prefix (a b : string) :
  substring 0 (String.length a) (a ++ b) = a.
Proof.
  induction a as [|c a IH]; simpl; [destruct b; reflexivity | congruence].
Qed.

Lemma substring_skip (a b : string) (n m : nat) :
  substring (String.length a + n) m (a ++ b) = substring n m b.
Proof. induction a; simpl; auto. Qed.

Lemma strip_prefix_app (p s r : string) :
  strip_prefix p s = Some r -> s = p ++ r.
Proof.
  revert s; induction p as [|a p IH]; intros [|b s]; simpl; try congruence.
  destruct (Ascii.eqb_spec a b); [|discriminate].
  intros H; apply IH in H; congruence.
Qed.

Lemma strip_prefix_prefix (p s : string) :
  String.prefix p s = match strip_prefix p s with Some _ => true | None => false end.
Proof.
  revert s; induction p as [|a p IH]; intros [|b s]; simpl; try reflexivity.
  destruct (ascii_dec a b) as [->|n].
  - rewrite Ascii.eqb_refl. apply IH.
  - destruct (Ascii.eqb_spec a b); [contradiction | reflexivity].
Qed.

(** [partition] finds the occurrence that [String.index] finds. *)
Lemma partition_index (sep s : string) :
  match partition sep s with
  | Some (b, a) =>
      String.index 0 sep s = Some (String.length b) /\ s = b ++ sep ++ a
  | None => String.index 0 sep s = None
  end.
Proof.
  induction s as [|c s IH].
  - destruct sep; simpl; auto.
  - cbn [partition String.index].
    rewrite strip_prefix_prefix.
    destruct (strip_prefix sep (String c s)) as [r|] eqn:E.
    + split; [reflexivity|]. apply strip_prefix_app in E. exact E.
    + destruct (partition sep s) as [[b a]|].
      * destruct IH as [-> ->]. split; reflexivity.
      * rewrite IH. reflexivity.
Qed.

Lemma after_partition (sep s : string) :
  Spec.after sep s =
  match partition sep s with Some (_, a) => Some a | None => None end.
Proof.
  unfold Spec.after.
  pose proof (partition_index sep s) as H.
  destruct (partition sep s) as [[b a]|].
  - destruct H as [-> E]. cbv zeta. f_equal. subst s.
    rewrite !length_append.
    replace (String.length b + (String.length sep + String.length a)
             - (String.length b + String.length sep))
      with (String.length a) by lia.
    rewrite <- (Nat.add_0_r (String.length sep)) at 1.
    rewrite Nat.add_assoc, <- Nat.add_assoc.
    rewrite substring_skip, substring_skip. apply substring_all.
  - rewrite H. reflexivity.
Qed.

Lemma before_partition (sep s : string) :
  Spec.before sep s = head_piece sep s.
Proof.
  unfold Spec.before, head_piece.
  pose proof (partition_index sep s) as H.
  destruct (partition sep s) as [[b a]|].
  - destruct H as [-> E]. subst s. apply substring_prefix.
  - rewrite H. reflexivity.
Qed.

Lemma split_at_cut (c : ascii) (sep' s : string) :
  split_at c sep' s =
  match partition (String c sep') s with
  | Some (b, a) => b :: split_at c sep' a
  | None => [s]
  end.
Proof.
  funelim (split_at c sep' s);
    match goal with e : partition _ _ = _ |- _ => rewrite e end;
    reflexivity.
Qed.

(** [s.split(sep)[0]] *)
Lemma split_at_first (c : ascii) (sep' s : string) :
  index (split_at c sep' s) 0 = Ok (head_piece (String c sep') s).
Proof.
  rewrite split_at_cut. unfold head_piece.
  destruct (partition (String c sep') s) as [[b a]|]; reflexivity.
Qed.

(** [s.split(sep)[1]] when [sep in s] *)
Lemma split_at_second (c : ascii) (sep' s b a : string) :
  partition (String c sep') s = Some (b, a) ->
  index (split_at c sep' s) 1 = Ok (head_piece (String c sep') a).
Proof.
  intros E. rewrite split_at_cut, E.
  change (index (b :: split_at c sep' a) 1) with (index (split_at c sep' a) 0).
  apply split_at_first.
Qed.

Lemma head_piece_char (c : ascii) (s : string) :
  head_piece (String c "") s = Spec.upto (Ascii.eqb c) s.
Proof.
  unfold head_piece.
  induction s as [|x s IH]; [reflexivity|].
  cbn. destruct (Ascii.eqb c x); [reflexivity|].
  destruct (partition (String c "") s) as [[b a]|]; cbn; congruence.
Qed.

(** Cutting at a separator that starts with [c] does not move the first
    [c]. *)
Lemma upto_head_piece (c : ascii) (sep' s : string) :
  Spec.upto (Ascii.eqb c) (head_piece (String c sep') s)
  = Spec.upto (Ascii.eqb c) s.
Proof.
  unfold head_piece.
  induction s as [|x s IH]; [reflexivity|].
  cbn [partition].
  destruct (strip_prefix (String c sep') (String x s)) as [r|] eqn:E.
  - cbn in E. cbn. destruct (Ascii.eqb c x); [reflexivity | discriminate].
  - destruct (partition (String c sep') s) as [[b a]|]; [|reflexivity].
    cbn. destruct (Ascii.eqb c x); [reflexivity|]. f_equal. exact IH.
Qed.

Lemma upto_upto (s : string) :
  Spec.upto (Ascii.eqb "&") (Spec.upto (Ascii.eqb "#") s)
  = Spec.upto Spec.amp_or_hash s.
Proof.
  unfold Spec.amp_or_hash.
  induction s as [|x s IH]; [reflexivity|].
  cbn [Spec.upto]. rewrite (Ascii.eqb_sym x "&"), (Ascii.eqb_sym x "#").
  destruct (Ascii.eqb "#" x); [rewrite orb_true_r; reflexivity|].
  cbn [Spec.upto]. destruct (Ascii.eqb "&" x); cbn [orb]; [reflexivity|].
  f_equal. exact IH.
Qed.

Lemma strip_prefix_upto (stop : ascii -> bool) (p s r : string) :
  (forall c, In c (list_ascii_of_string p) -> stop c = false) ->
  strip_prefix p s = Some r ->
  strip_prefix p (Spec.upto stop s) = Some (Spec.upto stop r).
Proof.
  revert s; induction p as [|a p IH]; intros s Hp.
  - destruct s; cbn; intros [= <-]; reflexivity.
  - destruct s as [|b s]; cbn [strip_prefix]; [discriminate|].
    destruct (Ascii.eqb_spec a b) as [<-|]; [|discriminate].
    intros H. cbn [Spec.upto].
    rewrite (Hp a) by (left; reflexivity).
    cbn [strip_prefix]. rewrite Ascii.eqb_refl.
    apply IH; [|exact H]. intros c Hc. apply Hp. right. exact Hc.
Qed.

(** A separator without stop characters that does not occur before the
    first stop character does not change what [upto] keeps. *)
Lemma upto_head_piece_absent (stop : ascii -> bool) (sep s : string) :
  (forall c, In c (list_ascii_of_string sep) -> stop c = false) ->
  str_in sep (Spec.upto stop s) = false ->
  Spec.upto stop (head_piece sep s) = Spec.upto stop s.
Proof.
  intros Hsep. unfold head_piece, str_in.
  induction s as [|x s IH]; intros H.
  - destruct (partition sep "") as [[b a]|] eqn:E; [|reflexivity].
    cbn in E. destruct (strip_prefix sep ""); [|discriminate].
    injection E as <- _. reflexivity.
  - cbn [partition].
    destruct (strip_prefix sep (String x s)) as [r|] eqn:E.
    + apply (strip_prefix_upto stop _ _ Hsep) in E.
      destruct (Spec.upto stop (String x s)) eqn:U.
      * destruct sep; cbn in E; [|discriminate]. cbn in H. discriminate.
      * cbn [partition] in H. rewrite E in H. discriminate.
    + cbn [Spec.upto] in H |- *.
      destruct (partition sep s) as [[b a]|] eqn:P; [|reflexivity].
      cbn [Spec.upto]. destruct (stop x); [reflexivity|]. f_equal.
      apply IH. cbn [partition] in H.
      destruct (strip_prefix sep (String x (Spec.upto stop s))); [discriminate|].
      destruct (partition sep (Spec.upto stop s)) as [[b' a']|];
        [discriminate | reflexivity].
Qed.

Lemma sheet_id_document_id (ref : string) :
  sheet_id ref = Ok (Spec.document_id ref).
Proof.
  unfold sheet_id, Spec.document_id, str_in.
  rewrite after_partition.
  destruct (partition "/d/" ref) as [[b a]|] eqn:E; [|reflexivity].
  cbn [split rbind].
  rewrite (split_at_second _ _ _ E). cbn [rbind].
  rewrite split_at_first. f_equal.
  rewrite head_piece_char. apply upto_head_piece.
Qed.

Lemma gid_tab_id (ref : string) :
  gid ref = Ok (Spec.tab_id_to_next_gid ref).
Proof.
  unfold gid, Spec.tab_id_to_next_gid, str_in.
  rewrite after_partition.
  destruct (partition "gid=" ref) as [[b a]|] eqn:E; [|reflexivity].
  cbn [split rbind].
  rewrite (split_at_second _ _ _ E). cbn [rbind].
  rewrite split_at_first. cbn [rbind].
  rewrite split_at_first. f_equal.
  rewrite !head_piece_char, upto_upto, before_partition. reflexivity.
Qed.

Lemma export_url_ok (ref : string) :
  export_url ref =
  Ok ("https://docs.google.com/spreadsheets/d/" ++ Spec.document_id ref
        ++ "/export?format=csv&gid=" ++ Spec.tab_id_to_next_gid ref).
Proof.
  unfold export_url. rewrite sheet_id_document_id, gid_tab_id. reflexivity.
Qed.

End StringFacts.

(* ===================================================================== *)
(** * The contact extractor *)
(* ===================================================================== *)

Section Extractor.

Lemma values_present (row : list cell) : values row = Spec.present row.
Proof.
  unfold Spec.present.
  induction row as [|[|s] row IH]; cbn [values flat_map]; [reflexivity|exact IH|].
  cbn [app map filter]. rewrite IH.
  destruct (strip s); reflexivity.
Qed.

Lemma values_nonempty (row : list cell) (v : string) :
  In v (values row) -> v <> "".
Proof.
  rewrite values_present. unfold Spec.present.
  intros H; apply filter_In in H. destruct H as [_ H].
  destruct v; [discriminate H | discriminate].
Qed.

Lemma str_in_char (c : ascii) (s : string) :
  str_in (String c "") s = true <-> Spec.has_char c s.
Proof.
  unfold str_in, Spec.has_char.
  induction s as [|x s IH]; cbn [partition strip_prefix list_ascii_of_string In].
  - split; [discriminate | contradiction].
  - destruct (Ascii.eqb_spec c x) as [->|n].
    + split; auto.
    + destruct (partition (String c "") s) as [[b a]|].
      * split; [intros _; right; apply IH; reflexivity | reflexivity].
      * split; [discriminate|]. intros [E|H]; [congruence|]. apply IH, H.
Qed.

Lemma find_email_none (vs : list string) :
  find_email vs = None <-> forall v, In v vs -> ~ Spec.has_char "@" v.
Proof.
  induction vs as [|v vs IH]; cbn [find_email In].
  - split; [intros _ v [] | reflexivity].
  - destruct (str_in "@" v) eqn:E.
    + split; [discriminate|]. intros H. exfalso.
      apply (H v); [left; reflexivity | apply str_in_char, E].
    + rewrite IH. split.
      * intros H w [<-|Hw]; [|apply H, Hw].
        intros Hc. apply str_in_char in Hc. congruence.
      * intros H w Hw. apply H. right. exact Hw.
Qed.

Lemma find_email_first (vs : list string) (e : string) :
  find_email vs = Some e -> Spec.first_with (Spec.has_char "@") vs e.
Proof.
  induction vs as [|v vs IH]; cbn [find_email]; [discriminate|].
  destruct (str_in "@" v) eqn:E.
  - intros [= <-]. exists 0. split; [reflexivity|]. split.
    + apply str_in_char, E.
    + intros j w Hj. lia.
  - intros H. destruct (IH H) as (i & Hi & He & Hlt).
    exists (S i). split; [exact Hi|]. split; [exact He|].
    intros [|j] w Hj Hw.
    + cbn in Hw. injection Hw as <-. intros Hc.
      apply str_in_char in Hc. congruence.
    + apply (Hlt j w); [lia | exact Hw].
Qed.

Lemma first_with_unique (P : string -> Prop) (vs : list string) (e e' : string) :
  Spec.first_with P vs e -> Spec.first_with P vs e' -> e = e'.
Proof.
  intros (i & Hi & Pi & Li) (j & Hj & Pj & Lj).
  destruct (Nat.lt_trichotomy i j) as [H|[H|H]].
  - exfalso. apply (Lj i e H Hi Pi).
  - subst j. congruence.
  - exfalso. apply (Li j e' H Hj Pj).
Qed.

Lemma last_value_app (front : list string) (e : string) :
  last_value (front ++ [e]) = Ok e.
Proof. unfold last_value. rewrite rev_app_distr. reflexivity. Qed.

Lemma last_value_is_last (vs : list string) (e : string) :
  last_value vs = Ok e -> Spec.is_last vs e.
Proof.
  unfold last_value, Spec.is_last.
  destruct (rev vs) as [|v r] eqn:E; [discriminate|].
  intros [= <-]. exists (rev r).
  rewrite <- (rev_involutive vs), E. reflexivity.
Qed.

Lemma has_two_last (vs : list string) :
  2 <= List.length vs -> exists front e, vs = (front ++ [e])%list.
Proof.
  intros H. destruct (exists_last (l := vs)) as (front & e & ->).
  - intros ->. cbn in H. lia.
  - eauto.
Qed.

(** What one row does to [contacts], by cases on the present values. *)
Lemma row_step_cases (contacts : list Contact) (row : list cell) :
  let vs := Spec.present row in
  if (2 <=? List.length vs)%nat then
    match find_email vs with
    | Some e =>
        exists company last,
          hd_error vs = Some company /\ Spec.is_last vs last /\
          row_step contacts row =
          Ok (contacts ++
                [{| email := e;
                    hr_name := if String.eqb last e then "Hiring Manager" else last;
                    company_name := company |}])%list
    | None => row_step contacts row = Ok contacts
    end
  else row_step contacts row = Ok contacts.
Proof.
  cbv zeta. unfold row_step. rewrite values_present.
  destruct (2 <=? List.length (Spec.present row))%nat eqn:L; [|reflexivity].
  apply Nat.leb_le in L.
  destruct (has_two_last _ L) as (front & last & E).
  pose proof (values_nonempty row) as NE. rewrite values_present in NE.
  destruct (Spec.present row) as [|v0 vs] eqn:P; [cbn in L; lia|].
  change (0 <? List.length (v0 :: vs))%nat with true.
  change (index (v0 :: vs) 0) with (Ok v0). cbn [rbind].
  rewrite E, last_value_app. cbn [rbind]. rewrite <- E.
  destruct (find_email (v0 :: vs)) as [e|] eqn:F; [|reflexivity].
  exists v0, last. split; [reflexivity|]. split; [exists front; exact E|].
  assert (In e (v0 :: vs)) as He.
  { apply find_email_first in F. destruct F as (i & Hi & _).
    eapply nth_error_In, Hi. }
  apply NE in He. destruct e; [congruence | reflexivity].
Qed.

End Extractor.

(* ===================================================================== *)
(** * Rendering *)
(* ===================================================================== *)

Section Rendering.

Lemma lookup_keys (kw kw' : kwargs) (k : string) :
  map fst kw = map fst kw' ->
  is_ok (field_value kw k) = is_ok (field_value kw' k).
Proof.
  unfold field_value. destruct (all_digits k); [reflexivity|].
  revert kw'; induction kw as [|[k1 v1] kw IH]; intros [|[k2 v2] kw'];
    cbn [map fst lookup]; try discriminate; [reflexivity|].
  intros [= <- E]. destruct (String.eqb k k1); [reflexivity|].
  apply IH, E.
Qed.

Lemma is_ok_rbind {A B} (a a' : result A) (k k' : A -> result B) (b : bool) :
  is_ok a = is_ok a' ->
  (forall x, is_ok (k x) = b) -> (forall x, is_ok (k' x) = b) ->
  is_ok (rbind a k) = is_ok (rbind a' k').
Proof.
  destruct a, a'; cbn; intros H Hk Hk'; try discriminate; congruence.
Qed.

Lemma same_fate_step (kw kw' : kwargs) (c : ascii) (t : string) :
  map fst kw = map fst kw' ->
  Spec.same_fate kw kw' t ->
  (forall d t', t = String d t' -> Spec.same_fate kw kw' t') ->
  Spec.same_fate kw kw' (String c t).
Proof.
  unfold Spec.same_fate.
  intros K Ht Ht' field. cbn [format_go].
  destruct field as [name|].
  - destruct (Ascii.eqb c "}").
    + pose proof (lookup_keys kw kw' name K) as Hf.
      pose proof (Ht None) as Hn.
      destruct (field_value kw name), (field_value kw' name);
        cbn in Hf |- *; try discriminate; [|reflexivity].
      destruct (format_go kw None t), (format_go kw' None t);
        cbn in Hn |- *; try discriminate; reflexivity.
    + destruct (Ascii.eqb c "{"); [reflexivity|].
      destruct (field_operator c); [reflexivity|]. apply Ht.
  - destruct (Ascii.eqb c "{").
    + destruct t as [|d t']; [apply Ht|].
      destruct (Ascii.eqb d "{"); [|apply Ht].
      apply is_ok_rbind with (b := true); [|reflexivity|reflexivity].
      apply (Ht' d t' eq_refl).
    + destruct (Ascii.eqb c "}").
      * destruct t as [|d t']; [reflexivity|].
        destruct (Ascii.eqb d "}"); [|reflexivity].
        apply is_ok_rbind with (b := true); [|reflexivity|reflexivity].
        apply (Ht' d t' eq_refl).
      * apply is_ok_rbind with (b := true); [|reflexivity|reflexivity].
        apply Ht.
Qed.

Lemma same_fate_all (kw kw' : kwargs) (t : string) :
  map fst kw = map fst kw' -> Spec.same_fate kw kw' t.
Proof.
  intros K. unfold Spec.same_fate.
  enough (Spec.same_fate kw kw' t /\
          forall d t', t = String d t' -> Spec.same_fate kw kw' t') as [H _]
    by exact H.
  induction t as [|c t [IH1 IH2]].
  - split; [|discriminate]. intros [[|]|]; reflexivity.
  - split.
    + apply same_fate_step; assumption.
    + intros d t' [= _ <-]. exact IH1.
Qed.

Lemma well_formed_renders (template : string) (kw : kwargs) :
  Spec.well_formed template (map fst kw) = true ->
  exists s, format template kw = Ok s.
Proof.
  unfold Spec.well_formed, format. intros H.
  rewrite (same_fate_all _ kw template) in H.
  - destruct (format_go kw None template) as [s|]; [eauto | discriminate].
  - rewrite map_map. cbn. rewrite map_id. reflexivity.
Qed.

Lemma or_str_well_formed (o : option string) (default : string)
  (keys : list string) :
  Spec.well_formed default keys = true ->
  (forall t, o = Some t -> t <> "" -> Spec.well_formed t keys = true) ->
  Spec.well_formed (or_str o default) keys = true.
Proof.
  intros Hd Ho. destruct o as [[|c t]|]; cbn [or_str]; auto.
  apply Ho; [reflexivity | discriminate].
Qed.

Lemma DEFAULT_SUBJECT_well_formed :
  Spec.well_formed Api.DEFAULT_SUBJECT ["company_name"; "hr_name"] = true.
Proof. vm_compute. reflexivity. Qed.

Lemma DEFAULT_BODY_well_formed :
  Spec.well_formed Api.DEFAULT_BODY ["company_name"; "hr_name"; "sender_email"]
  = true.
Proof. vm_compute. reflexivity. Qed.

Lemma EMAIL_SUBJECT_well_formed :
  Spec.well_formed ColdMailer.EMAIL_SUBJECT ["company_name"] = true.
Proof. vm_compute. reflexivity. Qed.

Lemma EMAIL_BODY_TEMPLATE_well_formed :
  Spec.well_formed ColdMailer.EMAIL_BODY_TEMPLATE
    ["hr_name"; "company_name"; "sender_email"] = true.
Proof. vm_compute. reflexivity. Qed.

End Rendering.

(* ===================================================================== *)
(** * The loader and the dispatcher *)
(* ===================================================================== *)

Section Dispatch.

Variable env : Env.

Lemma sessions_app (t t' : trace) :
  sessions (t ++ t')%list = (sessions t ++ sessions t')%list.
Proof.
  induction t as [|[] t IH]; cbn [sessions app]; try exact IH.
  - reflexivity.
  - rewrite IH. reflexivity.
Qed.

Lemma fetched_app (t t' : trace) :
  fetched (t ++ t')%list = (fetched t ++ fetched t')%list.
Proof.
  induction t as [|[] t IH]; cbn [fetched app]; try exact IH.
  - reflexivity.
  - rewrite IH. reflexivity.
Qed.

(** ** The loader *)

Lemma api_fetch_run (ref : string) (t : trace) :
  Api.fetch_google_sheet env ref t =
  (match requests_get env t (Spec.export_endpoint ref) with
   | Ok response =>
       if (status_code response =? 200)%Z then Ok (text response)
       else Raise (HTTPException 400 "Failed to fetch Google Sheet")
   | Raise e => Raise e
   end, (t ++ [HttpGet (Spec.export_endpoint ref)])%list).
Proof.
  unfold Api.fetch_google_sheet, bind, lift, get, raise, ret.
  rewrite export_url_ok. fold (Spec.export_endpoint ref).
  destruct (requests_get env t (Spec.export_endpoint ref)) as [r|e];
    [|reflexivity].
  destruct (status_code r =? 200)%Z; reflexivity.
Qed.

Lemma cli_fetch_run (ref : string) (t : trace) :
  ColdMailer.fetch_google_sheet env ref t =
  (match requests_get env (t ++ [Print "Fetching data from Google Sheet..."])%list
           (Spec.export_endpoint ref) with
   | Ok response =>
       if (status_code response =? 200)%Z then Ok (text response)
       else Raise (Exception ("Failed to fetch Google Sheet. Status code: "
                                ++ str_int (status_code response)))
   | Raise e => Raise e
   end,
   (t ++ [Print "Fetching data from Google Sheet...";
          HttpGet (Spec.export_endpoint ref)])%list).
Proof.
  unfold ColdMailer.fetch_google_sheet, bind, lift, get, raise, ret, print.
  rewrite export_url_ok. fold (Spec.export_endpoint ref).
  rewrite <- app_assoc. cbn [app].
  destruct (requests_get env _ (Spec.export_endpoint ref)) as [r|e];
    [|reflexivity].
  destruct (status_code r =? 200)%Z; reflexivity.
Qed.

(** ** One send *)

Lemma api_send_email_run (to_email subject body : string)
  (sender_email sender_password : option string) (t : trace) :
  truthy (or_else sender_email (GMAIL_ADDRESS env)) = true ->
  truthy (or_else sender_password (GMAIL_APP_PASSWORD env)) = true ->
  let m := {| login_user := or_else sender_email (GMAIL_ADDRESS env);
              login_password := or_else sender_password (GMAIL_APP_PASSWORD env);
              msg_From := or_else sender_email (GMAIL_ADDRESS env);
              msg_To := to_email;
              msg_Subject := subject;
              msg_body := body |} in
  Api.send_email env to_email subject body sender_email sender_password t =
  (match smtp_session env t m with
   | None => Ok true
   | Some e => Raise (Api.send_failure e)
   end, (t ++ [SmtpSession m])%list).
Proof.
  intros Ha Hp m. unfold Api.send_email. rewrite Ha, Hp. cbn [negb orb].
  unfold try_except, bind, smtp, ret, raise. fold m.
  destruct (smtp_session env t m); reflexivity.
Qed.

(** ** The loop of the service API *)

Hypothesis address_set : truthy (GMAIL_ADDRESS env) = true.
Hypothesis password_set : truthy (GMAIL_APP_PASSWORD env) = true.

Variable request : Api.GoogleSheetRequest.

Hypothesis subject_well_formed :
  Spec.well_formed (or_str (Api.sheet_subject request) Api.DEFAULT_SUBJECT)
    ["company_name"; "hr_name"] = true.
Hypothesis body_well_formed :
  Spec.well_formed (or_str (Api.sheet_body request) Api.DEFAULT_BODY)
    ["company_name"; "hr_name"; "sender_email"] = true.

Lemma api_send_loop_step (contact : Contact) (rest : list Contact)
  (results : list Api.Outcome) (t : trace) :
  exists m r,
    msg_To m = email contact /\
    (match smtp_session env t m with
     | None => r = Api.Sent (email contact) (hr_name contact) (company_name contact)
     | Some e => r = Api.NotSent (email contact) (str_exn (Api.send_failure e))
     end) /\
    Api.send_loop env request (contact :: rest) results t =
    Api.send_loop env request rest (results ++ [r])%list (t ++ [SmtpSession m])%list.
Proof.
  cbn [Api.send_loop]. unfold bind at 1. unfold lift at 1.
  destruct (well_formed_renders
              (or_str (Api.sheet_subject request) Api.DEFAULT_SUBJECT)
              [("company_name", company_name contact);
               ("hr_name", hr_name contact)] subject_well_formed)
    as [subject ->].
  unfold bind at 1. unfold lift at 1.
  destruct (well_formed_renders
              (or_str (Api.sheet_body request) Api.DEFAULT_BODY)
              [("company_name", company_name contact);
               ("hr_name", hr_name contact);
               ("sender_email", str_opt (GMAIL_ADDRESS env))] body_well_formed)
    as [body ->].
  unfold bind at 1. unfold try_except. unfold bind at 1.
  rewrite api_send_email_run by assumption. cbv zeta.
  match goal with |- context [smtp_session env t ?m0] => set (m := m0) end.
  destruct (smtp_session env t m) as [e|] eqn:E.
  - exists m, (Api.NotSent (email contact) (str_exn (Api.send_failure e))).
    rewrite E. repeat split.
  - exists m, (Api.Sent (email contact) (hr_name contact) (company_name contact)).
    rewrite E. repeat split.
Qed.

Lemma api_send_loop_spec (contacts : list Contact) :
  forall (results : list Api.Outcome) (t : trace),
  exists rs t',
    Api.send_loop env request contacts results t = (Ok (results ++ rs)%list, t') /\
    Forall2 Spec.recorded contacts rs /\
    map msg_To (sessions t') = (map msg_To (sessions t) ++ map email contacts)%list /\
    fetched t' = fetched t /\
    ((forall u m, smtp_session env u m <> None) ->
     Forall (fun r => Api.outcome_success r = false) rs) /\
    ((forall u m, smtp_session env u m = None) ->
     Forall (fun r => Api.outcome_success r = true) rs).
Proof.
  induction contacts as [|contact rest IH]; intros results t.
  - exists [], t. cbn [Api.send_loop]. rewrite !app_nil_r.
    repeat split; constructor.
  - destruct (api_send_loop_step contact rest results t) as (m & r & Hm & Hr & ->).
    destruct (IH (results ++ [r])%list (t ++ [SmtpSession m])%list)
      as (rs & t' & -> & HF & HS & HG & Hfail & Hok).
    exists (r :: rs), t'. rewrite <- app_assoc. split; [reflexivity|].
    split; [|split; [|split; [|split]]].
    + constructor; [|exact HF]. unfold Spec.recorded.
      destruct (smtp_session env t m); [right; eauto | left; exact Hr].
    + rewrite HS, sessions_app, map_app, <- app_assoc. cbn. rewrite Hm.
      reflexivity.
    + rewrite HG, fetched_app. cbn. apply app_nil_r.
    + intros Hall. constructor; [|apply Hfail, Hall].
      destruct (smtp_session env t m) eqn:E; [subst r; reflexivity|].
      exfalso. apply (Hall t m E).
    + intros Hall. constructor; [|apply Hok, Hall].
      rewrite (Hall t m) in Hr. subst r. reflexivity.
Qed.

End Dispatch.

Section BatchTool.

Variable env : Env.

(** The message of a real send and the lines of a preview hold the same
    rendered subject and body. *)
Lemma cli_send_email_run (to_email hr_name company_name : string) :
  exists subject body,
    format ColdMailer.EMAIL_SUBJECT [("company_name", company_name)]
    = Ok subject /\
    format ColdMailer.EMAIL_BODY_TEMPLATE
      [("hr_name", hr_name); ("company_name", company_name);
       ("sender_email", str_opt (GMAIL_ADDRESS env))] = Ok body /\
    forall t : trace,
    let m := {| login_user := GMAIL_ADDRESS env;
                login_password := GMAIL_APP_PASSWORD env;
                msg_From := GMAIL_ADDRESS env;
                msg_To := to_email;
                msg_Subject := subject;
                msg_body := body |} in
    ColdMailer.send_email env to_email hr_name company_name true t =
    (Ok true,
     (t ++ [Print (nl ++ repeat_str "=" 60);
            Print ("TO: " ++ to_email);
            Print ("SUBJECT: " ++ subject);
            Print (repeat_str "-" 60);
            Print body;
            Print (repeat_str "=" 60)])%list) /\
    ColdMailer.send_email env to_email hr_name company_name false t =
    (Ok (match smtp_session env t m with None => true | Some _ => false end),
     (t ++ [SmtpSession m;
            Print (match smtp_session env t m with
                   | None => "✓ Email sent to " ++ hr_name ++ " at "
                               ++ company_name ++ " (" ++ to_email ++ ")"
                   | Some e => "✗ Failed to send to " ++ to_email ++ ": "
                                 ++ str_exn e
                   end)])%list).
Proof.
  unfold ColdMailer.send_email.
  destruct (well_formed_renders ColdMailer.EMAIL_SUBJECT
              [("company_name", company_name)] EMAIL_SUBJECT_well_formed)
    as [subject ->].
  destruct (well_formed_renders ColdMailer.EMAIL_BODY_TEMPLATE
              [("hr_name", hr_name); ("company_name", company_name);
               ("sender_email", str_opt (GMAIL_ADDRESS env))]
              EMAIL_BODY_TEMPLATE_well_formed)
    as [body ->].
  exists subject, body. split; [reflexivity|]. split; [reflexivity|].
  intros t. cbv zeta. split.
  - unfold bind, lift, print, ret. rewrite <- !app_assoc. reflexivity.
  - unfold bind at 1. unfold lift at 1. unfold bind at 1. unfold lift at 1.
    unfold try_except, bind, smtp, print, ret.
    destruct (smtp_session env t _); rewrite <- !app_assoc; reflexivity.
Qed.

Variable args : ColdMailer.Args.

Lemma sleep_accepted (t : trace) :
  Spec.pauses_accepted env args ->
  sleep env (ColdMailer.delay args) t
  = (Ok tt, (t ++ [Sleep (ColdMailer.delay args)])%list).
Proof.
  intros [Hpos Hnone]. unfold sleep.
  destruct (Z.ltb_spec (ColdMailer.delay args) 0) as [Hneg|_]; [lia|].
  rewrite Hnone. reflexivity.
Qed.

Lemma cli_send_loop_spec (contacts : list Contact) :
  ColdMailer.preview args = true \/ Spec.pauses_accepted env args ->
  forall (i success_count fail_count : Z) (t : trace),
  exists s' f' t',
    ColdMailer.send_loop env args i contacts success_count fail_count t
    = (Ok (s', f'), t') /\
    (s' + f' = success_count + fail_count + Z.of_nat (List.length contacts))%Z /\
    (success_count <= s')%Z /\ (fail_count <= f')%Z /\
    map msg_To (sessions t') =
    (map msg_To (sessions t)
       ++ (if ColdMailer.preview args then [] else map email contacts))%list /\
    fetched t' = fetched t /\
    (ColdMailer.preview args = false ->
     (forall u m, smtp_session env u m <> None) ->
     s' = success_count /\
     f' = (fail_count + Z.of_nat (List.length contacts))%Z).
Proof.
  intros Hpause.
  induction contacts as [|contact rest IH]; intros i sc fc t.
  - exists sc, fc, t. cbn [ColdMailer.send_loop List.length map].
    unfold ret. rewrite Z.add_0_r.
    destruct (ColdMailer.preview args); rewrite app_nil_r;
      repeat split; try lia; intros; lia.
  - cbn [ColdMailer.send_loop].
    assert (exists w, sessions w = [] /\ fetched w = [] /\
              (if (0 <? i)%Z && negb (ColdMailer.preview args)
               then bind (print ("Waiting " ++ str_int (ColdMailer.delay args)
                                   ++ " seconds..."))
                      (fun _ => sleep env (ColdMailer.delay args))
               else ret tt) t = (Ok tt, (t ++ w)%list)) as (w & Hw & Hg & Ewait).
    { destruct Hpause as [Hprev|Hacc].
      - rewrite Hprev, andb_false_r. exists []. unfold ret.
        rewrite app_nil_r. repeat split.
      - destruct ((0 <? i)%Z && negb (ColdMailer.preview args)).
        + exists [Print ("Waiting " ++ str_int (ColdMailer.delay args)
                           ++ " seconds...");
                  Sleep (ColdMailer.delay args)].
          unfold bind, print. rewrite (sleep_accepted _ Hacc), <- app_assoc.
          repeat split.
        + exists []. unfold ret. rewrite app_nil_r. repeat split. }
    unfold bind at 1. rewrite Ewait. unfold bind at 1.
    destruct (cli_send_email_run (email contact) (hr_name contact)
                (company_name contact))
      as (subject & body & _ & _ & Hrun).
    destruct (Hrun (t ++ w)%list) as [Hprev Hsend]. clear Hrun.
    cbv zeta in Hsend.
    match type of Hsend with
      context [smtp_session env _ ?m0] => set (m := m0) in Hsend
    end.
    destruct (ColdMailer.preview args) eqn:P.
    + rewrite Hprev.
      match goal with
        |- context [ColdMailer.send_loop env args ?i' rest ?a ?b ?u] =>
          destruct (IH i' a b u) as (s' & f' & t' & -> & Hsum & Hs & Hf & HS & HG & _)
      end.
      exists s', f', t'. split; [reflexivity|].
      cbn [List.length]. rewrite Nat2Z.inj_succ.
      split; [lia|]. split; [lia|]. split; [lia|]. split; [|split].
      * rewrite HS, !sessions_app, Hw. cbn. rewrite !app_nil_r. reflexivity.
      * rewrite HG, !fetched_app, Hg. cbn. rewrite !app_nil_r. reflexivity.
      * discriminate.
    + rewrite Hsend.
      destruct (smtp_session env (t ++ w)%list m) as [e|] eqn:E.
      * match goal with
          |- context [ColdMailer.send_loop env args ?i' rest ?a ?b ?u] =>
            destruct (IH i' a b u)
              as (s' & f' & t' & -> & Hsum & Hs & Hf & HS & HG & Hall)
        end.
        exists s', f', t'. split; [reflexivity|].
        cbn [List.length]. rewrite Nat2Z.inj_succ.
        split; [lia|]. split; [lia|]. split; [lia|]. split; [|split].
        -- rewrite HS, !sessions_app, Hw. cbn [sessions app map].
           rewrite ?app_nil_r, ?map_app, <- ?app_assoc. reflexivity.
        -- rewrite HG, !fetched_app, Hg. cbn. rewrite !app_nil_r. reflexivity.
        -- intros _ Hnone. destruct (Hall eq_refl Hnone). split; lia.
      * match goal with
          |- context [ColdMailer.send_loop env args ?i' rest ?a ?b ?u] =>
            destruct (IH i' a b u)
              as (s' & f' & t' & -> & Hsum & Hs & Hf & HS & HG & Hall)
        end.
        exists s', f', t'. split; [reflexivity|].
        cbn [List.length]. rewrite Nat2Z.inj_succ.
        split; [lia|]. split; [lia|]. split; [lia|]. split; [|split].
        -- rewrite HS, !sessions_app, Hw. cbn [sessions app map].
           rewrite ?app_nil_r, ?map_app, <- ?app_assoc. reflexivity.
        -- rewrite HG, !fetched_app, Hg. cbn. rewrite !app_nil_r. reflexivity.
        -- intros _ Hnone. exfalso. apply (Hnone _ _ E).
Qed.

(** The pause before a contact either goes through or raises; it opens
    no session and fetches nothing. *)
Lemma cli_pause_cases (i : Z) (t : trace) :
  exists w,
    sessions w = [] /\ fetched w = [] /\
    ((if (0 <? i)%Z && negb (ColdMailer.preview args)
      then bind (print ("Waiting " ++ str_int (ColdMailer.delay args)
                          ++ " seconds..."))
             (fun _ => sleep env (ColdMailer.delay args))
      else ret tt) t = (Ok tt, (t ++ w)%list)
     \/
     exists e,
       (if (0 <? i)%Z && negb (ColdMailer.preview args)
        then bind (print ("Waiting " ++ str_int (ColdMailer.delay args)
                            ++ " seconds..."))
               (fun _ => sleep env (ColdMailer.delay args))
        else ret tt) t = (Raise e, (t ++ w)%list)).
Proof.
  destruct ((0 <? i)%Z && negb (ColdMailer.preview args)).
  - unfold bind, print, sleep.
    destruct (ColdMailer.delay args <? 0)%Z.
    + exists [Print ("Waiting " ++ str_int (ColdMailer.delay args)
                       ++ " seconds...")].
      split; [reflexivity|]. split; [reflexivity|]. right. eexists. reflexivity.
    + destruct (time_sleep env _ (ColdMailer.delay args)) as [e|].
      * exists [Print ("Waiting " ++ str_int (ColdMailer.delay args)
                         ++ " seconds...")].
        split; [reflexivity|]. split; [reflexivity|]. right. eexists.
        reflexivity.
      * exists [Print ("Waiting " ++ str_int (ColdMailer.delay args)
                         ++ " seconds...");
                Sleep (ColdMailer.delay args)].
        split; [reflexivity|]. split; [reflexivity|]. left.
        rewrite <- app_assoc. reflexivity.
  - exists []. split; [reflexivity|]. split; [reflexivity|]. left.
    unfold ret. rewrite app_nil_r. reflexivity.
Qed.

(** Whatever the pauses do, counters that the loop returns add up, and
    every contact has had its session. *)
Lemma cli_send_loop_returned (contacts : list Contact) :
  forall (i success_count fail_count s' f' : Z) (t t' : trace),
    ColdMailer.send_loop env args i contacts success_count fail_count t
    = (Ok (s', f'), t') ->
    (s' + f' = success_count + fail_count + Z.of_nat (List.length contacts))%Z /\
    (success_count <= s')%Z /\ (fail_count <= f')%Z /\
    map msg_To (sessions t') =
    (map msg_To (sessions t)
       ++ (if ColdMailer.preview args then [] else map email contacts))%list.
Proof.
  induction contacts as [|contact rest IH]; intros i sc fc s' f' t t' H.
  - cbn [ColdMailer.send_loop] in H. unfold ret in H.
    injection H as <- <- <-. cbn [List.length map]. rewrite Z.add_0_r.
    destruct (ColdMailer.preview args); rewrite app_nil_r;
      split; try lia; split; try lia; split; try lia; reflexivity.
  - cbn [ColdMailer.send_loop] in H.
    destruct (cli_pause_cases i t) as (w & Hw & _ & [E | [e E]]);
      unfold bind at 1 in H; rewrite E in H; [|discriminate].
    unfold bind at 1 in H.
    destruct (cli_send_email_run (email contact) (hr_name contact)
                (company_name contact))
      as (subject & body & _ & _ & Hrun).
    destruct (Hrun (t ++ w)%list) as [Hprev Hsend]. clear Hrun.
    cbv zeta in Hsend.
    match type of Hsend with
      context [smtp_session env _ ?m0] => set (m := m0) in Hsend
    end.
    cbn [List.length]. rewrite Nat2Z.inj_succ.
    destruct (ColdMailer.preview args) eqn:P.
    + rewrite Hprev in H. apply IH in H. destruct H as (Hsum & Hs & Hf & HS).
      split; [lia|]. split; [lia|]. split; [lia|].
      rewrite HS, !sessions_app, Hw. cbn. rewrite !app_nil_r. reflexivity.
    + rewrite Hsend in H.
      destruct (smtp_session env (t ++ w)%list m) as [e|];
        apply IH in H; destruct H as (Hsum & Hs & Hf & HS);
        (split; [lia|]); (split; [lia|]); (split; [lia|]);
        rewrite HS, !sessions_app, Hw; cbn [sessions app map];
        rewrite ?app_nil_r, ?map_app, <- ?app_assoc; reflexivity.
Qed.

Lemma sessions_announcement (contacts : list Contact) :
  sessions (Spec.announcement args contacts) = [].
Proof.
  unfold Spec.announcement. cbn [sessions]. rewrite !sessions_app.
  assert (forall i, sessions (Spec.contact_lines i contacts) = []) as ->.
  { induction contacts as [|c rest IH]; intros i; cbn; auto. }
  destruct (ColdMailer.preview args); reflexivity.
Qed.

Lemma print_contacts_run (contacts : list Contact) :
  forall (i : Z) (t : trace),
    ColdMailer.print_contacts i contacts t
    = (Ok tt, (t ++ Spec.contact_lines i contacts)%list).
Proof.
  induction contacts as [|c rest IH]; intros i t;
    cbn [ColdMailer.print_contacts Spec.contact_lines].
  - unfold ret. rewrite app_nil_r. reflexivity.
  - unfold bind, print. rewrite IH, <- app_assoc. reflexivity.
Qed.

(** [main] from the first send on, when no confirmation is awaited. *)
Lemma cli_main_run (t t1 : trace) (csv : string) (contacts : list Contact) :
  Spec.configured env ->
  ColdMailer.fetch_google_sheet env (ColdMailer.sheet_url args)
    (t ++ Spec.banner env args)%list = (Ok csv, t1) ->
  ColdMailer.parse_contacts env csv = Ok contacts ->
  contacts <> [] ->
  ColdMailer.preview args = true \/ ColdMailer.confirm args = true ->
  ColdMailer.main env args t =
  match ColdMailer.send_loop env args 0 contacts 0 0
          (t1 ++ Spec.announcement args contacts)%list with
  | (Ok counts, t2) =>
      (Ok tt,
       (t2 ++ [Print (nl ++ repeat_str "=" 40);
               Print (ColdMailer.summary_line (fst counts) (snd counts))])%list)
  | (Raise e, t2) => (Raise e, t2)
  end.
Proof.
  intros [Ha Hp] Hfetch Hparse Hne Hgo.
  unfold ColdMailer.main. rewrite Ha, Hp. cbn [negb orb].
  unfold bind at 1. unfold print at 1.
  unfold bind at 1. unfold print at 1.
  unfold bind at 1. unfold print at 1.
  unfold bind at 1. unfold try_except at 1. unfold bind at 1.
  rewrite <- !app_assoc. cbn [app]. fold (Spec.banner env args).
  rewrite Hfetch. unfold bind at 1. unfold lift at 1. rewrite Hparse.
  unfold ret at 1.
  destruct contacts as [|c cs]; [congruence|].
  unfold bind at 1. unfold print at 1.
  unfold bind at 1. rewrite print_contacts_run.
  unfold bind at 1.
  assert ((if negb (ColdMailer.preview args)
           then
             bind (print (nl ++ repeat_str "-" 40))
               (fun _ =>
                  if negb (ColdMailer.confirm args)
                  then
                    bind (input env "Do you want to send emails to these contacts? (yes/no): ")
                      (fun answer =>
                         if negb (String.eqb (lower answer) "yes")
                         then bind (print "Cancelled.") (fun _ => ret false)
                         else ret true)
                  else ret true)
           else ret true)
            ((t1 ++ [Print ("Found " ++ str_int (Z.of_nat (List.length (c :: cs)))
                              ++ " contact(s):" ++ nl)])
               ++ Spec.contact_lines 1 (c :: cs))%list
          = (Ok true,
             (((t1 ++ [Print ("Found " ++ str_int (Z.of_nat (List.length (c :: cs)))
                                ++ " contact(s):" ++ nl)])
                 ++ Spec.contact_lines 1 (c :: cs))
                ++ (if ColdMailer.preview args then []
                    else [Print (nl ++ repeat_str "-" 40)]))%list)) as ->.
  { destruct (ColdMailer.preview args) eqn:P; cbn [negb].
    - unfold ret. rewrite app_nil_r. reflexivity.
    - destruct Hgo as [Hgo|Hgo]; [discriminate|]. rewrite Hgo. cbn [negb].
      unfold bind, print, ret. reflexivity. }
  unfold bind at 1. unfold print at 1.
  unfold bind at 1.
  replace ((((t1 ++ [Print ("Found " ++ str_int (Z.of_nat (List.length (c :: cs)))
                               ++ " contact(s):" ++ nl)])
               ++ Spec.contact_lines 1 (c :: cs))
              ++ (if ColdMailer.preview args then []
                  else [Print (nl ++ repeat_str "-" 40)]))
             ++ [Print (nl ++ repeat_str "=" 40)])%list
    with (t1 ++ Spec.announcement args (c :: cs))%list
    by (unfold Spec.announcement; rewrite <- !app_assoc; reflexivity).
  destruct (ColdMailer.send_loop env args 0 (c :: cs) 0 0
              (t1 ++ Spec.announcement args (c :: cs))%list) as [[counts|e] t2];
    [|reflexivity].
  unfold bind, print. rewrite <- app_assoc. reflexivity.
Qed.

End BatchTool.

Section ServiceApi.

Variable env : Env.

Lemma count_success_bounds (rs : list Api.Outcome) :
  (0 <= Api.count_success rs <= Z.of_nat (List.length rs))%Z.
Proof.
  induction rs as [|r rs IH]; cbn [Api.count_success List.length]; [lia|].
  rewrite Nat2Z.inj_succ. destruct (Api.outcome_success r); lia.
Qed.


Lemma recorded_emails (contacts : list Contact) (rs : list Api.Outcome) :
  Forall2 Spec.recorded contacts rs ->
  map Api.outcome_email rs = map email contacts.
Proof.
  induction 1 as [|c r cs rs Hr _ IH]; cbn [map]; [reflexivity|].
  rewrite IH. destruct Hr as [->|[err ->]]; reflexivity.
Qed.

(** The [try] statement of the loop always leaves one more entry. *)
Lemma api_attempt_recorded (contact : Contact) (subject body : string)
  (results : list Api.Outcome) (t : trace) :
  exists r t1,
    try_except
      (bind (Api.send_email env (email contact) subject body None None)
         (fun _ => ret (results ++ [Api.Sent (email contact) (hr_name contact)
                                      (company_name contact)])%list))
      (fun e => ret (results ++ [Api.NotSent (email contact) (str_exn e)])%list) t
    = (Ok (results ++ [r])%list, t1) /\
    Spec.recorded contact r.
Proof.
  unfold try_except, bind, ret.
  destruct (Api.send_email env (email contact) subject body None None t)
    as [[b|e] t1].
  - eexists _, t1. split; [reflexivity|]. left. reflexivity.
  - eexists _, t1. split; [reflexivity|]. right. eauto.
Qed.

(** Whatever the loop returns holds one entry per contact, in order. *)
Lemma api_send_loop_returns (request : Api.GoogleSheetRequest)
  (contacts : list Contact) :
  forall (results out : list Api.Outcome) (t t' : trace),
    Api.send_loop env request contacts results t = (Ok out, t') ->
    exists rs, out = (results ++ rs)%list /\ Forall2 Spec.recorded contacts rs.
Proof.
  induction contacts as [|contact rest IH]; intros results out t t'.
  - cbn [Api.send_loop]. unfold ret. intros [= <- _].
    exists []. rewrite app_nil_r. split; [reflexivity | constructor].
  - cbn [Api.send_loop]. unfold bind at 1. unfold lift at 1.
    destruct (format _ _) as [subject|]; [|discriminate].
    unfold bind at 1. unfold lift at 1.
    destruct (format _ _) as [body|]; [|discriminate].
    unfold bind at 1.
    destruct (api_attempt_recorded contact subject body results t)
      as (r & t1 & -> & Hr).
    intros H. apply IH in H. destruct H as (rs & -> & HF).
    exists (r :: rs). rewrite <- app_assoc. split; [reflexivity|].
    constructor; assumption.
Qed.

(** [send_from_google_sheet] once the sheet is fetched and parsed. *)
Lemma api_batch_run (request : Api.GoogleSheetRequest) (t t1 : trace)
  (csv : string) (contacts : list Contact) :
  Spec.configured env ->
  Api.fetch_google_sheet env (Api.sheet_url request) t = (Ok csv, t1) ->
  Api.parse_contacts env csv = Ok contacts ->
  contacts <> [] ->
  Api.send_from_google_sheet env request t =
  match Api.send_loop env request contacts [] t1 with
  | (Ok rs, t2) =>
      (Ok {| Api.total := Z.of_nat (List.length contacts);
             Api.succeeded := Api.count_success rs;
             Api.failed := Z.of_nat (List.length contacts) - Api.count_success rs;
             Api.results := rs |}, t2)
  | (Raise e, t2) => (Raise e, t2)
  end.
Proof.
  intros [Ha Hp] Hfetch Hparse Hne.
  unfold Api.send_from_google_sheet. rewrite Ha, Hp. cbn [negb orb].
  unfold bind at 1. rewrite Hfetch.
  unfold bind at 1. unfold lift at 1. rewrite Hparse.
  destruct contacts as [|c cs]; [congruence|].
  unfold bind, ret.
  destruct (Api.send_loop env request (c :: cs) [] t1) as [[rs|e] t2];
    reflexivity.
Qed.

(** The converse: what [send_from_google_sheet] went through when it
    returns. *)
Lemma api_batch_returned (request : Api.GoogleSheetRequest) (t t2 : trace)
  (summary : Api.Summary) :
  Api.send_from_google_sheet env request t = (Ok summary, t2) ->
  exists csv t1 contacts,
    Spec.configured env /\
    Api.fetch_google_sheet env (Api.sheet_url request) t = (Ok csv, t1) /\
    Api.parse_contacts env csv = Ok contacts /\
    contacts <> [] /\
    Api.send_loop env request contacts [] t1 = (Ok (Api.results summary), t2) /\
    Api.total summary = Z.of_nat (List.length contacts) /\
    Api.succeeded summary = Api.count_success (Api.results summary) /\
    Api.failed summary = (Api.total summary - Api.succeeded summary)%Z.
Proof.
  unfold Api.send_from_google_sheet.
  destruct (truthy (GMAIL_ADDRESS env)) eqn:Ha;
    destruct (truthy (GMAIL_APP_PASSWORD env)) eqn:Hp;
    cbn [negb orb]; try (unfold raise; discriminate).
  unfold bind at 1.
  destruct (Api.fetch_google_sheet env (Api.sheet_url request) t)
    as [[csv|e] t1]; [|discriminate].
  unfold bind at 1. unfold lift at 1.
  destruct (Api.parse_contacts env csv) as [contacts|e] eqn:Hparse;
    [|discriminate].
  destruct contacts as [|c cs]; [unfold raise; cbv beta; discriminate|].
  unfold bind, ret.
  destruct (Api.send_loop env request (c :: cs) [] t1) as [[rs|e] t'] eqn:Hloop;
    [|discriminate].
  intros [= <- <-]. exists csv, t1, (c :: cs).
  split; [split; assumption|]. split; [reflexivity|]. split; [exact Hparse|].
  split; [discriminate|]. split; [exact Hloop|].
  repeat (split; [reflexivity|]). reflexivity.
Qed.

End ServiceApi.

Section SingleMessage.

Variable env : Env.

Lemma or_else_truthy (a b : option string) :
  truthy a = true -> or_else a b = a.
Proof. unfold or_else. intros ->. reflexivity. Qed.


Lemma or_str_falsy (a : option string) (b : string) :
  truthy a = false -> or_str a b = b.
Proof. destruct a as [[|c s]|]; cbn; congruence. Qed.

Lemma strip_prefix_self (s r : string) : strip_prefix s (s ++ r) = Some r.
Proof.
  induction s as [|c s IH]; cbn; [destruct r; reflexivity|].
  rewrite Ascii.eqb_refl. exact IH.
Qed.

Lemma str_in_suffix (p s : string) : str_in s (p ++ s) = true.
Proof.
  unfold str_in. induction p as [|c p IH]; cbn [append partition].
  - assert (partition s s = Some ("", "")) as ->; [|reflexivity].
    pose proof (strip_prefix_self s "") as E. rewrite append_nil_r in E.
    destruct s; cbn [partition]; rewrite E; reflexivity.
  - destruct (strip_prefix s (String c (p ++ s))); [reflexivity|].
    destruct (partition s (p ++ s)) as [[b a]|]; [reflexivity | discriminate].
Qed.

(** [preview_email] renders and touches nothing. *)
Lemma api_preview_run (request : Api.SingleEmailRequest) (t : trace) :
  Api.preview_email env request t =
  (subject <-? format (or_str (Api.subject request) Api.DEFAULT_SUBJECT)
                 [("company_name", Api.req_company_name request);
                  ("hr_name", Api.req_hr_name request)] ;;
   body <-? format (or_str (Api.body request) Api.DEFAULT_BODY)
              [("company_name", Api.req_company_name request);
               ("hr_name", Api.req_hr_name request);
               ("sender_email",
                or_str (or_else (Api.sender_email request) (GMAIL_ADDRESS env))
                  "your.email@gmail.com")] ;;
   Ok {| Api.preview_to_email := Api.to_email request;
         Api.preview_subject := subject;
         Api.preview_body := body |}, t).
Proof.
  unfold Api.preview_email, bind, lift, ret.
  destruct (format _ _) as [subject|]; [|reflexivity]. cbn [rbind].
  destruct (format _ _) as [body|]; reflexivity.
Qed.

(** [send_single_email] once the credentials are there and the
    templates are rendered. *)
Lemma api_send_single_run (request : Api.SingleEmailRequest) (t : trace)
  (subject body : string) :
  let sender := or_else (Api.sender_email request) (GMAIL_ADDRESS env) in
  let password := or_else (Api.sender_password request) (GMAIL_APP_PASSWORD env) in
  truthy sender = true ->
  truthy password = true ->
  format (or_str (Api.subject request) Api.DEFAULT_SUBJECT)
    [("company_name", Api.req_company_name request);
     ("hr_name", Api.req_hr_name request)] = Ok subject ->
  format (or_str (Api.body request) Api.DEFAULT_BODY)
    [("company_name", Api.req_company_name request);
     ("hr_name", Api.req_hr_name request);
     ("sender_email", str_opt sender)] = Ok body ->
  let m := {| login_user := sender;
              login_password := password;
              msg_From := sender;
              msg_To := Api.to_email request;
              msg_Subject := subject;
              msg_body := body |} in
  Api.send_single_email env request t =
  (match smtp_session env t m with
   | None => Ok {| Api.success := true;
                   Api.message := "Email sent to " ++ Api.req_hr_name request
                                    ++ " at " ++ Api.req_company_name request;
                   Api.result_email := Api.to_email request |}
   | Some e => Raise (Api.send_failure e)
   end, (t ++ [SmtpSession m])%list).
Proof.
  intros sender password Hs Hp Hsubject Hbody m.
  unfold Api.send_single_email. fold sender password.
  rewrite Hs, Hp. cbn [negb orb].
  unfold bind at 1. unfold lift at 1. rewrite Hsubject.
  unfold bind at 1. unfold lift at 1. rewrite Hbody.
  unfold bind at 1.
  rewrite api_send_email_run by (rewrite or_else_truthy; assumption).
  cbv zeta. rewrite !(@or_else_truthy sender _ Hs), !(@or_else_truthy password _ Hp).
  fold m.
  unfold ret. destruct (smtp_session env t m); reflexivity.
Qed.


End SingleMessage.


Lemma refused_ill_formed (template : string) (keys : list string) :
  Spec.refused template keys = true -> Spec.well_formed template keys = false.
Proof.
  unfold Spec.refused, Spec.well_formed.
  destruct (format template _); [discriminate | reflexivity].
Qed.

(* ===================================================================== *)
(** * Properties of the extractor and of the reference parser *)
(* ===================================================================== *)





(** C3.  A row with fewer than two present values, or with at least two
    of which none contains [@], leaves the contacts as they are, and the
    loop over the rows goes on with them. *)
Theorem extractor_skips_row (contacts : list Contact) (row : list cell) :
  List.length (Spec.present row) < 2 \/
  (2 <= List.length (Spec.present row) /\
   forall v, In v (Spec.present row) -> ~ Spec.has_char "@" v) ->
  row_step contacts row = Ok contacts /\
  forall df, iterrows contacts (row :: df) = iterrows contacts df.
Proof.
  intros H.
  assert (row_step contacts row = Ok contacts) as Hstep.
  { pose proof (row_step_cases contacts row) as C. cbv zeta in C.
    destruct H as [H|[H N]].
    - apply Nat.leb_gt in H. rewrite H in C. exact C.
    - apply Nat.leb_le in H. rewrite H in C.
      apply find_email_none in N. rewrite N in C. exact C. }
  split; [exact Hstep|].
  intros df. cbn [iterrows]. rewrite Hstep. reflexivity.
Qed.

Lemma extractor_skips_row_witness :
  row_step [] [Val "Acme"; NaN; Val "  "] = Ok [] /\
  row_step [] [Val "Acme"; Val "Jane Doe"; Val "Pune"] = Ok [].
Proof.
  split.
  - apply (extractor_skips_row [] [Val "Acme"; NaN; Val "  "]).
    left. vm_compute. lia.
  - apply (extractor_skips_row [] [Val "Acme"; Val "Jane Doe"; Val "Pune"]).
    right. split; [vm_compute; lia|].
    apply (proj1 (find_email_none _)). vm_compute. reflexivity.
Defined.

(** C4 (amended).  The document id is the text between the first [/d/]
    and the next [/], or the whole reference when [/d/] does not occur.
    The tab id is the text after the first [gid=] up to the next [&], [#]
    or [gid=], or [0] when [gid=] does not occur; it is the text up to the
    next [&] or [#] whenever that text holds no further [gid=].  The
    reference [.../d/ABC123/edit?gid=456#gid=456] gives [ABC123] and
    [456]. *)
Theorem sheet_reference_ids (ref : string) :
  sheet_id ref = Ok (Spec.document_id ref) /\
  gid ref = Ok (Spec.tab_id_to_next_gid ref) /\
  (forall rest,
      Spec.after "gid=" ref = Some rest ->
      str_in "gid=" (Spec.upto Spec.amp_or_hash rest) = false ->
      gid ref = Ok (Spec.tab_id ref)) /\
  (Spec.after "gid=" ref = None -> gid ref = Ok "0") /\
  (Spec.after "/d/" ref = None -> sheet_id ref = Ok ref) /\
  sheet_id ".../d/ABC123/edit?gid=456#gid=456" = Ok "ABC123" /\
  gid ".../d/ABC123/edit?gid=456#gid=456" = Ok "456".
Proof.
  split; [apply sheet_id_document_id|].
  split; [apply gid_tab_id|].
  split; [|split; [|split; [|split; vm_compute; reflexivity]]].
  - intros rest E H. rewrite gid_tab_id.
    unfold Spec.tab_id_to_next_gid, Spec.tab_id. rewrite E. f_equal.
    rewrite before_partition. apply upto_head_piece_absent; [|exact H].
    intros c Hc. cbn in Hc.
    repeat (destruct Hc as [<-|Hc]; [reflexivity|]). contradiction.
  - intros E. rewrite gid_tab_id. unfold Spec.tab_id_to_next_gid.
    rewrite E. reflexivity.
  - intros E. rewrite sheet_id_document_id. unfold Spec.document_id.
    rewrite E. reflexivity.
Qed.

Lemma sheet_reference_ids_witness :
  gid "https://docs.google.com/spreadsheets/d/ABC123/edit?usp=sharing&gid=42&range=A1"
  = Ok (Spec.tab_id
          "https://docs.google.com/spreadsheets/d/ABC123/edit?usp=sharing&gid=42&range=A1")
  /\ gid "ABC123" = Ok "0"
  /\ sheet_id "ABC123" = Ok "ABC123".
Proof.
  split; [|split].
  - apply (proj1 (proj2 (proj2 (sheet_reference_ids
             "https://docs.google.com/spreadsheets/d/ABC123/edit?usp=sharing&gid=42&range=A1")))
             "42&range=A1");
      vm_compute; reflexivity.
  - apply (proj1 (proj2 (proj2 (proj2 (sheet_reference_ids "ABC123"))))).
    vm_compute. reflexivity.
  - apply (proj1 (proj2 (proj2 (proj2 (proj2 (sheet_reference_ids "ABC123")))))).
    vm_compute. reflexivity.
Defined.

(** C4 as first stated fails: a second [gid=] before any [&] or [#] ends
    the tab id that the loader takes. *)
Lemma tab_id_stops_at_next_gid :
  gid "https://docs.google.com/spreadsheets/d/ABC123/edit?gid=1gid=2" = Ok "1" /\
  Spec.tab_id "https://docs.google.com/spreadsheets/d/ABC123/edit?gid=1gid=2"
  = "1gid=2" /\
  gid "https://docs.google.com/spreadsheets/d/ABC123/edit?gid=1gid=2"
  <> Ok (Spec.tab_id "https://docs.google.com/spreadsheets/d/ABC123/edit?gid=1gid=2").
Proof.
  split; [vm_compute; reflexivity|].
  split; [vm_compute; reflexivity|].
  vm_compute. discriminate.
Qed.

(* ===================================================================== *)
(** * Properties of the dispatcher *)
(* ===================================================================== *)




(** C9.  Every summary that the batch operation returns has
    [total = succeeded + failed], [total] equal to the number of extracted
    contacts, and one entry per contact in the order of the contacts; the
    operation does return one when the server is configured, the sheet is
    fetched, contacts are found and the templates are well formed.  The
    counters of the batch tool add up to the number of contacts, whenever
    its loop ends and in every summary line it prints; the loop does end,
    and the line is printed, when the tool previews or [time.sleep]
    accepts its pause. *)
Theorem batch_summary_counts :
  (forall env request t summary t2,
      Api.send_from_google_sheet env request t = (Ok summary, t2) ->
      exists csv t1 contacts,
        Api.fetch_google_sheet env (Api.sheet_url request) t = (Ok csv, t1) /\
        Api.parse_contacts env csv = Ok contacts /\
        Api.total summary = (Api.succeeded summary + Api.failed summary)%Z /\
        Api.total summary = Z.of_nat (List.length contacts) /\
        (0 <= Api.succeeded summary)%Z /\ (0 <= Api.failed summary)%Z /\
        Api.succeeded summary = Api.count_success (Api.results summary) /\
        List.length (Api.results summary) = List.length contacts /\
        Forall2 Spec.recorded contacts (Api.results summary) /\
        map Api.outcome_email (Api.results summary) = map email contacts)
  /\
  (forall env request t csv t1 contacts,
      Spec.configured env ->
      Spec.batch_templates_well_formed request ->
      Api.fetch_google_sheet env (Api.sheet_url request) t = (Ok csv, t1) ->
      Api.parse_contacts env csv = Ok contacts ->
      contacts <> [] ->
      exists summary t2,
        Api.send_from_google_sheet env request t = (Ok summary, t2))
  /\
  (forall env args contacts i t,
      (forall s f t',
          ColdMailer.send_loop env args i contacts 0 0 t = (Ok (s, f), t') ->
          (s + f = Z.of_nat (List.length contacts))%Z /\
          (0 <= s)%Z /\ (0 <= f)%Z /\
          map msg_To (sessions t')
          = (map msg_To (sessions t)
               ++ (if ColdMailer.preview args then []
                   else map email contacts))%list) /\
      (ColdMailer.preview args = true \/ Spec.pauses_accepted env args ->
       exists s f t',
         ColdMailer.send_loop env args i contacts 0 0 t = (Ok (s, f), t')))
  /\
  (forall env args t csv t1 contacts,
      Spec.configured env ->
      ColdMailer.fetch_google_sheet env (ColdMailer.sheet_url args)
        (t ++ Spec.banner env args)%list = (Ok csv, t1) ->
      ColdMailer.parse_contacts env csv = Ok contacts ->
      contacts <> [] ->
      ColdMailer.preview args = true \/ ColdMailer.confirm args = true ->
      (forall t',
          ColdMailer.main env args t = (Ok tt, t') ->
          exists s f t2,
            t' = (t2 ++ [Print (nl ++ repeat_str "=" 40);
                         Print (ColdMailer.summary_line s f)])%list /\
            (s + f = Z.of_nat (List.length contacts))%Z /\
            (0 <= s)%Z /\ (0 <= f)%Z) /\
      (ColdMailer.preview args = true \/ Spec.pauses_accepted env args ->
       exists t', ColdMailer.main env args t = (Ok tt, t'))).
Proof.
  split; [|split; [|split]].
  - intros env request t summary t2 H.
    destruct (api_batch_returned env request t H)
      as (csv & t1 & contacts & _ & Hfetch & Hparse & _ & Hloop & Ht & Hs & Hf).
    destruct (api_send_loop_returns env request contacts [] t1 Hloop)
      as (rs & E & HF).
    cbn [app] in E. subst rs.
    pose proof (count_success_bounds (Api.results summary)) as B.
    assert (List.length contacts = List.length (Api.results summary)) as L
      by (eapply Forall2_length; exact HF).
    exists csv, t1, contacts.
    split; [exact Hfetch|]. split; [exact Hparse|].
    split; [lia|]. split; [exact Ht|]. split; [lia|]. split; [lia|].
    split; [exact Hs|]. split; [symmetry; exact L|].
    split; [exact HF | apply recorded_emails, HF].
  - intros env request t csv t1 contacts Hc [Hs Hb] Hfetch Hparse Hne.
    rewrite (api_batch_run request t Hc Hfetch Hparse Hne).
    destruct Hc as [Ha Hp].
    destruct (api_send_loop_spec env Ha Hp request Hs Hb contacts [] t1)
      as (rs & t2 & -> & _).
    eexists _, t2. reflexivity.
  - intros env args contacts i t. split.
    + intros s f t' H.
      destruct (@cli_send_loop_returned env args contacts i 0 0 s f t t' H)
        as (Hsum & Hs & Hf & HS).
      split; [lia|]. split; [lia|]. split; [lia | exact HS].
    + intros Hpause.
      destruct (@cli_send_loop_spec env args contacts Hpause i 0 0 t)
        as (s' & f' & t' & H & _).
      exists s', f', t'. exact H.
  - intros env args t csv t1 contacts Hc Hfetch Hparse Hne Hgo.
    rewrite (@cli_main_run env args t t1 csv contacts Hc Hfetch Hparse Hne Hgo).
    split.
    + intros t' H.
      destruct (ColdMailer.send_loop env args 0 contacts 0 0
                  (t1 ++ Spec.announcement args contacts)%list)
        as [[[s f]|e] t2] eqn:Hloop; [|discriminate].
      injection H as <-.
      destruct (@cli_send_loop_returned env args contacts 0 0 0 s f _ t2 Hloop)
        as (Hsum & Hs & Hf & _).
      exists s, f, t2. split; [reflexivity|]. lia.
    + intros Hpause.
      destruct (@cli_send_loop_spec env args contacts Hpause 0 0 0
                  (t1 ++ Spec.announcement args contacts)%list)
        as (s' & f' & t' & -> & _).
      eexists. reflexivity.
Qed.

Lemma batch_summary_counts_witness :
  (exists summary t2,
      Api.send_from_google_sheet
        (Examples.world (Some "me@gmail.com") (Some "app-password") 200
           Examples.sheet None)
        Examples.sheet_request []
      = (Ok summary, t2) /\
      Api.total summary = (Api.succeeded summary + Api.failed summary)%Z /\
      map Api.outcome_email (Api.results summary)
      = ["jane@acme.com"; "hr@initech.com"]) /\
  (exists s f t2,
      ColdMailer.main
        (Examples.world (Some "me@gmail.com") (Some "app-password") 200
           Examples.sheet None)
        Examples.send_args []
      = (Ok tt,
         (t2 ++ [Print (nl ++ repeat_str "=" 40);
                 Print (ColdMailer.summary_line s f)])%list) /\
      (s + f = 2)%Z).
Proof.
  split.
  - destruct (proj1 (proj2 batch_summary_counts)
                (Examples.world (Some "me@gmail.com") (Some "app-password") 200
                   Examples.sheet None)
                Examples.sheet_request [] "csv"
                [HttpGet "https://docs.google.com/spreadsheets/d/ABC123/export?format=csv&gid=456"]
                Examples.contacts)
      as (summary & t2 & H).
    + split; reflexivity.
    + split; vm_compute; reflexivity.
    + vm_compute. reflexivity.
    + vm_compute. reflexivity.
    + discriminate.
    + exists summary, t2. split; [exact H|].
      destruct (proj1 batch_summary_counts _ _ _ _ _ H)
        as (csv & t1 & contacts & _ & Hparse & Hsum & _ & _ & _ & _ & _ & _ & Hmail).
      split; [exact Hsum|]. rewrite Hmail.
      vm_compute in Hparse. injection Hparse as <-. reflexivity.
  - destruct (proj2 (proj2 (proj2 batch_summary_counts))
                (Examples.world (Some "me@gmail.com") (Some "app-password") 200
                   Examples.sheet None)
                Examples.send_args [] "csv"
                [Print "Gmail Account: me@gmail.com";
                 Print "Mode: SEND";
                 Print ("Delay: 30 seconds between emails" ++ nl);
                 Print "Fetching data from Google Sheet...";
                 HttpGet "https://docs.google.com/spreadsheets/d/ABC123/export?format=csv&gid=0"]
                Examples.contacts)
      as [Hpartial Htotal].
    + split; reflexivity.
    + vm_compute. reflexivity.
    + vm_compute. reflexivity.
    + discriminate.
    + right. reflexivity.
    + destruct Htotal as [t' H].
      * right. split; [vm_compute; discriminate | intros u; reflexivity].
      * destruct (Hpartial t' H) as (s & f & t2 & -> & Hsum & _).
        exists s, f, t2. split; [exact H | exact Hsum].
Defined.

(* ===================================================================== *)
(** * Properties of the loader's and the operations' errors *)
(* ===================================================================== *)

(** C7 (amended).  When the response to the fetch has a status other than
    200, the loader of the batch tool fails with an error whose text
    carries the status code, and the loader of the service API fails with
    the bad-request error 400 and a fixed detail; with status 200 both
    return the body.  Either way one request is made and no other; the
    operations of the service API let the error through, and the batch
    tool reports it and ends. *)
Theorem loader_status_handling :
  (forall env ref t response,
      requests_get env t (Spec.export_endpoint ref) = Ok response ->
      Api.fetch_google_sheet env ref t =
      (if (status_code response =? 200)%Z then Ok (text response)
       else Raise (HTTPException 400 "Failed to fetch Google Sheet"),
       (t ++ [HttpGet (Spec.export_endpoint ref)])%list))
  /\
  (forall env ref t response,
      requests_get env (t ++ [Print "Fetching data from Google Sheet..."])%list
        (Spec.export_endpoint ref) = Ok response ->
      ColdMailer.fetch_google_sheet env ref t =
      (if (status_code response =? 200)%Z then Ok (text response)
       else Raise (Exception ("Failed to fetch Google Sheet. Status code: "
                                ++ str_int (status_code response))),
       (t ++ [Print "Fetching data from Google Sheet...";
              HttpGet (Spec.export_endpoint ref)])%list))
  /\
  (forall code,
      Spec.carries_status_code
        (Exception ("Failed to fetch Google Sheet. Status code: " ++ str_int code))
        code = true)
  /\
  (forall env request t response,
      requests_get env t (Spec.export_endpoint (Api.sheet_url request)) = Ok response ->
      status_code response <> 200%Z ->
      Api.fetch_contacts env request t =
      (Raise (HTTPException 400 "Failed to fetch Google Sheet"),
       (t ++ [HttpGet (Spec.export_endpoint (Api.sheet_url request))])%list) /\
      (Spec.configured env ->
       Api.send_from_google_sheet env request t =
       (Raise (HTTPException 400 "Failed to fetch Google Sheet"),
        (t ++ [HttpGet (Spec.export_endpoint (Api.sheet_url request))])%list)))
  /\
  (forall env args t response,
      Spec.configured env ->
      (forall u, requests_get env u (Spec.export_endpoint (ColdMailer.sheet_url args))
                 = Ok response) ->
      status_code response <> 200%Z ->
      ColdMailer.main env args t =
      (Ok tt,
       (t ++ [Print ("Gmail Account: " ++ str_opt (GMAIL_ADDRESS env));
              Print ("Mode: " ++ (if ColdMailer.preview args then "PREVIEW" else "SEND"));
              Print ("Delay: " ++ str_int (ColdMailer.delay args)
                       ++ " seconds between emails" ++ nl);
              Print "Fetching data from Google Sheet...";
              HttpGet (Spec.export_endpoint (ColdMailer.sheet_url args));
              Print ("Error fetching/parsing sheet: "
                       ++ "Failed to fetch Google Sheet. Status code: "
                       ++ str_int (status_code response))])%list)).
Proof.
  split; [|split; [|split; [|split]]].
  - intros env ref t response H. rewrite api_fetch_run, H. reflexivity.
  - intros env ref t response H. rewrite cli_fetch_run, H. reflexivity.
  - intros code. unfold Spec.carries_status_code, str_exn. apply str_in_suffix.
  - intros env request t response H Hne.
    apply Z.eqb_neq in Hne. split.
    + unfold Api.fetch_contacts, bind. rewrite api_fetch_run, H, Hne. reflexivity.
    + intros [Ha Hp]. unfold Api.send_from_google_sheet. rewrite Ha, Hp.
      cbn [negb orb]. unfold bind. rewrite api_fetch_run, H, Hne. reflexivity.
  - intros env args t response [Ha Hp] H Hne.
    apply Z.eqb_neq in Hne.
    unfold ColdMailer.main. rewrite Ha, Hp. cbn [negb orb].
    unfold bind at 1. unfold print at 1.
    unfold bind at 1. unfold print at 1.
    unfold bind at 1. unfold print at 1.
    unfold bind at 1. unfold try_except at 1. unfold bind at 1.
    rewrite cli_fetch_run, H, Hne. cbn [negb].
    unfold bind, print, ret. cbn [str_exn].
    rewrite <- !app_assoc. reflexivity.
Qed.

Lemma loader_status_handling_witness :
  Api.fetch_google_sheet
    (Examples.world None None 503 Examples.sheet None) "ABC123" []
  = (Raise (HTTPException 400 "Failed to fetch Google Sheet"),
     [HttpGet "https://docs.google.com/spreadsheets/d/ABC123/export?format=csv&gid=0"])
  /\
  ColdMailer.fetch_google_sheet
    (Examples.world None None 503 Examples.sheet None) "ABC123" []
  = (Raise (Exception "Failed to fetch Google Sheet. Status code: 503"),
     [Print "Fetching data from Google Sheet...";
      HttpGet "https://docs.google.com/spreadsheets/d/ABC123/export?format=csv&gid=0"]).
Proof.
  split.
  - apply (proj1 loader_status_handling
             (Examples.world None None 503 Examples.sheet None) "ABC123" []
             {| status_code := 503; text := "csv" |}).
    reflexivity.
  - apply (proj1 (proj2 loader_status_handling)
             (Examples.world None None 503 Examples.sheet None) "ABC123" []
             {| status_code := 503; text := "csv" |}).
    reflexivity.
Defined.

(** C7 as first stated fails: the error of the service API's loader holds
    neither the status 404 of the response nor its digits, and a response
    with the success status 204 makes the loader fail. *)
Lemma loader_error_without_the_status :
  (exists e,
      fst (Api.fetch_google_sheet
             (Examples.world None None 404 Examples.sheet None) "ABC123" [])
      = Raise e /\
      Spec.carries_status_code e 404 = false)
  /\
  Spec.success_status 204 = true /\
  fst (ColdMailer.fetch_google_sheet
         (Examples.world None None 204 Examples.sheet None) "ABC123" [])
  <> Ok "csv".
Proof.
  split; [|split].
  - eexists. split; vm_compute; reflexivity.
  - reflexivity.
  - vm_compute. discriminate.
Qed.

(** C6 (amended).  On the single-send operation missing credentials give
    status 400, an SMTP authentication failure 401 and any other transport
    failure 500.  On fetch-contacts a sheet that cannot be fetched gives
    400 and an extraction without contacts 404.  On the batch operation
    the same two conditions give 400 and 404, missing server credentials
    give 500, and transport failures give no error status: they are
    recorded in the summary, which is returned with status 200. *)
Theorem error_statuses :
  (forall env request t,
      truthy (or_else (Api.sender_email request) (GMAIL_ADDRESS env)) = false \/
      truthy (or_else (Api.sender_password request) (GMAIL_APP_PASSWORD env)) = false ->
      Api.send_single_email env request t =
      (Raise (HTTPException 400 "Please provide your Gmail address and App Password"),
       t))
  /\
  (forall env request t subject body,
      let sender := or_else (Api.sender_email request) (GMAIL_ADDRESS env) in
      let password := or_else (Api.sender_password request) (GMAIL_APP_PASSWORD env) in
      truthy sender = true ->
      truthy password = true ->
      format (or_str (Api.subject request) Api.DEFAULT_SUBJECT)
        [("company_name", Api.req_company_name request);
         ("hr_name", Api.req_hr_name request)] = Ok subject ->
      format (or_str (Api.body request) Api.DEFAULT_BODY)
        [("company_name", Api.req_company_name request);
         ("hr_name", Api.req_hr_name request);
         ("sender_email", str_opt sender)] = Ok body ->
      Api.http_status (fst (Api.send_single_email env request t)) =
      match smtp_session env t
              {| login_user := sender;
                 login_password := password;
                 msg_From := sender;
                 msg_To := Api.to_email request;
                 msg_Subject := subject;
                 msg_body := body |} with
      | None => 200
      | Some (SMTPAuthenticationError _) => 401
      | Some _ => 500
      end%Z)
  /\
  (forall env request t response,
      requests_get env t (Spec.export_endpoint (Api.sheet_url request)) = Ok response ->
      (status_code response <> 200%Z ->
       Api.http_status (fst (Api.fetch_contacts env request t)) = 400%Z) /\
      (status_code response = 200%Z ->
       Api.parse_contacts env (text response) = Ok [] ->
       Api.http_status (fst (Api.fetch_contacts env request t)) = 404%Z))
  /\
  (forall env request t,
      ~ Spec.configured env ->
      Api.send_from_google_sheet env request t =
      (Raise (HTTPException 500 "Gmail credentials not configured"), t))
  /\
  (forall env request t response,
      Spec.configured env ->
      requests_get env t (Spec.export_endpoint (Api.sheet_url request)) = Ok response ->
      (status_code response <> 200%Z ->
       Api.http_status (fst (Api.send_from_google_sheet env request t)) = 400%Z) /\
      (status_code response = 200%Z ->
       Api.parse_contacts env (text response) = Ok [] ->
       Api.http_status (fst (Api.send_from_google_sheet env request t)) = 404%Z) /\
      (status_code response = 200%Z ->
       forall contacts,
         Api.parse_contacts env (text response) = Ok contacts ->
         contacts <> [] ->
         Spec.batch_templates_well_formed request ->
         Api.http_status (fst (Api.send_from_google_sheet env request t)) = 200%Z)).
Proof.
  split; [|split; [|split; [|split]]].
  - intros env request t H. unfold Api.send_single_email.
    destruct H as [-> | ->]; [reflexivity|].
    rewrite orb_true_r. reflexivity.
  - intros env request t subject body sender password Hs Hp Hsubject Hbody.
    rewrite (api_send_single_run env request t Hs Hp Hsubject Hbody).
    cbv zeta. fold sender password. cbn [fst].
    destruct (smtp_session env t _) as [[]|]; reflexivity.
  - intros env request t response H. split.
    + intros Hne. apply Z.eqb_neq in Hne.
      unfold Api.fetch_contacts, bind. rewrite api_fetch_run, H, Hne. reflexivity.
    + intros E Hparse. apply Z.eqb_eq in E.
      unfold Api.fetch_contacts, bind, lift. rewrite api_fetch_run, H, E, Hparse.
      reflexivity.
  - intros env request t Hn. unfold Api.send_from_google_sheet.
    destruct (truthy (GMAIL_ADDRESS env)) eqn:Ha; [|reflexivity].
    destruct (truthy (GMAIL_APP_PASSWORD env)) eqn:Hp; [|reflexivity].
    exfalso. apply Hn. split; assumption.
  - intros env request t response Hc H. split; [|split].
    + intros Hne. apply Z.eqb_neq in Hne. destruct Hc as [Ha Hp].
      unfold Api.send_from_google_sheet. rewrite Ha, Hp. cbn [negb orb].
      unfold bind. rewrite api_fetch_run, H, Hne. reflexivity.
    + intros E Hparse. apply Z.eqb_eq in E. destruct Hc as [Ha Hp].
      unfold Api.send_from_google_sheet. rewrite Ha, Hp. cbn [negb orb].
      unfold bind, lift. rewrite api_fetch_run, H, E, Hparse. reflexivity.
    + intros E contacts Hparse Hne [Hs Hb]. apply Z.eqb_eq in E.
      assert (Api.fetch_google_sheet env (Api.sheet_url request) t
              = (Ok (text response),
                 (t ++ [HttpGet (Spec.export_endpoint (Api.sheet_url request))])%list))
        as Hfetch by (rewrite api_fetch_run, H, E; reflexivity).
      rewrite (api_batch_run request t Hc Hfetch Hparse Hne).
      destruct Hc as [Ha Hp].
      destruct (api_send_loop_spec env Ha Hp request Hs Hb contacts []
                  (t ++ [HttpGet (Spec.export_endpoint (Api.sheet_url request))])%list)
        as (rs & t2 & -> & _).
      reflexivity.
Qed.

Lemma error_statuses_witness :
  Api.send_single_email
    (Examples.world None None 200 Examples.sheet None) Examples.bare_request []
  = (Raise (HTTPException 400 "Please provide your Gmail address and App Password"),
     [])
  /\
  Api.http_status
    (fst (Api.fetch_contacts
            (Examples.world None None 200 [] None) Examples.sheet_request []))
  = 404%Z
  /\
  Api.http_status
    (fst (Api.send_from_google_sheet
            (Examples.world (Some "me@gmail.com") (Some "app-password") 200
               Examples.sheet Examples.bad_login)
            Examples.sheet_request []))
  = 200%Z.
Proof.
  split; [|split].
  - apply (proj1 error_statuses
             (Examples.world None None 200 Examples.sheet None)
             Examples.bare_request []).
    left. reflexivity.
  - apply (proj2 (proj1 (proj2 (proj2 error_statuses))
                    (Examples.world None None 200 [] None)
                    Examples.sheet_request []
                    {| status_code := 200; text := "csv" |} eq_refl));
      reflexivity.
  - apply (proj2 (proj2 (proj2 (proj2 (proj2 (proj2 error_statuses)))
                    (Examples.world (Some "me@gmail.com") (Some "app-password") 200
                       Examples.sheet Examples.bad_login)
                    Examples.sheet_request []
                    {| status_code := 200; text := "csv" |}
                    (conj eq_refl eq_refl) eq_refl))
             eq_refl Examples.contacts).
    + vm_compute. reflexivity.
    + discriminate.
    + split; vm_compute; reflexivity.
Defined.

(** C6 as first stated fails: without server credentials the batch
    operation answers with status 500, not 400. *)
Lemma batch_without_credentials_is_500 :
  Api.http_status
    (fst (Api.send_from_google_sheet
            (Examples.world None None 200 Examples.sheet None)
            Examples.sheet_request []))
  = 500%Z
  /\
  Api.http_status
    (fst (Api.send_from_google_sheet
            (Examples.world None None 200 Examples.sheet None)
            Examples.sheet_request []))
  <> 400%Z.
Proof.
  split; [reflexivity | vm_compute; discriminate].
Qed.

(* ===================================================================== *)
(** * Properties of the preview *)
(* ===================================================================== *)






(* ===================================================================== *)
(** * Further properties: the extractor *)
(* ===================================================================== *)

Section ExtractorAlgorithm.

Lemma has_at_str_in (v : string) : str_in "@" v = Spec.has_at v.
Proof.
  unfold Spec.has_at.
  destruct (existsb (Ascii.eqb "@") (list_ascii_of_string v)) eqn:E.
  - apply str_in_char. apply existsb_exists in E.
    destruct E as (x & Hx & Hc). apply Ascii.eqb_eq in Hc. subst x. exact Hx.
  - destruct (str_in "@" v) eqn:S; [|reflexivity].
    apply str_in_char in S.
    assert (existsb (Ascii.eqb "@") (list_ascii_of_string v) = true) as T.
    { apply existsb_exists. exists "@"%char. split; [exact S|].
      apply Ascii.eqb_refl. }
    congruence.
Qed.

Lemma find_email_find (vs : list string) : find_email vs = find Spec.has_at vs.
Proof.
  induction vs as [|v vs IH]; cbn [find_email find]; [reflexivity|].
  rewrite has_at_str_in, IH. reflexivity.
Qed.

Lemma last_value_last (vs : list string) :
  vs <> [] -> last_value vs = Ok (List.last vs "").
Proof.
  intros H. destruct (exists_last H) as (front & e & ->).
  rewrite last_value_app, last_last. reflexivity.
Qed.

(** One row of the loop does what the extraction algorithm says, whatever
    the contacts gathered so far. *)
Lemma row_step_extracted (contacts : list Contact) (row : list cell) :
  row_step contacts row = Ok (contacts ++ Spec.extracted row)%list.
Proof.
  unfold row_step, Spec.extracted. rewrite values_present. cbv zeta.
  destruct (Spec.present row) as [|a [|b r]] eqn:P;
    try (cbn; rewrite app_nil_r; reflexivity).
  change (2 <=? List.length (a :: b :: r))%nat with true.
  change (0 <? List.length (a :: b :: r))%nat with true.
  change (index (a :: b :: r) 0) with (Ok a). cbn [rbind].
  rewrite last_value_last by discriminate. cbn [rbind].
  rewrite find_email_find.
  destruct (find Spec.has_at (a :: b :: r)) as [e|] eqn:F;
    [|rewrite app_nil_r; reflexivity].
  apply find_some in F. destruct F as [_ F].
  destruct e; [discriminate F | reflexivity].
Qed.

Lemma iterrows_extracted (df : DataFrame) :
  forall contacts,
    iterrows contacts df = Ok (contacts ++ flat_map Spec.extracted df)%list.
Proof.
  induction df as [|row df IH]; intros contacts; cbn [iterrows flat_map].
  - rewrite app_nil_r. reflexivity.
  - rewrite row_step_extracted. cbn [rbind]. rewrite IH, app_assoc. reflexivity.
Qed.

Lemma extracted_at_most_one (row : list cell) :
  List.length (Spec.extracted row) <= 1.
Proof.
  unfold Spec.extracted. cbv zeta.
  destruct (Spec.present row) as [|a [|b r]]; cbn [List.length]; try lia.
  destruct (find _ _); cbn; lia.
Qed.

End ExtractorAlgorithm.

(** X1.  [parse_contacts] never fails on what pandas has read: it returns
    the contacts of the extraction algorithm, row after row in the order
    of the rows, at most one per row and without removing duplicates; an
    error of [read_csv] is passed on as it is. *)
Theorem parse_contacts_follows_the_rows (env : Env) (csv_data : string) :
  (forall df,
      read_csv env csv_data = Ok df ->
      parse_contacts env csv_data = Ok (flat_map Spec.extracted df) /\
      List.length (flat_map Spec.extracted df) <= List.length df /\
      forall df1 df2,
        df = (df1 ++ df2)%list ->
        flat_map Spec.extracted df
        = (flat_map Spec.extracted df1 ++ flat_map Spec.extracted df2)%list)
  /\
  (forall e, read_csv env csv_data = Raise e ->
             parse_contacts env csv_data = Raise e).
Proof.
  split.
  - intros df H. unfold parse_contacts. rewrite H. cbn [rbind].
    rewrite iterrows_extracted. split; [reflexivity|]. split.
    + clear H. induction df as [|row df IH]; cbn [flat_map List.length]; [lia|].
      rewrite length_app. pose proof (extracted_at_most_one row). lia.
    + intros df1 df2 ->. apply flat_map_app.
  - intros e H. unfold parse_contacts. rewrite H. reflexivity.
Qed.

Lemma parse_contacts_follows_the_rows_witness :
  parse_contacts
    (Examples.world None None 200
       [[Val "Acme"; Val "a@b.com"; Val "Jane Doe"];
        [Val "only one"];
        [Val "Acme"; Val "a@b.com"; Val "Jane Doe"]] None) "csv"
  = Ok [{| email := "a@b.com"; hr_name := "Jane Doe"; company_name := "Acme" |};
        {| email := "a@b.com"; hr_name := "Jane Doe"; company_name := "Acme" |}].
Proof.
  apply (proj1 (proj1 (parse_contacts_follows_the_rows
                         (Examples.world None None 200
                            [[Val "Acme"; Val "a@b.com"; Val "Jane Doe"];
                             [Val "only one"];
                             [Val "Acme"; Val "a@b.com"; Val "Jane Doe"]] None)
                         "csv") _ eq_refl)).
Defined.

Section Trimming.

Lemma lstrip_with_cut (pats : list string) (s : string) :
  lstrip_with pats s =
  match drop_any pats s with
  | Some r => lstrip_with pats r
  | None => s
  end.
Proof.
  funelim (lstrip_with pats s);
    match goal with e : drop_any _ _ = _ |- _ => rewrite e end; reflexivity.
Qed.

(** What is left starts with none of the patterns. *)
Lemma lstrip_with_stable (pats : list string) (s : string) :
  drop_any pats (lstrip_with pats s) = None.
Proof.
  funelim (lstrip_with pats s); assumption.
Qed.

Lemma lstrip_with_fixed (pats : list string) (s : string) :
  drop_any pats s = None -> lstrip_with pats s = s.
Proof. intros H. rewrite lstrip_with_cut, H. reflexivity. Qed.

Lemma drop_any_cut (pats : list string) (s r : string) :
  drop_any pats s = Some r -> exists p, s = p ++ r.
Proof.
  induction pats as [|p ps IH]; cbn [drop_any]; [discriminate|].
  destruct p as [|c p]; [exact IH|].
  destruct (strip_prefix (String c p) s) eqn:E; [|exact IH].
  intros [= <-]. exists (String c p). apply strip_prefix_app, E.
Qed.

(** What is left is the end of the text. *)
Lemma lstrip_with_suffix (pats : list string) (s : string) :
  exists p, s = p ++ lstrip_with pats s.
Proof.
  funelim (lstrip_with pats s).
  - match goal with IH : exists _, _ |- _ => destruct IH as [q Hq] end.
    match goal with e : drop_any _ _ = Some _ |- _ =>
      destruct (drop_any_cut _ _ e) as [p Hp] end.
    exists (p ++ q). rewrite append_assoc, <- Hq. exact Hp.
  - exists "". reflexivity.
Qed.

Lemma strip_prefix_longer (p v x r : string) :
  strip_prefix p v = Some r -> strip_prefix p (v ++ x) = Some (r ++ x).
Proof.
  revert v; induction p as [|a p IH]; intros v.
  - destruct v; cbn; intros [= <-]; reflexivity.
  - destruct v as [|b v]; cbn [strip_prefix append]; [discriminate|].
    destruct (Ascii.eqb a b); [apply IH | discriminate].
Qed.

(** A text that starts with none of the patterns has no beginning that
    starts with one. *)
Lemma drop_any_shorter (pats : list string) (v x : string) :
  drop_any pats (v ++ x) = None -> drop_any pats v = None.
Proof.
  induction pats as [|p ps IH]; cbn [drop_any]; [reflexivity|].
  destruct p as [|c p]; [exact IH|].
  destruct (strip_prefix (String c p) v) as [r|] eqn:E.
  - rewrite (strip_prefix_longer _ _ x E). discriminate.
  - destruct (strip_prefix (String c p) (v ++ x)); [discriminate | exact IH].
Qed.

Lemma list_ascii_of_string_app (a b : string) :
  list_ascii_of_string (a ++ b)
  = (list_ascii_of_string a ++ list_ascii_of_string b)%list.
Proof. induction a as [|c a IH]; cbn; [reflexivity | rewrite IH; reflexivity]. Qed.

Lemma string_of_list_ascii_app (a b : list ascii) :
  string_of_list_ascii (a ++ b)
  = string_of_list_ascii a ++ string_of_list_ascii b.
Proof. induction a as [|c a IH]; cbn; [reflexivity | rewrite IH; reflexivity]. Qed.

Lemma rev_str_involutive (s : string) : rev_str (rev_str s) = s.
Proof.
  unfold rev_str.
  rewrite list_ascii_of_string_of_list_ascii, rev_involutive.
  apply string_of_list_ascii_of_string.
Qed.

Lemma rev_str_app (a b : string) : rev_str (a ++ b) = rev_str b ++ rev_str a.
Proof.
  unfold rev_str.
  rewrite list_ascii_of_string_app, rev_app_distr. apply string_of_list_ascii_app.
Qed.

(** [strip] has nothing left to remove from what it returns. *)
Lemma strip_strip (s : string) : strip (strip s) = strip s.
Proof.
  unfold strip, lstrip, rstrip.
  set (l := lstrip_with whitespace s).
  set (w := lstrip_with (map rev_str whitespace) (rev_str l)).
  assert (drop_any whitespace (rev_str w) = None) as Hv.
  { destruct (lstrip_with_suffix (map rev_str whitespace) (rev_str l)) as [p Hp].
    fold w in Hp.
    apply (f_equal rev_str) in Hp. rewrite rev_str_involutive, rev_str_app in Hp.
    apply (drop_any_shorter whitespace (rev_str w) (rev_str p)).
    rewrite <- Hp. apply lstrip_with_stable. }
  rewrite (lstrip_with_fixed _ _ Hv), rev_str_involutive.
  rewrite lstrip_with_fixed; [reflexivity|]. apply lstrip_with_stable.
Qed.

Lemma present_trimmed (row : list cell) (v : string) :
  In v (Spec.present row) -> Spec.trimmed v.
Proof.
  unfold Spec.present, Spec.trimmed. intros H.
  apply filter_In in H. destruct H as [H N].
  apply in_map_iff in H. destruct H as (x & <- & _).
  split; [apply strip_strip|].
  destruct (strip x); [discriminate N | discriminate].
Qed.

End Trimming.

Lemma extracted_fields (row : list cell) (c : Contact) :
  In c (Spec.extracted row) ->
  Spec.has_char "@" (email c) /\
  Spec.trimmed (email c) /\ Spec.trimmed (hr_name c) /\
  Spec.trimmed (company_name c) /\
  hr_name c <> email c.
Proof.
  unfold Spec.extracted. cbv zeta.
  pose proof (present_trimmed row) as T.
  destruct (Spec.present row) as [|a [|b r]] eqn:P; try contradiction.
  destruct (find Spec.has_at (a :: b :: r)) as [e|] eqn:F; [|contradiction].
  intros [<-|[]]. cbn [email hr_name company_name].
  apply find_some in F. destruct F as [He Hat].
  assert (In (List.last (a :: b :: r) "") (a :: b :: r)) as Hl.
  { destruct (@exists_last _ (a :: b :: r)) as (front & x & E); [discriminate|].
    rewrite E, last_last. apply in_or_app. right. left. reflexivity. }
  split; [apply str_in_char; rewrite has_at_str_in; exact Hat|].
  split; [apply T, He|]. split; [|split; [apply T; left; reflexivity|]].
  - destruct (String.eqb _ e); [|apply T, Hl].
    split; [vm_compute; reflexivity | discriminate].
  - destruct (String.eqb_spec (List.last (a :: b :: r) "") e) as [E|N];
      [|exact N].
    intros <-. vm_compute in Hat. discriminate.
Qed.

(** X2.  Every contact that [parse_contacts] returns has an email that
    contains [@], three fields that are not empty and carry no white space
    at either end, and a display name other than its email. *)
Theorem extracted_contacts_are_well_formed (env : Env) (csv_data : string)
  (contacts : list Contact) (c : Contact) :
  parse_contacts env csv_data = Ok contacts ->
  In c contacts ->
  Spec.has_char "@" (email c) /\
  Spec.trimmed (email c) /\ Spec.trimmed (hr_name c) /\
  Spec.trimmed (company_name c) /\
  hr_name c <> email c.
Proof.
  unfold parse_contacts.
  destruct (read_csv env csv_data) as [df|e]; [|discriminate]. cbn [rbind].
  rewrite iterrows_extracted. intros [= <-] H. cbn [app] in H.
  apply in_flat_map in H. destruct H as (row & _ & H).
  exact (extracted_fields row c H).
Qed.

Lemma extracted_contacts_are_well_formed_witness :
  Spec.has_char "@" "hr@initech.com" /\
  Spec.trimmed "hr@initech.com" /\ Spec.trimmed "Hiring Manager" /\
  Spec.trimmed "Initech" /\
  "Hiring Manager" <> "hr@initech.com".
Proof.
  apply (extracted_contacts_are_well_formed
           (Examples.world None None 200
              [[Val "  Initech "; NaN; Val " hr@initech.com"]] None) "csv"
           (contacts := [{| email := "hr@initech.com";
                            hr_name := "Hiring Manager";
                            company_name := "Initech" |}])
           {| email := "hr@initech.com";
              hr_name := "Hiring Manager";
              company_name := "Initech" |}).
  - vm_compute. reflexivity.
  - left. reflexivity.
Defined.

(** X3.  When the first present value of a row is the one that contains
    [@] and the row has another present value, the contact has that value
    both as its email and as its organization, and the last present value
    as its display name. *)
Theorem email_in_first_cell_is_the_organization (contacts : list Contact)
  (row : list cell) (first : string) (rest : list string) :
  Spec.present row = first :: rest ->
  rest <> [] ->
  Spec.has_char "@" first ->
  row_step contacts row =
  Ok (contacts ++
        [{| email := first;
            hr_name := if String.eqb (List.last rest "") first
                       then "Hiring Manager" else List.last rest "";
            company_name := first |}])%list.
Proof.
  intros P Hne Hat. rewrite row_step_extracted. unfold Spec.extracted.
  rewrite P. cbv zeta. destruct rest as [|b r]; [congruence|].
  cbn [find]. apply str_in_char in Hat. rewrite has_at_str_in in Hat.
  rewrite Hat. reflexivity.
Qed.

Lemma email_in_first_cell_is_the_organization_witness :
  row_step [] [Val "hr.example@google.com"; Val "Priya Sharma"; Val "Google"]
  = Ok [{| email := "hr.example@google.com";
           hr_name := "Google";
           company_name := "hr.example@google.com" |}].
Proof.
  apply (email_in_first_cell_is_the_organization []
           [Val "hr.example@google.com"; Val "Priya Sharma"; Val "Google"]
           (first := "hr.example@google.com") (rest := ["Priya Sharma"; "Google"])).
  - vm_compute. reflexivity.
  - discriminate.
  - apply str_in_char. vm_compute. reflexivity.
Defined.

(* ===================================================================== *)
(** * Further properties: the reference parser and the loader *)
(* ===================================================================== *)

Section SharingLinks.

Lemma has_char_app (c : ascii) (a b : string) :
  Spec.has_char c (a ++ b) <-> Spec.has_char c a \/ Spec.has_char c b.
Proof.
  unfold Spec.has_char. rewrite list_ascii_of_string_app. apply in_app_iff.
Qed.

(** [upto] returns the text before a stop character when none comes
    earlier. *)
Lemma upto_app_stop (stop : ascii -> bool) (a b : string) (d : ascii) :
  (forall c, Spec.has_char c a -> stop c = false) ->
  stop d = true ->
  Spec.upto stop (a ++ String d b) = a.
Proof.
  intros Ha Hd. induction a as [|x a IH]; cbn [append Spec.upto].
  - rewrite Hd. reflexivity.
  - rewrite (Ha x) by (left; reflexivity). f_equal. apply IH.
    intros c Hc. apply Ha. right. exact Hc.
Qed.

Lemma upto_all (stop : ascii -> bool) (a : string) :
  (forall c, Spec.has_char c a -> stop c = false) ->
  Spec.upto stop a = a.
Proof.
  intros Ha. induction a as [|x a IH]; cbn [Spec.upto]; [reflexivity|].
  rewrite (Ha x) by (left; reflexivity). f_equal. apply IH.
  intros c Hc. apply Ha. right. exact Hc.
Qed.

(** An occurrence holds every character of the separator. *)
Lemma str_in_chars (sep s : string) (c : ascii) :
  str_in sep s = true -> Spec.has_char c sep -> Spec.has_char c s.
Proof.
  unfold str_in. pose proof (partition_index sep s) as H.
  destruct (partition sep s) as [[b a]|]; [|discriminate].
  destruct H as [_ ->]. intros _ Hc.
  apply has_char_app. right. apply has_char_app. left. exact Hc.
Qed.

(** A separator that starts the text [a ++ d :: b], where [d] is not one
    of its characters, lies within [a]. *)
Lemma strip_prefix_within (p a b r : string) (d : ascii) :
  ~ Spec.has_char d p ->
  strip_prefix p (a ++ String d b) = Some r ->
  exists r', a = p ++ r'.
Proof.
  revert a; induction p as [|x p IH]; intros a Hd.
  - intros _. exists a. reflexivity.
  - destruct a as [|y a]; cbn [append strip_prefix].
    + destruct (Ascii.eqb_spec x d) as [->|]; [|discriminate].
      exfalso. apply Hd. left. reflexivity.
    + destruct (Ascii.eqb_spec x y) as [->|]; [|discriminate].
      intros H. destruct (IH a) as [r' ->]; [|exact H|].
      * intros Hc. apply Hd. right. exact Hc.
      * exists r'. reflexivity.
Qed.

(** No occurrence starts in a text that lacks a character of the separator
    and is followed by a character that the separator does not have. *)
Lemma partition_past (sep a b : string) (q d : ascii) :
  Spec.has_char q sep -> ~ Spec.has_char q a -> ~ Spec.has_char d sep ->
  partition sep (a ++ String d b) =
  match partition sep (String d b) with
  | Some (x, y) => Some (a ++ x, y)
  | None => None
  end.
Proof.
  intros Hq Ha Hd. remember (partition sep (String d b)) as found eqn:F.
  induction a as [|x a IH].
  - cbn [append]. rewrite <- F. destruct found as [[u v]|]; reflexivity.
  - cbn [append partition].
    destruct (strip_prefix sep (String x (a ++ String d b))) as [r|] eqn:E.
    + exfalso.
      destruct (@strip_prefix_within sep (String x a) b r d Hd E) as [r' Hr].
      apply Ha. rewrite Hr. apply has_char_app. left. exact Hq.
    + rewrite IH.
      * destruct found as [[u v]|]; reflexivity.
      * intros Hc. apply Ha. right. exact Hc.
Qed.

End SharingLinks.

(** X4.  For a sharing link built from a document id without [/] or [=]
    and a tab id without [&], [#] or [=], the loader recovers both ids and
    asks for the export of that document and tab. *)
Theorem sharing_link_round_trip (id tab : string) :
  (forall c, Spec.has_char c id -> c <> "/"%char /\ c <> "="%char) ->
  (forall c, Spec.has_char c tab ->
             c <> "&"%char /\ c <> "#"%char /\ c <> "="%char) ->
  let link := "https://docs.google.com/spreadsheets/d/" ++ id
                ++ "/edit?gid=" ++ tab ++ "#gid=" ++ tab in
  sheet_id link = Ok id /\
  gid link = Ok tab /\
  export_url link =
  Ok ("https://docs.google.com/spreadsheets/d/" ++ id
        ++ "/export?format=csv&gid=" ++ tab).
Proof.
  intros Hid Htab link.
  assert (sheet_id link = Ok id) as Hs.
  { rewrite sheet_id_document_id. unfold Spec.document_id.
    rewrite after_partition. subst link. cbn [append partition strip_prefix Ascii.eqb Bool.eqb].
    f_equal. apply upto_app_stop; [|reflexivity].
    intros c Hc. destruct (Hid c Hc) as [N _].
    destruct (Ascii.eqb_spec "/" c); congruence. }
  assert (gid link = Ok tab) as Hg.
  { assert (partition "gid=" link
            = Some ("https://docs.google.com/spreadsheets/d/" ++ id ++ "/edit?",
                    tab ++ "#gid=" ++ tab)) as P.
    { subst link.
      change ("https://docs.google.com/spreadsheets/d/" ++ id
                ++ "/edit?gid=" ++ tab ++ "#gid=" ++ tab)
        with ("https://docs.google.com/spreadsheets/d/"
                ++ (id ++ String "/" ("edit?gid=" ++ tab ++ "#gid=" ++ tab))).
      rewrite <- append_assoc.
      rewrite (@partition_past "gid=" _ _ "="%char "/"%char).
      - cbn [append partition strip_prefix Ascii.eqb Bool.eqb]. reflexivity.
      - cbn. auto 10.
      - intros Hc. apply has_char_app in Hc. destruct Hc as [Hc|Hc].
        + cbn in Hc. intuition discriminate.
        + destruct (Hid _ Hc) as [_ N]. congruence.
      - cbn. intuition discriminate. }
    assert (forall c, Spec.has_char c tab -> Spec.amp_or_hash c = false) as Hstop.
    { intros c Hc. destruct (Htab c Hc) as (N1 & N2 & _). unfold Spec.amp_or_hash.
      destruct (Ascii.eqb_spec c "&"); [congruence|].
      destruct (Ascii.eqb_spec c "#"); [congruence | reflexivity]. }
    assert (Spec.upto Spec.amp_or_hash (tab ++ "#gid=" ++ tab) = tab) as U
      by (apply upto_app_stop; [exact Hstop | reflexivity]).
    rewrite gid_tab_id. unfold Spec.tab_id_to_next_gid.
    rewrite after_partition, P, before_partition. f_equal.
    rewrite upto_head_piece_absent; [exact U| |].
    - intros c Hc. cbn in Hc.
      repeat (destruct Hc as [<-|Hc]; [reflexivity|]). contradiction.
    - rewrite U. destruct (str_in "gid=" tab) eqn:S; [|reflexivity].
      exfalso. assert (Spec.has_char "=" tab) as He.
      { apply (@str_in_chars "gid=" tab "="%char S). cbn. auto 10. }
      destruct (Htab _ He) as (_ & _ & N). congruence. }
  split; [exact Hs|]. split; [exact Hg|].
  unfold export_url. rewrite Hs, Hg. reflexivity.
Qed.

Lemma sharing_link_round_trip_witness :
  sheet_id "https://docs.google.com/spreadsheets/d/1ra39K0vlwIHH1QOfIdB_-erbXF6fM9kx-DVoqPbYKQw/edit?gid=0#gid=0"
  = Ok "1ra39K0vlwIHH1QOfIdB_-erbXF6fM9kx-DVoqPbYKQw" /\
  gid "https://docs.google.com/spreadsheets/d/1ra39K0vlwIHH1QOfIdB_-erbXF6fM9kx-DVoqPbYKQw/edit?gid=0#gid=0"
  = Ok "0" /\
  export_url "https://docs.google.com/spreadsheets/d/1ra39K0vlwIHH1QOfIdB_-erbXF6fM9kx-DVoqPbYKQw/edit?gid=0#gid=0"
  = Ok "https://docs.google.com/spreadsheets/d/1ra39K0vlwIHH1QOfIdB_-erbXF6fM9kx-DVoqPbYKQw/export?format=csv&gid=0".
Proof.
  apply (sharing_link_round_trip
           "1ra39K0vlwIHH1QOfIdB_-erbXF6fM9kx-DVoqPbYKQw" "0").
  - intros c Hc. cbn in Hc.
    repeat (destruct Hc as [<-|Hc]; [split; discriminate|]). contradiction.
  - intros c Hc. cbn in Hc.
    repeat (destruct Hc as [<-|Hc]; [repeat split; discriminate|]). contradiction.
Defined.

Lemma upto_no_stop (stop : ascii -> bool) (s : string) (c : ascii) :
  Spec.has_char c (Spec.upto stop s) -> stop c = false.
Proof.
  unfold Spec.has_char.
  induction s as [|x s IH]; cbn [Spec.upto]; [contradiction|].
  destruct (stop x) eqn:E; [contradiction|].
  cbn [list_ascii_of_string In]. intros [<-|H]; [exact E | apply IH, H].
Qed.

(** X5.  A document id taken out of a reference with a [/d/] segment
    holds no [/], and a tab id taken out of any reference holds neither
    [&] nor [#]: the export URL gets one path segment and one [gid]
    value. *)
Theorem reference_ids_stop_at_separators (ref d g : string) :
  sheet_id ref = Ok d ->
  gid ref = Ok g ->
  (str_in "/d/" ref = true -> ~ Spec.has_char "/" d) /\
  ~ Spec.has_char "&" g /\ ~ Spec.has_char "#" g /\
  export_url ref =
  Ok ("https://docs.google.com/spreadsheets/d/" ++ d
        ++ "/export?format=csv&gid=" ++ g).
Proof.
  intros Hd Hg.
  assert (forall c, Spec.has_char c g -> Spec.amp_or_hash c = false) as G.
  { rewrite gid_tab_id in Hg. injection Hg as <-.
    unfold Spec.tab_id_to_next_gid.
    destruct (Spec.after "gid=" ref) as [rest|].
    - intros c. apply upto_no_stop.
    - intros c [<-|[]]. reflexivity. }
  split; [|split; [|split]].
  - intros H Hc. rewrite sheet_id_document_id in Hd. injection Hd as <-.
    unfold Spec.document_id in Hc. rewrite after_partition in Hc.
    unfold str_in in H.
    destruct (partition "/d/" ref) as [[b a]|]; [|discriminate].
    apply upto_no_stop in Hc. discriminate.
  - intros Hc. apply G in Hc. discriminate.
  - intros Hc. apply G in Hc. discriminate.
  - unfold export_url. rewrite Hd, Hg. reflexivity.
Qed.

Lemma reference_ids_stop_at_separators_witness :
  (str_in "/d/" "x/d/ABC/def/d/ghi?gid=7&gid=8#9" = true -> ~ Spec.has_char "/" "ABC") /\
  ~ Spec.has_char "&" "7" /\ ~ Spec.has_char "#" "7" /\
  export_url "x/d/ABC/def/d/ghi?gid=7&gid=8#9" =
  Ok ("https://docs.google.com/spreadsheets/d/" ++ "ABC"
        ++ "/export?format=csv&gid=" ++ "7").
Proof.
  apply (reference_ids_stop_at_separators "x/d/ABC/def/d/ghi?gid=7&gid=8#9");
    vm_compute; reflexivity.
Defined.

(** X6.  An exception of [requests.get] or of [read_csv] is not turned
    into anything else by the service API: the loader and the two
    operations that use it raise it as it is, after the one request.  The
    batch tool catches it, prints it after [Error fetching/parsing sheet:]
    and ends without sending. *)
Theorem fetch_and_parse_errors_pass_through :
  (forall env request t e,
      requests_get env t (Spec.export_endpoint (Api.sheet_url request)) = Raise e ->
      Api.fetch_google_sheet env (Api.sheet_url request) t =
      (Raise e, (t ++ [HttpGet (Spec.export_endpoint (Api.sheet_url request))])%list) /\
      Api.fetch_contacts env request t =
      (Raise e, (t ++ [HttpGet (Spec.export_endpoint (Api.sheet_url request))])%list) /\
      (Spec.configured env ->
       Api.send_from_google_sheet env request t =
       (Raise e, (t ++ [HttpGet (Spec.export_endpoint (Api.sheet_url request))])%list)))
  /\
  (forall env request t response e,
      requests_get env t (Spec.export_endpoint (Api.sheet_url request)) = Ok response ->
      status_code response = 200%Z ->
      Api.parse_contacts env (text response) = Raise e ->
      Api.fetch_contacts env request t =
      (Raise e, (t ++ [HttpGet (Spec.export_endpoint (Api.sheet_url request))])%list) /\
      (Spec.configured env ->
       Api.send_from_google_sheet env request t =
       (Raise e, (t ++ [HttpGet (Spec.export_endpoint (Api.sheet_url request))])%list)))
  /\
  (forall env args t,
      Spec.configured env ->
      forall e,
        (requests_get env
           (t ++ Spec.banner env args ++ [Print "Fetching data from Google Sheet..."])%list
           (Spec.export_endpoint (ColdMailer.sheet_url args)) = Raise e
         \/
         exists response,
           requests_get env
             (t ++ Spec.banner env args ++ [Print "Fetching data from Google Sheet..."])%list
             (Spec.export_endpoint (ColdMailer.sheet_url args)) = Ok response /\
           status_code response = 200%Z /\
           ColdMailer.parse_contacts env (text response) = Raise e) ->
        ColdMailer.main env args t =
        (Ok tt,
         (t ++ Spec.banner env args
            ++ [Print "Fetching data from Google Sheet...";
                HttpGet (Spec.export_endpoint (ColdMailer.sheet_url args));
                Print ("Error fetching/parsing sheet: " ++ str_exn e)])%list)).
Proof.
  split; [|split].
  - intros env request t e H.
    assert (Api.fetch_google_sheet env (Api.sheet_url request) t =
            (Raise e, (t ++ [HttpGet (Spec.export_endpoint (Api.sheet_url request))])%list))
      as F by (rewrite api_fetch_run, H; reflexivity).
    split; [exact F|]. split.
    + unfold Api.fetch_contacts, bind. rewrite F. reflexivity.
    + intros [Ha Hp]. unfold Api.send_from_google_sheet. rewrite Ha, Hp.
      cbn [negb orb]. unfold bind. rewrite F. reflexivity.
  - intros env request t response e H E Hparse. apply Z.eqb_eq in E.
    assert (Api.fetch_google_sheet env (Api.sheet_url request) t =
            (Ok (text response),
             (t ++ [HttpGet (Spec.export_endpoint (Api.sheet_url request))])%list))
      as F by (rewrite api_fetch_run, H, E; reflexivity).
    split.
    + unfold Api.fetch_contacts, bind, lift. rewrite F, Hparse. reflexivity.
    + intros [Ha Hp]. unfold Api.send_from_google_sheet. rewrite Ha, Hp.
      cbn [negb orb]. unfold bind, lift. rewrite F, Hparse. reflexivity.
  - intros env args t [Ha Hp] e H.
    unfold ColdMailer.main. rewrite Ha, Hp. cbn [negb orb].
    unfold bind at 1. unfold print at 1.
    unfold bind at 1. unfold print at 1.
    unfold bind at 1. unfold print at 1.
    unfold bind at 1. unfold try_except at 1. unfold bind at 1.
    rewrite cli_fetch_run.
    unfold Spec.banner in H |- *.
    repeat rewrite <- app_assoc. repeat rewrite <- app_assoc in H.
    cbn [app] in H |- *.
    destruct H as [H|(response & H & E & Hparse)].
    + rewrite H. unfold bind, print, ret.
      rewrite <- !app_assoc. reflexivity.
    + apply Z.eqb_eq in E. rewrite H, E. cbn [negb].
      unfold ret at 1. unfold bind at 1. unfold lift at 1. rewrite Hparse.
      unfold bind, print, ret. rewrite <- !app_assoc. reflexivity.
Qed.

Lemma fetch_and_parse_errors_pass_through_witness :
  Api.fetch_contacts
    {| GMAIL_ADDRESS := None; GMAIL_APP_PASSWORD := None;
       requests_get := fun _ _ => Raise (Exception "Connection refused");
       smtp_session := fun _ _ => None;
       stdin := fun _ _ => "yes";
       read_csv := fun _ => Ok [];
       time_sleep := fun _ _ => None |}
    Examples.sheet_request []
  = (Raise (Exception "Connection refused"),
     [HttpGet "https://docs.google.com/spreadsheets/d/ABC123/export?format=csv&gid=456"]).
Proof.
  apply (proj1 fetch_and_parse_errors_pass_through
           {| GMAIL_ADDRESS := None; GMAIL_APP_PASSWORD := None;
              requests_get := fun _ _ => Raise (Exception "Connection refused");
              smtp_session := fun _ _ => None;
              stdin := fun _ _ => "yes";
              read_csv := fun _ => Ok [];
              time_sleep := fun _ _ => None |}
           Examples.sheet_request [] (Exception "Connection refused") eq_refl).
Defined.

(* ===================================================================== *)
(** * Further properties: the service API *)
(* ===================================================================== *)

Lemma ill_formed_fails (template : string) (kw : kwargs) :
  Spec.well_formed template (map fst kw) = false ->
  exists e, format template kw = Raise e.
Proof.
  unfold Spec.well_formed, format. intros H.
  rewrite (same_fate_all _ kw template) in H.
  - destruct (format_go kw None template) as [s|e]; [discriminate | eauto].
  - rewrite map_map. cbn. rewrite map_id. reflexivity.
Qed.

(** X7.  Whatever [send_single_email] does, it fetches nothing and opens
    at most one SMTP session; a session is opened only with an address and
    a password that are not empty, the request's own when it brings them
    and the server's otherwise, each on its own.  The operation returns
    its result exactly when the session went well; a session that fails
    on the authentication makes it raise [HTTPException] 401, and one
    that fails otherwise [HTTPException] 500 with the text of the
    failure. *)
Theorem single_send_outcomes (env : Env) (request : Api.SingleEmailRequest)
  (t t' : trace) (r : result Api.SendResult) :
  Api.send_single_email env request t = (r, t') ->
  (t' = t /\ (exists e, r = Raise e)
   \/
   exists m,
     t' = (t ++ [SmtpSession m])%list /\
     truthy (login_user m) = true /\ truthy (login_password m) = true /\
     login_user m
     = (if truthy (Api.sender_email request) then Api.sender_email request
        else GMAIL_ADDRESS env) /\
     login_password m
     = (if truthy (Api.sender_password request) then Api.sender_password request
        else GMAIL_APP_PASSWORD env) /\
     msg_From m = login_user m /\
     msg_To m = Api.to_email request /\
     match smtp_session env t m with
     | None =>
         exists res, r = Ok res /\ Api.success res = true /\
                     Api.result_email res = Api.to_email request
     | Some (SMTPAuthenticationError _) =>
         r = Raise (HTTPException 401
                      "Gmail authentication failed. Check your email and app password.")
     | Some e =>
         r = Raise (HTTPException 500 ("Failed to send email: " ++ str_exn e))
     end).
Proof.
  intros H.
  destruct (truthy (or_else (Api.sender_email request) (GMAIL_ADDRESS env)))
    eqn:Hs;
    [destruct (truthy (or_else (Api.sender_password request)
                         (GMAIL_APP_PASSWORD env))) eqn:Hp|].
  - destruct (format (or_str (Api.subject request) Api.DEFAULT_SUBJECT)
                [("company_name", Api.req_company_name request);
                 ("hr_name", Api.req_hr_name request)]) as [subject|e1] eqn:Hsubject.
    + destruct (format (or_str (Api.body request) Api.DEFAULT_BODY)
                  [("company_name", Api.req_company_name request);
                   ("hr_name", Api.req_hr_name request);
                   ("sender_email",
                    str_opt (or_else (Api.sender_email request)
                               (GMAIL_ADDRESS env)))]) as [body|e2] eqn:Hbody.
      * rewrite (api_send_single_run env request t Hs Hp Hsubject Hbody) in H.
        cbv zeta in H. injection H as <- <-. right. eexists.
        split; [reflexivity|]. cbn [login_user login_password msg_From msg_To].
        split; [exact Hs|]. split; [exact Hp|].
        split; [reflexivity|]. split; [reflexivity|].
        split; [reflexivity|]. split; [reflexivity|].
        destruct (smtp_session env t _) as [e|]; [destruct e; reflexivity|].
        eexists. split; [reflexivity|]. split; reflexivity.
      * left. unfold Api.send_single_email in H. rewrite Hs, Hp in H.
        cbn [negb orb] in H. unfold bind, lift in H.
        rewrite Hsubject, Hbody in H. injection H as <- <-. eauto.
    + left. unfold Api.send_single_email in H. rewrite Hs, Hp in H.
      cbn [negb orb] in H. unfold bind, lift in H.
      rewrite Hsubject in H. injection H as <- <-. eauto.
  - left. unfold Api.send_single_email in H. rewrite Hs, Hp in H.
    cbn [negb orb] in H. unfold raise in H. injection H as <- <-. eauto.
  - left. unfold Api.send_single_email in H. rewrite Hs in H.
    cbn [negb orb] in H. unfold raise in H. injection H as <- <-. eauto.
Qed.

Lemma single_send_outcomes_witness :
  exists m,
    snd (Api.send_single_email
           (Examples.world (Some "server@gmail.com") (Some "app-password") 200
              Examples.sheet None)
           Examples.own_address_request [])
    = [SmtpSession m] /\
    login_user m = Some "caller@gmail.com" /\
    login_password m = Some "app-password".
Proof.
  destruct (single_send_outcomes
              (Examples.world (Some "server@gmail.com") (Some "app-password") 200
                 Examples.sheet None)
              Examples.own_address_request []
              (t' := snd (Api.send_single_email
                            (Examples.world (Some "server@gmail.com")
                               (Some "app-password") 200 Examples.sheet None)
                            Examples.own_address_request []))
              (r := fst (Api.send_single_email
                           (Examples.world (Some "server@gmail.com")
                              (Some "app-password") 200 Examples.sheet None)
                           Examples.own_address_request [])))
    as [[E _] | (m & E & _ & _ & Hu & Hp & _)].
  - vm_compute. reflexivity.
  - vm_compute in E. discriminate E.
  - exists m. split; [exact E|]. split; [exact Hu | exact Hp].
Defined.

(** X8.  A template that [format] refuses, for a brace that is not
    matched or a field that the operation does not supply, stops an
    operation before any mail is sent: the batch operation raises on the
    first contact, with the trace as the fetch left it, and the
    single-send operation raises with the trace untouched. *)
Theorem template_errors_send_nothing :
  (forall env request t csv t1 contacts,
      Spec.configured env ->
      Api.fetch_google_sheet env (Api.sheet_url request) t = (Ok csv, t1) ->
      Api.parse_contacts env csv = Ok contacts ->
      contacts <> [] ->
      Spec.refused (or_str (Api.sheet_subject request) Api.DEFAULT_SUBJECT)
        ["company_name"; "hr_name"] = true \/
      Spec.refused (or_str (Api.sheet_body request) Api.DEFAULT_BODY)
        ["company_name"; "hr_name"; "sender_email"] = true ->
      exists e, Api.send_from_google_sheet env request t = (Raise e, t1))
  /\
  (forall env request t,
      truthy (or_else (Api.sender_email request) (GMAIL_ADDRESS env)) = true ->
      truthy (or_else (Api.sender_password request) (GMAIL_APP_PASSWORD env)) = true ->
      Spec.refused (or_str (Api.subject request) Api.DEFAULT_SUBJECT)
        ["company_name"; "hr_name"] = true \/
      Spec.refused (or_str (Api.body request) Api.DEFAULT_BODY)
        ["company_name"; "hr_name"; "sender_email"] = true ->
      exists e, Api.send_single_email env request t = (Raise e, t)).
Proof.
  split.
  - intros env request t csv t1 contacts Hc Hfetch Hparse Hne Hbad.
    rewrite (api_batch_run request t Hc Hfetch Hparse Hne).
    destruct contacts as [|c cs]; [congruence|].
    cbn [Api.send_loop]. unfold bind at 1. unfold lift at 1.
    destruct (Spec.well_formed
                (or_str (Api.sheet_subject request) Api.DEFAULT_SUBJECT)
                ["company_name"; "hr_name"]) eqn:Ws.
    + destruct Hbad as [Hbad|Hbad]; apply refused_ill_formed in Hbad;
        [congruence|].
      destruct (well_formed_renders
                  (or_str (Api.sheet_subject request) Api.DEFAULT_SUBJECT)
                  [("company_name", company_name c); ("hr_name", hr_name c)] Ws)
        as [subject ->].
      unfold bind at 1. unfold lift at 1.
      destruct (ill_formed_fails
                  (or_str (Api.sheet_body request) Api.DEFAULT_BODY)
                  [("company_name", company_name c); ("hr_name", hr_name c);
                   ("sender_email", str_opt (GMAIL_ADDRESS env))] Hbad)
        as [e ->].
      exists e. reflexivity.
    + destruct (ill_formed_fails
                  (or_str (Api.sheet_subject request) Api.DEFAULT_SUBJECT)
                  [("company_name", company_name c); ("hr_name", hr_name c)] Ws)
        as [e ->].
      exists e. reflexivity.
  - intros env request t Hs Hp Hbad.
    unfold Api.send_single_email. rewrite Hs, Hp. cbn [negb orb].
    unfold bind at 1. unfold lift at 1.
    destruct (Spec.well_formed
                (or_str (Api.subject request) Api.DEFAULT_SUBJECT)
                ["company_name"; "hr_name"]) eqn:Ws.
    + destruct Hbad as [Hbad|Hbad]; apply refused_ill_formed in Hbad;
        [congruence|].
      destruct (well_formed_renders
                  (or_str (Api.subject request) Api.DEFAULT_SUBJECT)
                  [("company_name", Api.req_company_name request);
                   ("hr_name", Api.req_hr_name request)] Ws)
        as [subject ->].
      unfold bind at 1. unfold lift at 1.
      destruct (ill_formed_fails
                  (or_str (Api.body request) Api.DEFAULT_BODY)
                  [("company_name", Api.req_company_name request);
                   ("hr_name", Api.req_hr_name request);
                   ("sender_email",
                    str_opt (or_else (Api.sender_email request)
                               (GMAIL_ADDRESS env)))] Hbad)
        as [e ->].
      exists e. reflexivity.
    + destruct (ill_formed_fails
                  (or_str (Api.subject request) Api.DEFAULT_SUBJECT)
                  [("company_name", Api.req_company_name request);
                   ("hr_name", Api.req_hr_name request)] Ws)
        as [e ->].
      exists e. reflexivity.
Qed.

Lemma template_errors_send_nothing_witness :
  exists e,
    Api.send_from_google_sheet
      (Examples.world (Some "me@gmail.com") (Some "app-password") 200
         Examples.sheet None)
      Examples.bad_subject_request []
    = (Raise e,
       [HttpGet "https://docs.google.com/spreadsheets/d/ABC123/export?format=csv&gid=0"]).
Proof.
  apply (proj1 template_errors_send_nothing
           (Examples.world (Some "me@gmail.com") (Some "app-password") 200
              Examples.sheet None)
           Examples.bad_subject_request [] "csv"
           [HttpGet "https://docs.google.com/spreadsheets/d/ABC123/export?format=csv&gid=0"]
           Examples.contacts).
  - split; reflexivity.
  - vm_compute. reflexivity.
  - vm_compute. reflexivity.
  - discriminate.
  - left. vm_compute. reflexivity.
Defined.

(** X9.  Whatever [fetch_contacts] does, it makes the one request for the
    export of the sheet and nothing else; a list that it returns is not
    empty and is what [parse_contacts] makes of a body received with
    status 200. *)
Theorem fetch_contacts_outcomes (env : Env) (request : Api.GoogleSheetRequest)
  (t t' : trace) (r : result (list Contact)) :
  Api.fetch_contacts env request t = (r, t') ->
  t' = (t ++ [HttpGet (Spec.export_endpoint (Api.sheet_url request))])%list /\
  forall contacts,
    r = Ok contacts ->
    contacts <> [] /\
    exists response,
      requests_get env t (Spec.export_endpoint (Api.sheet_url request)) = Ok response /\
      status_code response = 200%Z /\
      Api.parse_contacts env (text response) = Ok contacts.
Proof.
  unfold Api.fetch_contacts, bind. rewrite api_fetch_run.
  destruct (requests_get env t (Spec.export_endpoint (Api.sheet_url request)))
    as [response|e]; [|intros [= <- <-]; split; [reflexivity | discriminate]].
  destruct (status_code response =? 200)%Z eqn:E;
    [|intros [= <- <-]; split; [reflexivity | discriminate]].
  unfold lift.
  destruct (Api.parse_contacts env (text response)) as [contacts|e] eqn:P;
    [|intros [= <- <-]; split; [reflexivity | discriminate]].
  destruct contacts as [|c cs];
    [unfold raise; intros [= <- <-]; split; [reflexivity | discriminate]|].
  unfold ret. intros [= <- <-]. split; [reflexivity|].
  intros contacts [= <-]. split; [discriminate|].
  exists response. split; [reflexivity|]. split; [apply Z.eqb_eq, E | exact P].
Qed.

Lemma fetch_contacts_outcomes_witness :
  [HttpGet "https://docs.google.com/spreadsheets/d/ABC123/export?format=csv&gid=456"]
  = ([] ++ [HttpGet (Spec.export_endpoint (Api.sheet_url Examples.sheet_request))])%list
  /\ Examples.contacts <> [].
Proof.
  destruct (fetch_contacts_outcomes
              (Examples.world None None 200 Examples.sheet None)
              Examples.sheet_request []
              (t' := [HttpGet "https://docs.google.com/spreadsheets/d/ABC123/export?format=csv&gid=456"])
              (r := Ok Examples.contacts)) as [E H].
  - vm_compute. reflexivity.
  - split; [exact E|]. exact (proj1 (H Examples.contacts eq_refl)).
Defined.

Section ServerCredentials.

Variable env : Env.

Lemma api_send_email_default_sessions (to_email subject body : string) (t : trace) :
  exists new,
    snd (Api.send_email env to_email subject body None None t) = (t ++ new)%list /\
    fetched new = [] /\
    Forall (Spec.by_the_server env) (sessions new) /\
    map msg_To (sessions new) = repeat to_email (List.length (sessions new)) /\
    List.length (sessions new) <= 1.
Proof.
  unfold Api.send_email. cbn [or_else truthy].
  destruct (negb (truthy (GMAIL_ADDRESS env))
            || negb (truthy (GMAIL_APP_PASSWORD env))).
  - exists []. unfold raise. cbn [snd]. rewrite app_nil_r.
    repeat split; cbn; auto.
  - eexists [SmtpSession _]. unfold try_except, bind, smtp, ret, raise.
    destruct (smtp_session env t _); cbn [snd];
      (split; [reflexivity|]); cbn [sessions fetched List.length map repeat];
      repeat split; auto; repeat constructor.
Qed.

Lemma api_send_loop_sessions (request : Api.GoogleSheetRequest)
  (contacts : list Contact) :
  forall (results : list Api.Outcome) (t : trace),
  exists new,
    snd (Api.send_loop env request contacts results t) = (t ++ new)%list /\
    fetched new = [] /\
    Forall (Spec.by_the_server env) (sessions new) /\
    List.length (sessions new) <= List.length contacts.
Proof.
  induction contacts as [|contact rest IH]; intros results t.
  - exists []. cbn [Api.send_loop]. unfold ret. cbn [snd]. rewrite app_nil_r.
    repeat split; cbn; auto.
  - cbn [Api.send_loop]. unfold bind at 1. unfold lift at 1.
    destruct (format _ _) as [subject|];
      [|exists []; cbn [snd]; rewrite app_nil_r; repeat split; cbn; auto; lia].
    unfold bind at 1. unfold lift at 1.
    destruct (format _ _) as [body|];
      [|exists []; cbn [snd]; rewrite app_nil_r; repeat split; cbn; auto; lia].
    unfold bind at 1.
    destruct (api_send_email_default_sessions (email contact) subject body t)
      as (new1 & E1 & G1 & F1 & _ & L1).
    assert (exists results',
               try_except
                 (bind (Api.send_email env (email contact) subject body None None)
                    (fun _ => ret (results ++ [Api.Sent (email contact)
                                                 (hr_name contact)
                                                 (company_name contact)])%list))
                 (fun e => ret (results ++ [Api.NotSent (email contact)
                                              (str_exn e)])%list) t
               = (Ok results', (t ++ new1)%list)) as [results' ->].
    { unfold try_except, bind, ret.
      destruct (Api.send_email env (email contact) subject body None None t)
        as [[b|e] t1]; cbn [snd] in E1; subst t1; eauto. }
    destruct (IH results' (t ++ new1)%list) as (new2 & E2 & G2 & F2 & L2).
    exists (new1 ++ new2)%list. rewrite E2, app_assoc.
    split; [reflexivity|]. rewrite fetched_app, sessions_app, G1, G2, length_app.
    split; [reflexivity|]. split; [apply Forall_app; split; assumption|].
    cbn [List.length]. lia.
Qed.

End ServerCredentials.

(** The trace of the batch operation: nothing without the server's
    credentials, and otherwise the request for the export followed by
    sessions of the server's own. *)
Lemma api_batch_trace (env : Env) (request : Api.GoogleSheetRequest) (t : trace) :
  (negb (truthy (GMAIL_ADDRESS env)) || negb (truthy (GMAIL_APP_PASSWORD env)) = true /\
   Api.send_from_google_sheet env request t =
   (Raise (HTTPException 500 "Gmail credentials not configured"), t))
  \/
  (Spec.configured env /\
   exists new,
     snd (Api.send_from_google_sheet env request t)
     = (t ++ HttpGet (Spec.export_endpoint (Api.sheet_url request)) :: new)%list /\
     fetched new = [] /\
     Forall (Spec.by_the_server env) (sessions new)).
Proof.
  unfold Api.send_from_google_sheet, Spec.configured.
  destruct (truthy (GMAIL_ADDRESS env)); [|left; split; reflexivity].
  destruct (truthy (GMAIL_APP_PASSWORD env)); [|left; split; reflexivity].
  right. split; [split; reflexivity|]. cbn [negb orb].
  unfold bind at 1. rewrite api_fetch_run.
  set (t1 := (t ++ [HttpGet (Spec.export_endpoint (Api.sheet_url request))])%list).
  assert (forall x : result Api.Summary,
             exists new,
               snd (x, t1)
               = (t ++ HttpGet (Spec.export_endpoint (Api.sheet_url request)) :: new)%list /\
               fetched new = [] /\
               Forall (Spec.by_the_server env) (sessions new)) as Stop.
  { intros x. exists []. repeat split; constructor. }
  destruct (match requests_get env t (Spec.export_endpoint (Api.sheet_url request)) with
            | Ok response =>
                if (status_code response =? 200)%Z then Ok (text response)
                else Raise (HTTPException 400 "Failed to fetch Google Sheet")
            | Raise e => Raise e
            end) as [csv|e]; [|apply Stop].
  unfold bind at 1. unfold lift at 1.
  destruct (Api.parse_contacts env csv) as [contacts|e]; [|apply Stop].
  destruct contacts as [|c cs]; [apply Stop|].
  destruct (api_send_loop_sessions env request (c :: cs) [] t1)
    as (new & E & G & F & _).
  unfold bind, ret. exists new.
  destruct (Api.send_loop env request (c :: cs) [] t1) as [[rs|e] t2];
    cbn [snd] in E |- *; subst t2 t1; rewrite <- app_assoc;
    (split; [reflexivity|]); split; assumption.
Qed.

(** X10.  Whatever the batch operation does, it makes at most the one
    request for the export of the sheet, and every SMTP session that it
    opens logs in with the server's address and password and sends from
    the server's address: a batch request has no way to bring its own. *)
Theorem batch_uses_the_server_credentials (env : Env)
  (request : Api.GoogleSheetRequest) (t t' : trace) (r : result Api.Summary) :
  Api.send_from_google_sheet env request t = (r, t') ->
  exists new,
    t' = (t ++ new)%list /\
    Forall (Spec.by_the_server env) (sessions new) /\
    (fetched new = [] \/
     fetched new = [Spec.export_endpoint (Api.sheet_url request)]).
Proof.
  intros H.
  destruct (api_batch_trace env request t) as [[_ E]|(_ & new & E & G & F)].
  - rewrite E in H. injection H as _ <-. exists []. rewrite app_nil_r.
    repeat split; cbn; auto.
  - rewrite H in E. cbn [snd] in E. subst t'.
    exists (HttpGet (Spec.export_endpoint (Api.sheet_url request)) :: new).
    split; [reflexivity|]. cbn [sessions fetched]. rewrite G.
    split; [exact F | right; reflexivity].
Qed.

Lemma batch_uses_the_server_credentials_witness :
  exists new,
    snd (Api.send_from_google_sheet
           (Examples.world (Some "me@gmail.com") (Some "app-password") 200
              Examples.sheet None)
           Examples.sheet_request [])
    = ([] ++ new)%list /\
    Forall (Spec.by_the_server
              (Examples.world (Some "me@gmail.com") (Some "app-password") 200
                 Examples.sheet None))
      (sessions new) /\
    List.length (sessions new) = 2.
Proof.
  destruct (batch_uses_the_server_credentials
              (Examples.world (Some "me@gmail.com") (Some "app-password") 200
                 Examples.sheet None)
              Examples.sheet_request []
              (t' := snd (Api.send_from_google_sheet
                            (Examples.world (Some "me@gmail.com")
                               (Some "app-password") 200 Examples.sheet None)
                            Examples.sheet_request []))
              (r := fst (Api.send_from_google_sheet
                           (Examples.world (Some "me@gmail.com")
                              (Some "app-password") 200 Examples.sheet None)
                           Examples.sheet_request [])))
    as (new & E & F & _).
  - vm_compute. reflexivity.
  - exists new. split; [exact E|]. split; [exact F|].
    cbn [app] in E. rewrite <- E. vm_compute. reflexivity.
Defined.

(** X11.  [health_check] reports [gmail_configured] exactly when the
    batch operation gets past its check of the credentials: when it
    reports [False], every batch request is refused with status 500 and
    nothing is done; when it reports [True], every batch request starts
    with the request for the export. *)
Theorem health_check_tells_the_batch_gate (env : Env) :
  (Api.gmail_configured (Api.health_check env) = true <-> Spec.configured env) /\
  (Api.gmail_configured (Api.health_check env) = false ->
   forall request t,
     Api.send_from_google_sheet env request t =
     (Raise (HTTPException 500 "Gmail credentials not configured"), t)) /\
  (Api.gmail_configured (Api.health_check env) = true ->
   forall request t,
   exists new,
     snd (Api.send_from_google_sheet env request t)
     = (t ++ HttpGet (Spec.export_endpoint (Api.sheet_url request)) :: new)%list).
Proof.
  assert (Api.gmail_configured (Api.health_check env)
          = truthy (GMAIL_ADDRESS env) && truthy (GMAIL_APP_PASSWORD env)) as E.
  { unfold Api.health_check, Api.gmail_configured, and_also.
    destruct (truthy (GMAIL_ADDRESS env)) eqn:Ha; [reflexivity | exact Ha]. }
  split; [|split].
  - rewrite E. unfold Spec.configured. apply andb_true_iff.
  - intros H request t. rewrite E in H.
    destruct (api_batch_trace env request t) as [[_ R]|[[Ha Hp] _]];
      [exact R|]. rewrite Ha, Hp in H. discriminate.
  - intros H request t. rewrite E in H. apply andb_true_iff in H.
    destruct H as [Ha Hp].
    destruct (api_batch_trace env request t) as [[N _]|(_ & new & R & _)].
    + rewrite Ha, Hp in N. discriminate.
    + exists new. exact R.
Qed.

Lemma health_check_tells_the_batch_gate_witness :
  Api.send_from_google_sheet
    (Examples.world (Some "me@gmail.com") (Some "") 200 Examples.sheet None)
    Examples.sheet_request []
  = (Raise (HTTPException 500 "Gmail credentials not configured"), []).
Proof.
  apply (proj1 (proj2 (health_check_tells_the_batch_gate
                         (Examples.world (Some "me@gmail.com") (Some "") 200
                            Examples.sheet None)))).
  reflexivity.
Defined.

Lemma format_plain (kw : kwargs) (t : string) :
  (forall c, Spec.has_char c t -> c <> "{"%char /\ c <> "}"%char) ->
  format t kw = Ok t.
Proof.
  unfold format. induction t as [|c t IH]; intros H; [reflexivity|].
  cbn [format_go].
  destruct (H c (or_introl eq_refl)) as [N1 N2].
  destruct (Ascii.eqb_spec c "{"); [congruence|].
  destruct (Ascii.eqb_spec c "}"); [congruence|].
  rewrite IH; [reflexivity|]. intros x Hx. apply H. right. exact Hx.
Qed.

(** X12.  A subject and a body of the caller's own that hold no brace
    are previewed and sent as they are: the preview returns them, and the
    message that the single-send operation hands to SMTP carries them. *)
Theorem text_without_braces_goes_out_verbatim (env : Env)
  (request : Api.SingleEmailRequest) (own_subject own_body : string) (t : trace) :
  Api.subject request = Some own_subject ->
  Api.body request = Some own_body ->
  own_subject <> "" -> own_body <> "" ->
  (forall c, Spec.has_char c own_subject -> c <> "{"%char /\ c <> "}"%char) ->
  (forall c, Spec.has_char c own_body -> c <> "{"%char /\ c <> "}"%char) ->
  Api.preview_email env request t =
  (Ok {| Api.preview_to_email := Api.to_email request;
         Api.preview_subject := own_subject;
         Api.preview_body := own_body |}, t)
  /\
  (truthy (or_else (Api.sender_email request) (GMAIL_ADDRESS env)) = true ->
   truthy (or_else (Api.sender_password request) (GMAIL_APP_PASSWORD env)) = true ->
   exists m,
     snd (Api.send_single_email env request t) = (t ++ [SmtpSession m])%list /\
     msg_To m = Api.to_email request /\
     msg_Subject m = own_subject /\
     msg_body m = own_body).
Proof.
  intros Hs Hb Ns Nb Ps Pb.
  assert (or_str (Api.subject request) Api.DEFAULT_SUBJECT = own_subject) as Es.
  { rewrite Hs. destruct own_subject; [congruence | reflexivity]. }
  assert (or_str (Api.body request) Api.DEFAULT_BODY = own_body) as Eb.
  { rewrite Hb. destruct own_body; [congruence | reflexivity]. }
  split.
  - rewrite api_preview_run, Es, Eb, !format_plain by assumption. reflexivity.
  - intros Ha Hp.
    assert (format (or_str (Api.subject request) Api.DEFAULT_SUBJECT)
              [("company_name", Api.req_company_name request);
               ("hr_name", Api.req_hr_name request)] = Ok own_subject) as Fs
      by (rewrite Es; apply format_plain; assumption).
    assert (format (or_str (Api.body request) Api.DEFAULT_BODY)
              [("company_name", Api.req_company_name request);
               ("hr_name", Api.req_hr_name request);
               ("sender_email",
                str_opt (or_else (Api.sender_email request) (GMAIL_ADDRESS env)))]
            = Ok own_body) as Fb
      by (rewrite Eb; apply format_plain; assumption).
    rewrite (api_send_single_run env request t Ha Hp Fs Fb). cbv zeta.
    eexists. cbn [snd]. split; [reflexivity|]. repeat split.
Qed.

Lemma text_without_braces_goes_out_verbatim_witness :
  Api.preview_email
    (Examples.world None None 200 Examples.sheet None)
    Examples.own_address_request []
  = (Ok {| Api.preview_to_email := Api.to_email Examples.own_address_request;
           Api.preview_subject := "Hello";
           Api.preview_body := "Plain text" |}, []).
Proof.
  apply (proj1 (text_without_braces_goes_out_verbatim
                  (Examples.world None None 200 Examples.sheet None)
                  Examples.own_address_request (own_subject := "Hello")
                  (own_body := "Plain text") [] eq_refl eq_refl
                  ltac:(discriminate) ltac:(discriminate)
                  ltac:(intros c Hc; cbn in Hc;
                        repeat (destruct Hc as [<-|Hc]; [split; discriminate|]);
                        contradiction)
                  ltac:(intros c Hc; cbn in Hc;
                        repeat (destruct Hc as [<-|Hc]; [split; discriminate|]);
                        contradiction))).
Defined.

Lemma count_success_all (rs : list Api.Outcome) :
  Forall (fun r => Api.outcome_success r = true) rs ->
  Api.count_success rs = Z.of_nat (List.length rs).
Proof.
  induction 1 as [|r rs Hr _ IH]; cbn [Api.count_success List.length];
    [reflexivity|].
  rewrite Hr, IH, Nat2Z.inj_succ. lia.
Qed.

Lemma recorded_sent (contacts : list Contact) (rs : list Api.Outcome) :
  Forall2 Spec.recorded contacts rs ->
  Forall (fun r => Api.outcome_success r = true) rs ->
  rs = map (fun c => Api.Sent (email c) (hr_name c) (company_name c)) contacts.
Proof.
  induction 1 as [|c r cs rs Hr _ IH]; intros Hall; [reflexivity|].
  inversion Hall as [|? ? Hs Hrest]; subst. cbn [map]. rewrite IH by exact Hrest.
  destruct Hr as [->|[err ->]]; [reflexivity | discriminate Hs].
Qed.

(** X13.  When every SMTP session goes well, the batch operation returns
    the summary with [succeeded = N], [failed = 0] and, for each contact in
    order, the entry with its address, name and company. *)
Theorem all_sends_succeed (env : Env) (request : Api.GoogleSheetRequest)
  (t t1 : trace) (csv : string) (contacts : list Contact) :
  Spec.configured env ->
  Spec.batch_templates_well_formed request ->
  Api.fetch_google_sheet env (Api.sheet_url request) t = (Ok csv, t1) ->
  Api.parse_contacts env csv = Ok contacts ->
  contacts <> [] ->
  (forall u m, smtp_session env u m = None) ->
  exists t2,
    Api.send_from_google_sheet env request t =
    (Ok {| Api.total := Z.of_nat (List.length contacts);
           Api.succeeded := Z.of_nat (List.length contacts);
           Api.failed := 0;
           Api.results :=
             map (fun c => Api.Sent (email c) (hr_name c) (company_name c))
               contacts |}, t2) /\
    map msg_To (sessions t2) = (map msg_To (sessions t1) ++ map email contacts)%list.
Proof.
  intros Hc [Hs Hb] Hfetch Hparse Hne Hall.
  rewrite (api_batch_run request t Hc Hfetch Hparse Hne).
  destruct Hc as [Ha Hp].
  destruct (api_send_loop_spec env Ha Hp request Hs Hb contacts [] t1)
    as (rs & t2 & -> & HF & HS & _ & _ & Hok).
  cbn [app]. specialize (Hok Hall).
  rewrite (count_success_all Hok), (recorded_sent HF Hok), length_map, Z.sub_diag.
  exists t2. split; [reflexivity | exact HS].
Qed.

Lemma all_sends_succeed_witness :
  exists t2,
    Api.send_from_google_sheet
      (Examples.world (Some "me@gmail.com") (Some "app-password") 200
         Examples.sheet None)
      Examples.sheet_request []
    = (Ok {| Api.total := 2; Api.succeeded := 2; Api.failed := 0;
             Api.results :=
               [Api.Sent "jane@acme.com" "Jane Doe" "Acme";
                Api.Sent "hr@initech.com" "Hiring Manager" "Initech"] |}, t2).
Proof.
  destruct (@all_sends_succeed
              (Examples.world (Some "me@gmail.com") (Some "app-password") 200
                 Examples.sheet None)
              Examples.sheet_request []
              [HttpGet "https://docs.google.com/spreadsheets/d/ABC123/export?format=csv&gid=456"]
              "csv" Examples.contacts)
    as (t2 & H & _).
  - split; reflexivity.
  - split; vm_compute; reflexivity.
  - vm_compute. reflexivity.
  - vm_compute. reflexivity.
  - discriminate.
  - intros u m. reflexivity.
  - exists t2. exact H.
Defined.

(* ===================================================================== *)
(** * Further properties: the batch tool *)
(* ===================================================================== *)

Section BatchToolRuns.

Variable env : Env.

Lemma sleeps_app (t t' : trace) :
  sleeps (t ++ t')%list = (sleeps t ++ sleeps t')%list.
Proof.
  induction t as [|[] t IH]; cbn [sleeps app]; try exact IH.
  - reflexivity.
  - rewrite IH. reflexivity.
Qed.

Lemma prompts_app (t t' : trace) :
  prompts (t ++ t')%list = (prompts t ++ prompts t')%list.
Proof.
  induction t as [|[] t IH]; cbn [prompts app]; try exact IH.
  - reflexivity.
  - rewrite IH. reflexivity.
Qed.

(** One call of [send_email] of the batch tool: what it returns and what
    it adds to the trace. *)
Lemma cli_send_email_effects (to_email hr_name company_name : string)
  (preview_only : bool) (t : trace) :
  exists b new,
    ColdMailer.send_email env to_email hr_name company_name preview_only t
    = (Ok b, (t ++ new)%list) /\
    fetched new = [] /\ sleeps new = [] /\ prompts new = [] /\
    (preview_only = true -> b = true /\ sessions new = []) /\
    (preview_only = false ->
     exists m,
       sessions new = [m] /\ msg_To m = to_email /\ Spec.by_the_server env m /\
       b = match smtp_session env t m with None => true | Some _ => false end).
Proof.
  destruct (cli_send_email_run env to_email hr_name company_name)
    as (subject & body & _ & _ & Hrun).
  destruct (Hrun t) as [Hprev Hsend]. cbv zeta in Hsend.
  destruct preview_only.
  - rewrite Hprev. eexists _, _. split; [reflexivity|].
    repeat split; try reflexivity; discriminate.
  - rewrite Hsend. eexists _, _. split; [reflexivity|].
    split; [reflexivity|]. split; [reflexivity|]. split; [reflexivity|].
    split; [discriminate|]. intros _. eexists.
    split; [reflexivity|]. split; [reflexivity|]. split; [|reflexivity].
    repeat split.
Qed.

Variable args : ColdMailer.Args.

(** The number of pauses of the loop over [n] contacts that starts at
    index [i]. *)
Lemma cli_send_loop_effects (contacts : list Contact) :
  ColdMailer.preview args = true \/ Spec.pauses_accepted env args ->
  forall (i success_count fail_count : Z) (t : trace),
    (0 <= i)%Z ->
    exists s' f' new,
      ColdMailer.send_loop env args i contacts success_count fail_count t
      = (Ok (s', f'), (t ++ new)%list) /\
      fetched new = [] /\ prompts new = [] /\
      sleeps new
      = repeat (ColdMailer.delay args)
          (if ColdMailer.preview args then 0
           else if (0 <? i)%Z then List.length contacts
                else List.length contacts - 1) /\
      (ColdMailer.preview args = true ->
       s' = (success_count + Z.of_nat (List.length contacts))%Z /\
       f' = fail_count /\ sessions new = []) /\
      ((forall u m, smtp_session env u m = None) ->
       s' = (success_count + Z.of_nat (List.length contacts))%Z /\ f' = fail_count).
Proof.
  intros Hpause.
  induction contacts as [|contact rest IH]; intros i sc fc t Hi.
  - exists sc, fc, []. cbn [ColdMailer.send_loop List.length].
    unfold ret. rewrite app_nil_r, Z.add_0_r.
    split; [reflexivity|]. split; [reflexivity|]. split; [reflexivity|].
    split; [destruct (ColdMailer.preview args), (0 <? i)%Z; reflexivity|].
    split; intros; repeat split.
  - cbn [ColdMailer.send_loop].
    assert (exists w,
               sessions w = [] /\ fetched w = [] /\ prompts w = [] /\
               sleeps w = (if (0 <? i)%Z && negb (ColdMailer.preview args)
                           then [ColdMailer.delay args] else []) /\
               (if (0 <? i)%Z && negb (ColdMailer.preview args)
                then bind (print ("Waiting " ++ str_int (ColdMailer.delay args)
                                    ++ " seconds..."))
                       (fun _ => sleep env (ColdMailer.delay args))
                else ret tt) t = (Ok tt, (t ++ w)%list))
      as (w & Ws & Wg & Wp & Wz & Ewait).
    { destruct Hpause as [Hprev|Hacc].
      - rewrite Hprev, andb_false_r. exists []. unfold ret.
        rewrite app_nil_r. repeat split.
      - destruct ((0 <? i)%Z && negb (ColdMailer.preview args)).
        + exists [Print ("Waiting " ++ str_int (ColdMailer.delay args)
                           ++ " seconds...");
                  Sleep (ColdMailer.delay args)].
          unfold bind, print.
          rewrite (@sleep_accepted env args _ Hacc), <- app_assoc.
          repeat split.
        + exists []. unfold ret. rewrite app_nil_r. repeat split. }
    unfold bind at 1. rewrite Ewait. unfold bind at 1.
    destruct (cli_send_email_effects (email contact) (hr_name contact)
                (company_name contact) (ColdMailer.preview args) (t ++ w)%list)
      as (b & new1 & -> & G1 & Z1 & P1 & Hprev & Hsend).
    assert (0 <= i + 1)%Z as Hi' by lia.
    assert ((0 <? i + 1)%Z = true) as Hpos by (apply Z.ltb_lt; lia).
    assert (exists sc' fc',
               (if b
                then ColdMailer.send_loop env args (i + 1) rest (sc + 1) fc
                else ColdMailer.send_loop env args (i + 1) rest sc (fc + 1))
               = ColdMailer.send_loop env args (i + 1) rest sc' fc' /\
               (b = true -> sc' = (sc + 1)%Z /\ fc' = fc))
      as (sc' & fc' & -> & Hb).
    { destruct b; eexists _, _; split; try reflexivity; try discriminate.
      intros _. split; reflexivity. }
    destruct (IH (i + 1)%Z sc' fc' ((t ++ w) ++ new1)%list Hi')
      as (s' & f' & new2 & -> & G2 & P2 & Z2 & Hp2 & Ha2).
    exists s', f', (w ++ new1 ++ new2)%list.
    rewrite !app_assoc. split; [reflexivity|].
    rewrite !fetched_app, !prompts_app, !sleeps_app, Wg, G1, G2, Wp, P1, P2, Wz, Z1, Z2.
    split; [reflexivity|]. split; [reflexivity|]. rewrite Hpos. cbn [app].
    split; [|split].
    + destruct (ColdMailer.preview args), (0 <? i)%Z;
        cbn [andb negb app List.length repeat Nat.sub];
        rewrite ?Nat.sub_0_r; reflexivity.
    + intros P. destruct (Hprev P) as [-> S1].
      destruct (Hb eq_refl) as [-> ->].
      destruct (Hp2 P) as (-> & -> & S2).
      cbn [List.length]. rewrite Nat2Z.inj_succ, !sessions_app, Ws, S1, S2.
      repeat split. lia.
    + intros Hall.
      assert (b = true) as Hbt.
      { destruct (ColdMailer.preview args) eqn:P.
        - apply (Hprev eq_refl).
        - destruct (Hsend eq_refl) as (m & _ & _ & _ & ->).
          rewrite Hall. reflexivity. }
      destruct (Hb Hbt) as [-> ->]. destruct (Ha2 Hall) as [-> ->].
      cbn [List.length]. rewrite Nat2Z.inj_succ. split; [lia | reflexivity].
Qed.

End BatchToolRuns.

Section BatchToolMain.

Variable env : Env.
Variable args : ColdMailer.Args.

Lemma effects_of_contact_lines (contacts : list Contact) :
  forall i,
    sessions (Spec.contact_lines i contacts) = [] /\
    sleeps (Spec.contact_lines i contacts) = [] /\
    prompts (Spec.contact_lines i contacts) = [] /\
    fetched (Spec.contact_lines i contacts) = [].
Proof.
  induction contacts as [|c rest IH]; intros i; cbn; [auto|apply IH].
Qed.

Lemma effects_of_announcement (contacts : list Contact) :
  sleeps (Spec.announcement args contacts) = [] /\
  prompts (Spec.announcement args contacts) = [].
Proof.
  unfold Spec.announcement. cbn [sleeps prompts].
  rewrite !sleeps_app, !prompts_app.
  destruct (effects_of_contact_lines contacts 1) as (_ & -> & -> & _).
  destruct (ColdMailer.preview args); split; reflexivity.
Qed.

(** [main] when it has to ask: it goes on after the answer [yes], in any
    case of the letters, and stops after any other answer. *)
Lemma cli_main_asked (t t1 : trace) (csv : string) (contacts : list Contact) :
  Spec.configured env ->
  ColdMailer.fetch_google_sheet env (ColdMailer.sheet_url args)
    (t ++ Spec.banner env args)%list = (Ok csv, t1) ->
  ColdMailer.parse_contacts env csv = Ok contacts ->
  contacts <> [] ->
  ColdMailer.preview args = false ->
  ColdMailer.confirm args = false ->
  ColdMailer.main env args t =
  if String.eqb
       (lower (stdin env (t1 ++ Spec.listing contacts)%list Spec.question)) "yes"
  then
    match ColdMailer.send_loop env args 0 contacts 0 0
            (t1 ++ Spec.listing contacts
               ++ [Input Spec.question; Print (nl ++ repeat_str "=" 40)])%list with
    | (Ok counts, t2) =>
        (Ok tt,
         (t2 ++ [Print (nl ++ repeat_str "=" 40);
                 Print (ColdMailer.summary_line (fst counts) (snd counts))])%list)
    | (Raise e, t2) => (Raise e, t2)
    end
  else
    (Ok tt,
     (t1 ++ Spec.listing contacts
        ++ [Input Spec.question; Print "Cancelled."])%list).
Proof.
  intros [Ha Hp] Hfetch Hparse Hne P C.
  unfold ColdMailer.main. rewrite Ha, Hp. cbn [negb orb].
  unfold bind at 1. unfold print at 1.
  unfold bind at 1. unfold print at 1.
  unfold bind at 1. unfold print at 1.
  unfold bind at 1. unfold try_except at 1. unfold bind at 1.
  rewrite <- !app_assoc. cbn [app]. fold (Spec.banner env args).
  rewrite Hfetch. unfold bind at 1. unfold lift at 1. rewrite Hparse.
  unfold ret at 1.
  destruct contacts as [|c cs]; [congruence|].
  unfold bind at 1. unfold print at 1.
  unfold bind at 1. rewrite print_contacts_run.
  rewrite P, C. cbn [negb].
  unfold bind at 1. unfold bind at 1. unfold print at 1.
  unfold bind at 1. unfold input at 1.
  replace (((t1 ++ [Print ("Found " ++ str_int (Z.of_nat (List.length (c :: cs)))
                              ++ " contact(s):" ++ nl)])
              ++ Spec.contact_lines 1 (c :: cs))
             ++ [Print (nl ++ repeat_str "-" 40)])%list
    with (t1 ++ Spec.listing (c :: cs))%list
    by (unfold Spec.listing; rewrite <- !app_assoc; reflexivity).
  fold Spec.question.
  destruct (String.eqb
              (lower (stdin env (t1 ++ Spec.listing (c :: cs))%list Spec.question))
              "yes"); cbn [negb].
  - unfold ret at 1. unfold bind at 1. unfold print at 1. unfold bind at 1.
    rewrite <- !app_assoc. cbn [app].
    destruct (ColdMailer.send_loop env args 0 (c :: cs) 0 0 _) as [[counts|e] t2];
      [|reflexivity].
    unfold bind, print. rewrite <- app_assoc. reflexivity.
  - unfold bind, print, ret. rewrite <- !app_assoc. reflexivity.
Qed.

End BatchToolMain.

(** X14.  What [send_email] of the batch tool sends.  In preview mode it
    opens no SMTP session; otherwise it opens exactly one, which logs in
    with the server's address and password and carries, from the server's
    address to the given one, the subject and the body that the tool's
    two templates render for the name and the company.  It fetches
    nothing.  The templates are rendered for every name and company. *)
Theorem batch_tool_send_email_sessions (env : Env)
  (to_email hr_name company_name : string) (preview_only : bool) (t : trace) :
  exists subject body,
    format ColdMailer.EMAIL_SUBJECT [("company_name", company_name)]
    = Ok subject /\
    format ColdMailer.EMAIL_BODY_TEMPLATE
      [("hr_name", hr_name); ("company_name", company_name);
       ("sender_email", str_opt (GMAIL_ADDRESS env))] = Ok body /\
    sessions (snd (ColdMailer.send_email env to_email hr_name company_name
                     preview_only t))
    = (sessions t
         ++ (if preview_only then []
             else [{| login_user := GMAIL_ADDRESS env;
                      login_password := GMAIL_APP_PASSWORD env;
                      msg_From := GMAIL_ADDRESS env;
                      msg_To := to_email;
                      msg_Subject := subject;
                      msg_body := body |}]))%list /\
    fetched (snd (ColdMailer.send_email env to_email hr_name company_name
                    preview_only t))
    = fetched t.
Proof.
  destruct (cli_send_email_run env to_email hr_name company_name)
    as (subject & body & Hsubject & Hbody & Hrun).
  destruct (Hrun t) as [Hprev Hsend]. cbv zeta in Hsend.
  exists subject, body. split; [exact Hsubject|]. split; [exact Hbody|].
  destruct preview_only.
  - rewrite Hprev. cbn [snd]. rewrite sessions_app, fetched_app.
    cbn [sessions fetched]. rewrite !app_nil_r. split; reflexivity.
  - rewrite Hsend. cbn [snd]. rewrite sessions_app, fetched_app.
    cbn [sessions fetched]. rewrite !app_nil_r. split; reflexivity.
Qed.

(** X15.  A run of the batch tool over [N] contacts that previews, or
    whose pause [time.sleep] accepts, pauses [N - 1] times, each time for
    the given delay, when it sends, and never when it previews; it asks
    nothing when it previews or is told to skip the question. *)
Theorem pauses_between_sends (env : Env) (args : ColdMailer.Args)
  (t t1 : trace) (csv : string) (contacts : list Contact) :
  Spec.configured env ->
  ColdMailer.fetch_google_sheet env (ColdMailer.sheet_url args)
    (t ++ Spec.banner env args)%list = (Ok csv, t1) ->
  ColdMailer.parse_contacts env csv = Ok contacts ->
  contacts <> [] ->
  ColdMailer.preview args = true \/ ColdMailer.confirm args = true ->
  ColdMailer.preview args = true \/ Spec.pauses_accepted env args ->
  sleeps (snd (ColdMailer.main env args t))
  = (sleeps t ++ (if ColdMailer.preview args then []
                  else repeat (ColdMailer.delay args) (List.length contacts - 1)))%list
  /\ prompts (snd (ColdMailer.main env args t)) = prompts t.
Proof.
  intros Hc Hfetch Hparse Hne Hgo Hpause.
  rewrite (@cli_main_run env args t t1 csv contacts Hc Hfetch Hparse Hne Hgo).
  destruct (@cli_send_loop_effects env args contacts Hpause 0%Z 0%Z 0%Z
              (t1 ++ Spec.announcement args contacts)%list (Z.le_refl 0))
    as (s' & f' & new & -> & _ & P & Zs & _).
  cbn [snd]. change (0 <? 0)%Z with false in Zs.
  rewrite cli_fetch_run in Hfetch.
  assert (sleeps t1 = sleeps t /\ prompts t1 = prompts t) as [S1 P1].
  { destruct (requests_get env _ _) as [response|];
      [destruct (status_code response =? 200)%Z|];
      injection Hfetch as _ <-;
      rewrite !sleeps_app, !prompts_app; cbn; rewrite !app_nil_r; split; reflexivity. }
  destruct (effects_of_announcement args contacts) as [Sa Pa].
  rewrite !sleeps_app, !prompts_app, Sa, Pa, S1, P1, Zs, P. cbn [sleeps prompts].
  split; [|rewrite !app_nil_r; reflexivity].
  destruct (ColdMailer.preview args); cbn [repeat]; rewrite ?app_nil_r;
    reflexivity.
Qed.

Lemma pauses_between_sends_witness :
  sleeps (snd (ColdMailer.main
                 (Examples.world (Some "me@gmail.com") (Some "app-password") 200
                    Examples.sheet None)
                 Examples.send_args []))
  = [30%Z].
Proof.
  assert (Spec.pauses_accepted
            (Examples.world (Some "me@gmail.com") (Some "app-password") 200
               Examples.sheet None)
            Examples.send_args) as Hacc.
  { split; [vm_compute; discriminate | intros u; reflexivity]. }
  apply (proj1 (@pauses_between_sends
                  (Examples.world (Some "me@gmail.com") (Some "app-password") 200
                     Examples.sheet None)
                  Examples.send_args []
                  [Print "Gmail Account: me@gmail.com";
                   Print "Mode: SEND";
                   Print ("Delay: 30 seconds between emails" ++ nl);
                   Print "Fetching data from Google Sheet...";
                   HttpGet "https://docs.google.com/spreadsheets/d/ABC123/export?format=csv&gid=0"]
                  "csv" Examples.contacts
                  (conj eq_refl eq_refl) eq_refl eq_refl
                  ltac:(discriminate) (or_intror eq_refl) (or_intror Hacc))).
Defined.

(** X16.  A preview run of the batch tool over [N] contacts opens no SMTP
    session, and ends with the summary line that counts [N] successes and
    no failure. *)
Theorem preview_run_sends_nothing (env : Env) (args : ColdMailer.Args)
  (t t1 : trace) (csv : string) (contacts : list Contact) :
  Spec.configured env ->
  ColdMailer.fetch_google_sheet env (ColdMailer.sheet_url args)
    (t ++ Spec.banner env args)%list = (Ok csv, t1) ->
  ColdMailer.parse_contacts env csv = Ok contacts ->
  contacts <> [] ->
  ColdMailer.preview args = true ->
  exists t2,
    ColdMailer.main env args t =
    (Ok tt,
     (t2 ++ [Print (nl ++ repeat_str "=" 40);
             Print ("Summary: " ++ str_int (Z.of_nat (List.length contacts))
                      ++ " successful, 0 failed")])%list) /\
    sessions t2 = sessions t.
Proof.
  intros Hc Hfetch Hparse Hne P.
  rewrite (@cli_main_run env args t t1 csv contacts Hc Hfetch Hparse Hne
             (or_introl P)).
  destruct (@cli_send_loop_effects env args contacts (or_introl P) 0%Z 0%Z 0%Z
              (t1 ++ Spec.announcement args contacts)%list (Z.le_refl 0))
    as (s' & f' & new & -> & _ & _ & _ & Hprev & _).
  destruct (Hprev P) as (-> & -> & S).
  eexists. split; [reflexivity|].
  rewrite cli_fetch_run in Hfetch.
  assert (sessions t1 = sessions t) as S1.
  { destruct (requests_get env _ _) as [response|];
      [destruct (status_code response =? 200)%Z|];
      injection Hfetch as _ <-;
      rewrite !sessions_app; cbn; rewrite !app_nil_r; reflexivity. }
  rewrite !sessions_app, S, S1, sessions_announcement, !app_nil_r. reflexivity.
Qed.

Lemma preview_run_sends_nothing_witness :
  exists t2,
    ColdMailer.main
      (Examples.world (Some "me@gmail.com") (Some "app-password") 200
         Examples.sheet Examples.refused)
      {| ColdMailer.sheet_url := "ABC123"; ColdMailer.preview := true;
         ColdMailer.delay := 30; ColdMailer.confirm := false |} []
    = (Ok tt,
       (t2 ++ [Print (nl ++ repeat_str "=" 40);
               Print "Summary: 2 successful, 0 failed"])%list) /\
    sessions t2 = [].
Proof.
  apply (@preview_run_sends_nothing
           (Examples.world (Some "me@gmail.com") (Some "app-password") 200
              Examples.sheet Examples.refused)
           {| ColdMailer.sheet_url := "ABC123"; ColdMailer.preview := true;
              ColdMailer.delay := 30; ColdMailer.confirm := false |} []
           [Print "Gmail Account: me@gmail.com";
            Print "Mode: PREVIEW";
            Print ("Delay: 30 seconds between emails" ++ nl);
            Print "Fetching data from Google Sheet...";
            HttpGet "https://docs.google.com/spreadsheets/d/ABC123/export?format=csv&gid=0"]
           "csv" Examples.contacts
           (conj eq_refl eq_refl) eq_refl eq_refl ltac:(discriminate) eq_refl).
Defined.

(** X17.  When the batch tool has to ask before it sends and [input]
    returns a line, any answer other than [yes], in whatever case of the
    letters, ends the run with [Cancelled.] and nothing sent; the answer
    [yes] lets it go on, when [time.sleep] accepts its pause, to one SMTP
    session per contact and the summary line. *)
Theorem confirmation_gate (env : Env) (args : ColdMailer.Args)
  (t t1 : trace) (csv : string) (contacts : list Contact) :
  Spec.configured env ->
  ColdMailer.fetch_google_sheet env (ColdMailer.sheet_url args)
    (t ++ Spec.banner env args)%list = (Ok csv, t1) ->
  ColdMailer.parse_contacts env csv = Ok contacts ->
  contacts <> [] ->
  ColdMailer.preview args = false ->
  ColdMailer.confirm args = false ->
  let answer := stdin env (t1 ++ Spec.listing contacts)%list Spec.question in
  (lower answer <> "yes" ->
   ColdMailer.main env args t =
   (Ok tt,
    (t1 ++ Spec.listing contacts
       ++ [Input Spec.question; Print "Cancelled."])%list))
  /\
  (lower answer = "yes" ->
   Spec.pauses_accepted env args ->
   exists s f t2,
     ColdMailer.main env args t =
     (Ok tt,
      (t2 ++ [Print (nl ++ repeat_str "=" 40);
              Print (ColdMailer.summary_line s f)])%list) /\
     (s + f = Z.of_nat (List.length contacts))%Z /\
     map msg_To (sessions t2)
     = (map msg_To (sessions t1) ++ map email contacts)%list).
Proof.
  intros Hc Hfetch Hparse Hne P C answer.
  pose proof (@cli_main_asked env args t t1 csv contacts Hc Hfetch Hparse Hne P C)
    as Hrun.
  fold answer in Hrun. split.
  - intros N. apply String.eqb_neq in N. rewrite N in Hrun. exact Hrun.
  - intros Y Hacc. apply String.eqb_eq in Y. rewrite Y in Hrun. rewrite Hrun.
    destruct (@cli_send_loop_spec env args contacts (or_intror Hacc) 0 0 0
                (t1 ++ Spec.listing contacts
                   ++ [Input Spec.question; Print (nl ++ repeat_str "=" 40)])%list)
      as (s' & f' & t' & -> & Hsum & _ & _ & HS & _).
    exists s', f', t'. split; [reflexivity|]. split; [lia|].
    rewrite HS, P, !sessions_app. unfold Spec.listing. cbn [sessions].
    rewrite sessions_app.
    destruct (effects_of_contact_lines contacts 1) as (-> & _).
    cbn [sessions app]. rewrite !app_nil_r. reflexivity.
Qed.

Lemma confirmation_gate_witness :
  ColdMailer.main
    {| GMAIL_ADDRESS := Some "me@gmail.com";
       GMAIL_APP_PASSWORD := Some "app-password";
       requests_get := fun _ _ => Ok {| status_code := 200; text := "csv" |};
       smtp_session := fun _ _ => None;
       stdin := fun _ _ => "y";
       read_csv := fun _ => Ok Examples.sheet;
       time_sleep := fun _ _ => None |}
    {| ColdMailer.sheet_url := "ABC123"; ColdMailer.preview := false;
       ColdMailer.delay := 30; ColdMailer.confirm := false |} []
  = (Ok tt,
     ([Print "Gmail Account: me@gmail.com";
       Print "Mode: SEND";
       Print ("Delay: 30 seconds between emails" ++ nl);
       Print "Fetching data from Google Sheet...";
       HttpGet "https://docs.google.com/spreadsheets/d/ABC123/export?format=csv&gid=0"]
        ++ Spec.listing Examples.contacts
        ++ [Input Spec.question; Print "Cancelled."])%list).
Proof.
  apply (proj1 (@confirmation_gate
                  {| GMAIL_ADDRESS := Some "me@gmail.com";
                     GMAIL_APP_PASSWORD := Some "app-password";
                     requests_get :=
                       fun _ _ => Ok {| status_code := 200; text := "csv" |};
                     smtp_session := fun _ _ => None;
                     stdin := fun _ _ => "y";
                     read_csv := fun _ => Ok Examples.sheet;
                     time_sleep := fun _ _ => None |}
                  {| ColdMailer.sheet_url := "ABC123"; ColdMailer.preview := false;
                     ColdMailer.delay := 30; ColdMailer.confirm := false |} []
                  [Print "Gmail Account: me@gmail.com";
                   Print "Mode: SEND";
                   Print ("Delay: 30 seconds between emails" ++ nl);
                   Print "Fetching data from Google Sheet...";
                   HttpGet "https://docs.google.com/spreadsheets/d/ABC123/export?format=csv&gid=0"]
                  "csv" Examples.contacts
                  (conj eq_refl eq_refl) eq_refl eq_refl
                  ltac:(discriminate) eq_refl eq_refl)).
  vm_compute. discriminate.
Defined.

Section Quiet.

Variable env : Env.

Lemma quiet_ret {A} (a : A) : Spec.quiet (ret a).
Proof. intros t. reflexivity. Qed.

Lemma quiet_print (line : string) : Spec.quiet (print line).
Proof.
  intros t. unfold print. cbn [snd]. rewrite sessions_app. apply app_nil_r.
Qed.

(** A sequence is quiet when its first part is and what follows is, for
    each value that the first part can return. *)
Lemma quiet_bind {A B} (m : M A) (k : A -> M B) :
  Spec.quiet m ->
  (forall t a t', m t = (Ok a, t') -> Spec.quiet (k a)) ->
  Spec.quiet (bind m k).
Proof.
  intros Hm Hk t. unfold bind. specialize (Hm t).
  destruct (m t) as [[a|e] t'] eqn:E; cbn [snd] in Hm |- *; [|exact Hm].
  rewrite (Hk t a t' E t'). exact Hm.
Qed.

Lemma quiet_try {A} (m : M A) (h : exn -> M A) :
  Spec.quiet m -> (forall e, Spec.quiet (h e)) -> Spec.quiet (try_except m h).
Proof.
  intros Hm Hh t. unfold try_except. specialize (Hm t).
  destruct (m t) as [[a|e] t'] eqn:E; cbn [snd] in Hm |- *; [exact Hm|].
  rewrite (Hh e t'). exact Hm.
Qed.

Lemma quiet_fetch (ref : string) :
  Spec.quiet (ColdMailer.fetch_google_sheet env ref).
Proof.
  intros t. rewrite cli_fetch_run. cbn [snd]. rewrite sessions_app. apply app_nil_r.
Qed.

Lemma quiet_print_contacts (contacts : list Contact) (i : Z) :
  Spec.quiet (ColdMailer.print_contacts i contacts).
Proof.
  intros t. rewrite print_contacts_run. cbn [snd]. rewrite sessions_app.
  destruct (effects_of_contact_lines contacts i) as (-> & _). apply app_nil_r.
Qed.

Lemma quiet_preview_loop (args : ColdMailer.Args) (contacts : list Contact) :
  ColdMailer.preview args = true ->
  Spec.quiet (ColdMailer.send_loop env args 0 contacts 0 0).
Proof.
  intros P t.
  destruct (@cli_send_loop_effects env args contacts (or_introl P)
              0%Z 0%Z 0%Z t (Z.le_refl 0))
    as (s' & f' & new & -> & _ & _ & _ & Hprev & _).
  destruct (Hprev P) as (_ & _ & S). cbn [snd]. rewrite sessions_app, S.
  apply app_nil_r.
Qed.

End Quiet.

(** X18.  The batch tool opens no SMTP session when the server's
    credentials are not set, when it is asked to preview, or when it has
    to ask and is never answered [yes]: whatever the sheet holds and
    whatever the fetch returns. *)
Theorem batch_tool_sends_only_when_allowed (env : Env) (args : ColdMailer.Args) :
  ~ Spec.configured env \/
  ColdMailer.preview args = true \/
  (ColdMailer.confirm args = false /\
   forall u, lower (stdin env u Spec.question) <> "yes") ->
  forall t, sessions (snd (ColdMailer.main env args t)) = sessions t.
Proof.
  intros H. change (Spec.quiet (ColdMailer.main env args)).
  unfold ColdMailer.main.
  destruct (truthy (GMAIL_ADDRESS env)) eqn:Ha;
    [destruct (truthy (GMAIL_APP_PASSWORD env)) eqn:Hp|];
    cbn [negb orb]; try apply quiet_print.
  assert (ColdMailer.preview args = true \/
          (ColdMailer.preview args = false /\ ColdMailer.confirm args = false /\
           forall u, lower (stdin env u Spec.question) <> "yes")) as H'.
  { destruct H as [N|[P|[C N]]].
    - exfalso. apply N. split; assumption.
    - left. exact P.
    - destruct (ColdMailer.preview args); [left; reflexivity|].
      right. repeat split; assumption. }
  clear H.
  apply quiet_bind; [apply quiet_print|]. intros _ _ _ _.
  apply quiet_bind; [apply quiet_print|]. intros _ _ _ _.
  apply quiet_bind; [apply quiet_print|]. intros _ _ _ _.
  apply quiet_bind.
  { apply quiet_try.
    - apply quiet_bind; [apply quiet_fetch|]. intros _ csv _ _.
      apply quiet_bind; [intros u; reflexivity|]. intros _ cs _ _.
      apply quiet_ret.
    - intros e. apply quiet_bind; [apply quiet_print|]. intros _ _ _ _.
      apply quiet_ret. }
  intros _ loaded _ _.
  destruct loaded as [[|c cs]|]; [apply quiet_print| |apply quiet_ret].
  apply quiet_bind; [apply quiet_print|]. intros _ _ _ _.
  apply quiet_bind; [apply quiet_print_contacts|]. intros _ _ _ _.
  destruct H' as [P|(P & C & N)]; rewrite P; cbn [negb].
  - apply quiet_bind; [apply quiet_ret|]. intros u go_on u' E.
    unfold ret in E. injection E as <- _.
    apply quiet_bind; [apply quiet_print|]. intros _ _ _ _.
    apply quiet_bind; [apply quiet_preview_loop, P|]. intros _ counts _ _.
    apply quiet_bind; [apply quiet_print|]. intros _ _ _ _. apply quiet_print.
  - rewrite C. cbn [negb].
    apply quiet_bind.
    + apply quiet_bind; [apply quiet_print|]. intros _ _ _ _.
      apply quiet_bind.
      * intros u. unfold input. cbn [snd]. rewrite sessions_app. apply app_nil_r.
      * intros _ answer _ _.
        destruct (negb (String.eqb (lower answer) "yes")).
        -- apply quiet_bind; [apply quiet_print|]. intros _ _ _ _. apply quiet_ret.
        -- apply quiet_ret.
    + intros u go_on u' E.
      unfold bind at 1 in E. unfold print at 1 in E.
      unfold bind at 1 in E. unfold input at 1 in E.
      fold Spec.question in E.
      specialize (N (u ++ [Print (nl ++ repeat_str "-" 40)])%list).
      apply String.eqb_neq in N. rewrite N in E. cbn [negb] in E.
      unfold bind, print, ret in E. injection E as <- _.
      apply quiet_ret.
Qed.

Lemma batch_tool_sends_only_when_allowed_witness :
  sessions (snd (ColdMailer.main
                   (Examples.world (Some "me@gmail.com") None 200
                      Examples.sheet None)
                   Examples.send_args []))
  = sessions [].
Proof.
  apply (@batch_tool_sends_only_when_allowed
           (Examples.world (Some "me@gmail.com") None 200 Examples.sheet None)
           Examples.send_args).
  left. intros [_ H]. discriminate H.
Defined.

(** X19.  Without both credentials the batch tool prints its error and
    does nothing else, not even the fetch.  With them, a sheet from which
    no contact is extracted makes it print [No contacts found in the
    sheet!] after the fetch and stop. *)
Theorem batch_tool_stops_early (env : Env) (args : ColdMailer.Args) (t : trace) :
  (~ Spec.configured env ->
   ColdMailer.main env args t =
   (Ok tt,
    (t ++ [Print "Error: Please set GMAIL_ADDRESS and GMAIL_APP_PASSWORD in .env file"])%list))
  /\
  (Spec.configured env ->
   forall csv t1 df,
     ColdMailer.fetch_google_sheet env (ColdMailer.sheet_url args)
       (t ++ Spec.banner env args)%list = (Ok csv, t1) ->
     read_csv env csv = Ok df ->
     (forall row, In row df -> Spec.extracted row = []) ->
     ColdMailer.main env args t =
     (Ok tt, (t1 ++ [Print "No contacts found in the sheet!"])%list)).
Proof.
  split.
  - intros N. unfold ColdMailer.main.
    destruct (truthy (GMAIL_ADDRESS env)) eqn:Ha;
      [destruct (truthy (GMAIL_APP_PASSWORD env)) eqn:Hp|]; try reflexivity.
    exfalso. apply N. split; assumption.
  - intros [Ha Hp] csv t1 df Hfetch Hread Hrows.
    assert (ColdMailer.parse_contacts env csv = Ok []) as Hparse.
    { unfold ColdMailer.parse_contacts, parse_contacts. rewrite Hread.
      cbn [rbind]. rewrite iterrows_extracted. cbn [app]. f_equal.
      clear Hread. induction df as [|row df IH]; [reflexivity|].
      cbn [flat_map]. rewrite (Hrows row) by (left; reflexivity).
      apply IH. intros r Hr. apply Hrows. right. exact Hr. }
    unfold ColdMailer.main. rewrite Ha, Hp. cbn [negb orb].
    unfold bind at 1. unfold print at 1.
    unfold bind at 1. unfold print at 1.
    unfold bind at 1. unfold print at 1.
    unfold bind at 1. unfold try_except at 1. unfold bind at 1.
    rewrite <- !app_assoc. cbn [app]. fold (Spec.banner env args).
    rewrite Hfetch. unfold bind at 1. unfold lift at 1. rewrite Hparse.
    reflexivity.
Qed.

Lemma batch_tool_stops_early_witness :
  ColdMailer.main
    (Examples.world (Some "me@gmail.com") (Some "app-password") 200
       [[Val "Company"; Val "Email"; Val "Name"]; [Val "jane@acme.com"]] None)
    Examples.send_args []
  = (Ok tt,
     ([Print "Gmail Account: me@gmail.com";
       Print "Mode: SEND";
       Print ("Delay: 30 seconds between emails" ++ nl);
       Print "Fetching data from Google Sheet...";
       HttpGet "https://docs.google.com/spreadsheets/d/ABC123/export?format=csv&gid=0"]
        ++ [Print "No contacts found in the sheet!"])%list).
Proof.
  apply (proj2 (batch_tool_stops_early
                  (Examples.world (Some "me@gmail.com") (Some "app-password") 200
                     [[Val "Company"; Val "Email"; Val "Name"];
                      [Val "jane@acme.com"]] None)
                  Examples.send_args [])
           (conj eq_refl eq_refl) "csv" _
           [[Val "Company"; Val "Email"; Val "Name"]; [Val "jane@acme.com"]]
           eq_refl eq_refl).
  intros row [<-|[<-|[]]]; vm_compute; reflexivity.
Defined.

(** X20.  With the default templates every request is rendered, whatever
    the names hold, braces included: the subject is [Application for
    SDE-1 Position at] followed by the company name, and the body starts
    with [Dear], the name and a comma. *)
Theorem default_templates_render (env : Env) (request : Api.SingleEmailRequest)
  (t : trace) :
  truthy (Api.subject request) = false ->
  truthy (Api.body request) = false ->
  exists rest,
    Api.preview_email env request t =
    (Ok {| Api.preview_to_email := Api.to_email request;
           Api.preview_subject :=
             "Application for SDE-1 Position at " ++ Api.req_company_name request;
           Api.preview_body := "Dear " ++ Api.req_hr_name request ++ "," ++ rest |},
     t).
Proof.
  intros Hs Hb. rewrite api_preview_run.
  rewrite (@or_str_falsy _ _ Hs), (@or_str_falsy _ _ Hb).
  set (sender := or_str (or_else (Api.sender_email request) (GMAIL_ADDRESS env))
                   "your.email@gmail.com").
  set (company := Api.req_company_name request).
  set (name := Api.req_hr_name request).
  assert (format Api.DEFAULT_SUBJECT [("company_name", company); ("hr_name", name)]
          = Ok ("Application for SDE-1 Position at " ++ company)) as ->.
  { clearbody company name.
    transitivity (Ok ("Application for SDE-1 Position at " ++ (company ++ ""))).
    - vm_compute. reflexivity.
    - rewrite append_nil_r. reflexivity. }
  cbn [rbind].
  remember (format Api.DEFAULT_BODY
              [("company_name", company); ("hr_name", name);
               ("sender_email", sender)]) as rendered eqn:R.
  clearbody company name sender. vm_compute in R. subst rendered. cbn [rbind].
  eexists. reflexivity.
Qed.

Lemma default_templates_render_witness :
  exists rest,
    Api.preview_email (Examples.world None None 200 Examples.sheet None)
      {| Api.to_email := "jane@acme.com";
         Api.req_hr_name := "Jane {Doe}";
         Api.req_company_name := "Acme {x}";
         Api.subject := Some "";
         Api.body := None;
         Api.sender_email := None;
         Api.sender_password := None |} []
    = (Ok {| Api.preview_to_email := "jane@acme.com";
             Api.preview_subject := "Application for SDE-1 Position at " ++ "Acme {x}";
             Api.preview_body := "Dear " ++ "Jane {Doe}" ++ "," ++ rest |}, []).
Proof.
  apply (default_templates_render
           (Examples.world None None 200 Examples.sheet None)
           {| Api.to_email := "jane@acme.com";
              Api.req_hr_name := "Jane {Doe}";
              Api.req_company_name := "Acme {x}";
              Api.subject := Some "";
              Api.body := None;
              Api.sender_email := None;
              Api.sender_password := None |} [] eq_refl eq_refl).
Defined.


